(** * football-mvp-ai: a shallow embedding of the input parser, the
    statistics client, the statistics tools and the interaction loop.

    Python text is modelled as [string], a sequence of 8-bit characters,
    and the character classes of [str.strip], [str.lower], [\s] and [\d]
    are their ASCII parts: the model is that of the program on ASCII
    text, and the statements about typed lines and team names say so
    ([Wording.ascii_text]).  JSON numbers are the integers the
    statistics API delivers.  Python exceptions are an explicit result
    type. *)

From Stdlib Require Import String Ascii List ZArith Lia Bool DecimalString.
Import ListNotations.

Set Warnings "-register-all".

Open Scope list_scope.
Open Scope string_scope.

(* ================================================================= *)
(** ** Python strings *)

Module PyStr.

Definition nat_in (lo hi : nat) (c : ascii) : bool :=
  let n := nat_of_ascii c in Nat.leb lo n && Nat.leb n hi.

(** [str.isspace] on one ASCII character: TAB, LF, VT, FF, CR, the four
    separators FS, GS, RS, US, and the space. *)
Definition isspace (c : ascii) : bool := nat_in 9 13 c || nat_in 28 32 c.

(** [\d] on ASCII text. *)
Definition isdigit (c : ascii) : bool := nat_in 48 57 c.

Definition isupper (c : ascii) : bool := nat_in 65 90 c.

Definition lower_char (c : ascii) : ascii :=
  if isupper c then ascii_of_nat (nat_of_ascii c + 32) else c.

(** [s.lower()] on ASCII text *)
Fixpoint lower (s : string) : string :=
  match s with
  | EmptyString => EmptyString
  | String c s' => String (lower_char c) (lower s')
  end.

Fixpoint lstrip (s : string) : string :=
  match s with
  | EmptyString => EmptyString
  | String c s' => if isspace c then lstrip s' else s
  end.

Fixpoint rstrip (s : string) : string :=
  match s with
  | EmptyString => EmptyString
  | String c s' =>
      match rstrip s' with
      | EmptyString => if isspace c then EmptyString else String c EmptyString
      | r => String c r
      end
  end.

(** [s.strip()] on ASCII text *)
Definition strip (s : string) : string := rstrip (lstrip s).

(** [sub in s] for two strings *)
Fixpoint contains (sub s : string) : bool :=
  String.prefix sub s ||
  match s with
  | EmptyString => false
  | String _ s' => contains sub s'
  end.

(** [str(n)] for an integer *)
Definition of_Z (z : Z) : string := NilZero.string_of_int (Z.to_int z).

Definition nl : string := String "010"%char EmptyString.
Definition dquote : string := String "034"%char EmptyString.
Definition squote : string := String "039"%char EmptyString.
Definition backslash : string := String "092"%char EmptyString.

End PyStr.

(* ================================================================= *)
(** ** The fragment of [re] that the parser's pattern uses *)

Module Re.

(** Patterns.  Quantifiers are applied to single-character classes only,
    which is all the pattern of [parse_user_input] needs. *)
Inductive regex : Type :=
| Chr (c : ascii)                      (* a literal character *)
| Cat (r1 r2 : regex)                  (* r1 r2 *)
| Alt (r1 r2 : regex)                  (* r1|r2, tried left to right *)
| PlusLazy (p : ascii -> bool)         (* c+? *)
| PlusGreedy (p : ascii -> bool)       (* c+ *)
| Times (n : nat) (p : ascii -> bool)  (* c{n} *)
| Group (r : regex).                   (* ( r ), capturing *)

(** [.] without DOTALL: anything but a line feed. *)
Definition dot (c : ascii) : bool := negb (Ascii.eqb c "010"%char).

Section Backtracking.
Context {A : Type}.

(** [c+?]: one character of the class, then the rest of the pattern is
    tried before one more character is taken. *)
Fixpoint plus_lazy (p : ascii -> bool) (s : string)
         (k : string -> option A) : option A :=
  match s with
  | EmptyString => None
  | String c s' =>
      if p c then
        match k s' with
        | Some r => Some r
        | None => plus_lazy p s' k
        end
      else None
  end.

(** [c+]: as many characters of the class as possible, giving them back
    one at a time while the rest of the pattern fails. *)
Fixpoint plus_greedy (p : ascii -> bool) (s : string)
         (k : string -> option A) : option A :=
  match s with
  | EmptyString => None
  | String c s' =>
      if p c then
        match plus_greedy p s' k with
        | Some r => Some r
        | None => k s'
        end
      else None
  end.

(** [c{n}] *)
Fixpoint times (n : nat) (p : ascii -> bool) (s : string)
         (k : string -> option A) : option A :=
  match n with
  | O => k s
  | S n' =>
      match s with
      | EmptyString => None
      | String c s' => if p c then times n' p s' k else None
      end
  end.

(** The text between the start [s] of a group and the rest [s'] of the
    input at its end. *)
Definition consumed (s s' : string) : string :=
  String.substring 0 (String.length s - String.length s') s.

(** The backtracking matcher, in continuation-passing style: [k] is the
    rest of the pattern, given the rest of the input and the groups
    closed so far (in closing order). *)
Fixpoint exec (r : regex) (s : string) (caps : list string)
         (k : string -> list string -> option A) : option A :=
  match r with
  | Chr c =>
      match s with
      | EmptyString => None
      | String c' s' => if Ascii.eqb c' c then k s' caps else None
      end
  | Cat r1 r2 => exec r1 s caps (fun s' caps' => exec r2 s' caps' k)
  | Alt r1 r2 =>
      match exec r1 s caps k with
      | Some x => Some x
      | None => exec r2 s caps k
      end
  | PlusLazy p => plus_lazy p s (fun s' => k s' caps)
  | PlusGreedy p => plus_greedy p s (fun s' => k s' caps)
  | Times n p => times n p s (fun s' => k s' caps)
  | Group r' =>
      exec r' s caps (fun s' caps' => k s' (caps' ++ [consumed s s'])%list)
  end.
End Backtracking.

(** [re.match(pattern, s)]: anchored at the start of [s], not at its end;
    the result is the list of groups and the unmatched rest. *)
Definition rmatch (r : regex) (s : string) : option (list string * string) :=
  exec r s [] (fun s' caps => Some (caps, s')).

(** A literal word. *)
Fixpoint word (w : string) : regex :=
  match w with
  | EmptyString => Times 0 dot
  | String c EmptyString => Chr c
  | String c w' => Cat (Chr c) (word w')
  end.

End Re.

(* ================================================================= *)
(** ** utils/input_parser.py *)

Module InputParser.
Import PyStr Re.

(** [(?:vs|VS|v|V)] *)
Definition versus : regex :=
  Alt (word "vs") (Alt (word "VS") (Alt (word "v") (word "V"))).

(** [(?:on|ON)] *)
Definition on_word : regex := Alt (word "on") (word "ON").

(** [(\d{4}-\d{2}-\d{2})] *)
Definition date_group : regex :=
  Group (Cat (Times 4 isdigit)
        (Cat (Chr "-") (Cat (Times 2 isdigit)
        (Cat (Chr "-") (Times 2 isdigit))))).

(** [(.+?)\s+(?:vs|VS|v|V)\s+(.+?)\s+(?:on|ON)\s+(\d{4}-\d{2}-\d{2})] *)
Definition pattern : regex :=
  Cat (Group (PlusLazy dot))
 (Cat (PlusGreedy isspace)
 (Cat versus
 (Cat (PlusGreedy isspace)
 (Cat (Group (PlusLazy dot))
 (Cat (PlusGreedy isspace)
 (Cat on_word
 (Cat (PlusGreedy isspace)
      date_group))))))).

Definition parse_user_input (input_text : string)
  : option (string * string * string) :=
  let input_text := strip input_text in
  if String.eqb input_text "" then None
  else
    match rmatch pattern input_text with
    | Some ([g1; g2; g3], _) => Some (strip g1, strip g2, strip g3)
    | _ => None
    end.

End InputParser.

(* ================================================================= *)
(** ** Python values: parsed JSON, exceptions, and the operations used *)

Module Py.
Import PyStr.

(** What [json.loads] produces.  An object is a [dict]: its keys are
    distinct and kept in insertion order. *)
Inductive json : Type :=
| JNull
| JBool (b : bool)
| JNum (z : Z)
| JStr (s : string)
| JArr (l : list json)
| JObj (d : list (string * json)).

(** The exception classes the modelled code can meet; [Exception] stands
    for one raised by an external collaborator. *)
Inductive exn : Type :=
| AttributeError
| KeyError
| IndexError
| TypeError
| EOFError
| RecursionError
| ValueError (msg : string)
| Exception (msg : string).

Inductive result (A : Type) : Type :=
| Ok (a : A)
| Raise (e : exn).
Arguments Ok {A} a.
Arguments Raise {A} e.

Definition bind {A B : Type} (m : result A) (f : A -> result B) : result B :=
  match m with
  | Ok a => f a
  | Raise e => Raise e
  end.

Notation "x <- m ;; k" := (bind m (fun x => k))
  (at level 61, m at next level, right associativity).

(** [bool(v)] *)
Definition truthy (v : json) : bool :=
  match v with
  | JNull => false
  | JBool b => b
  | JNum z => negb (Z.eqb z 0)
  | JStr s => negb (String.eqb s "")
  | JArr l => match l with [] => false | _ => true end
  | JObj d => match d with [] => false | _ => true end
  end.

(** [a or b] *)
Definition por (a b : json) : json := if truthy a then a else b.

Fixpoint lookup (k : string) (d : list (string * json)) : option json :=
  match d with
  | [] => None
  | (k', v) :: d' => if String.eqb k' k then Some v else lookup k d'
  end.

(** [d[k] = v] on a dict: an existing key keeps its place. *)
Fixpoint store (k : string) (v : json) (d : list (string * json))
  : list (string * json) :=
  match d with
  | [] => [(k, v)]
  | (k', v') :: d' =>
      if String.eqb k' k then (k', v) :: d' else (k', v') :: store k v d'
  end.

(** [v.get(k, default)] *)
Definition get (v : json) (k : string) (default : json) : result json :=
  match v with
  | JObj d => Ok (match lookup k d with Some x => x | None => default end)
  | _ => Raise AttributeError
  end.

(** [v[k]] with a string key *)
Definition item (v : json) (k : string) : result json :=
  match v with
  | JObj d => match lookup k d with Some x => Ok x | None => Raise KeyError end
  | _ => Raise TypeError
  end.

(** [v[0]] *)
Definition item0 (v : json) : result json :=
  match v with
  | JArr l => match l with x :: _ => Ok x | [] => Raise IndexError end
  | JStr s =>
      match s with
      | String c _ => Ok (JStr (String c EmptyString))
      | EmptyString => Raise IndexError
      end
  | JObj _ => Raise KeyError
  | _ => Raise TypeError
  end.

(** [v[k] = x] with a string key *)
Definition setitem (v : json) (k : string) (x : json) : result json :=
  match v with
  | JObj d => Ok (JObj (store k x d))
  | _ => Raise TypeError
  end.

(** [len(v)] *)
Definition len (v : json) : result Z :=
  match v with
  | JStr s => Ok (Z.of_nat (String.length s))
  | JArr l => Ok (Z.of_nat (List.length l))
  | JObj d => Ok (Z.of_nat (List.length d))
  | _ => Raise TypeError
  end.

Definition is_str (v : json) : bool :=
  match v with JStr _ => true | _ => false end.

(** [k in v] for a string [k] *)
Definition has (k : string) (v : json) : result bool :=
  match v with
  | JObj d => Ok (match lookup k d with Some _ => true | None => false end)
  | JArr l =>
      Ok (existsb (fun x => match x with
                            | JStr s => String.eqb s k
                            | _ => false
                            end) l)
  | JStr s => Ok (contains k s)
  | _ => Raise TypeError
  end.

Fixpoint chars (s : string) : list json :=
  match s with
  | EmptyString => []
  | String c s' => JStr (String c EmptyString) :: chars s'
  end.

(** What [for x in v] runs through. *)
Definition iter (v : json) : result (list json) :=
  match v with
  | JArr l => Ok l
  | JObj d => Ok (map (fun kv => JStr (fst kv)) d)
  | JStr s => Ok (chars s)
  | _ => Raise TypeError
  end.

(** [v.lower()] *)
Definition lower_of (v : json) : result string :=
  match v with
  | JStr s => Ok (lower s)
  | _ => Raise AttributeError
  end.

(** [v.copy()] *)
Definition copy (v : json) : result json :=
  match v with
  | JObj _ | JArr _ => Ok v
  | _ => Raise AttributeError
  end.

(** [v > n] for an integer literal [n]; [bool] is a subclass of [int]. *)
Definition gt (v : json) (n : Z) : result bool :=
  match v with
  | JNum z => Ok (Z.gtb z n)
  | JBool b => Ok (Z.gtb (if b then 1 else 0) n)
  | _ => Raise TypeError
  end.

Definition is_none (v : json) : bool :=
  match v with JNull => true | _ => false end.

(** [v != "N/A"] and the like *)
Definition ne_str (v : json) (s : string) : bool :=
  match v with JStr s' => negb (String.eqb s' s) | _ => true end.

Definition hex_digit (n : nat) : ascii :=
  ascii_of_nat (if Nat.ltb n 10 then 48 + n else 87 + n).

Definition repr_char (q c : ascii) : string :=
  let n := nat_of_ascii c in
  if Ascii.eqb c "092"%char then backslash ++ backslash
  else if Ascii.eqb c q then backslash ++ String q EmptyString
  else if Ascii.eqb c "010"%char then backslash ++ "n"
  else if Ascii.eqb c "013"%char then backslash ++ "r"
  else if Ascii.eqb c "009"%char then backslash ++ "t"
  else if Nat.ltb n 32 || Nat.eqb n 127
       then backslash ++ "x" ++ String (hex_digit (n / 16))
                                 (String (hex_digit (n mod 16)) EmptyString)
  else String c EmptyString.

Fixpoint repr_chars (q : ascii) (s : string) : string :=
  match s with
  | EmptyString => EmptyString
  | String c s' => repr_char q c ++ repr_chars q s'
  end.

(** [repr(s)] of a string: single quotes, unless it holds a single quote
    and no double quote. *)
Definition repr_str (s : string) : string :=
  let q := if contains squote s && negb (contains dquote s)
           then "034"%char else "039"%char in
  String q (repr_chars q s) ++ String q EmptyString.

(** [repr(v)] *)
Fixpoint repr (v : json) : string :=
  match v with
  | JNull => "None"
  | JBool b => if b then "True" else "False"
  | JNum z => of_Z z
  | JStr s => repr_str s
  | JArr l =>
      "[" ++ (fix go (l : list json) : string :=
                match l with
                | [] => ""
                | x :: l' =>
                    repr x ++ match l' with [] => "" | _ => ", " ++ go l' end
                end) l ++ "]"
  | JObj d =>
      "{" ++ (fix go (d : list (string * json)) : string :=
                match d with
                | [] => ""
                | (k, x) :: d' =>
                    repr_str k ++ ": " ++ repr x ++
                    match d' with [] => "" | _ => ", " ++ go d' end
                end) d ++ "}"
  end.

(** [str(v)], which is what an f-string field shows *)
Definition str (v : json) : string :=
  match v with
  | JStr s => s
  | _ => repr v
  end.

End Py.

(* ================================================================= *)
(** ** utils/api_client.py *)

Module ApiClient.
Import PyStr Py.

(** What [response.json()] does when it does not return the parsed body.
    The library raises its own decoding error, which is both a
    [ValueError] and a [RequestException], for a body that is not JSON;
    the decoder can raise another [ValueError] (an integer of more than
    4300 digits); and the look at the body that [_make_request] takes for
    its debug record, [response.json()] followed by [json.dumps] of the
    value, can raise an exception that is no [ValueError] (a
    [RecursionError] on a deeply nested body). *)
Inductive decoding : Type :=
| NotJson (msg : string)
| NotDecoded (msg : string)
| Raises (e : exn).

(** What [requests.get(url, headers, params, timeout=30)] can do: raise
    [Timeout], [ConnectionError] or another [RequestException], or return
    a response.  [body] is what [response.json()] gives, each time it is
    called: the parsed value, one that [json.dumps] writes out for the
    debug record, or what is raised instead. *)
Inductive http_outcome : Type :=
| Timeout
| ConnectionError (msg : string)
| RequestException (msg : string)
| Response (status_code : Z) (text : string) (body : decoding + json).

Definition params := list (string * json).

(** The network, as the client sees it. *)
Definition http := string -> params -> http_outcome.

Definition BASE_URL : string := "https://api-football-v1.p.rapidapi.com/v3".

Definition error_dict (msg : string) : json := JObj [("errors", JStr msg)].

(** The [try] of lines 64 to 68, which decodes the body for the debug
    record and handles [ValueError] only. *)
Definition look_at_body (body : decoding + json) : result unit :=
  match body with
  | inl (Raises e) => Raise e
  | _ => Ok tt
  end.

(** [return response.json()], inside the outer [try]: the decoding error
    of the library is handled as a [RequestException], the handler for
    which comes before the one for [json.JSONDecodeError]; another
    [ValueError] meets no handler. *)
Definition return_body (body : decoding + json) : result json :=
  match body with
  | inr j => Ok j
  | inl (NotJson msg) => Ok (error_dict ("Request failed: " ++ msg))
  | inl (NotDecoded msg) => Raise (ValueError msg)
  | inl (Raises e) => Raise e
  end.

Definition _make_request (requests_get : http) (endpoint : string)
           (ps : params) : result json :=
  let url := BASE_URL ++ "/" ++ endpoint in
  match requests_get url ps with
  | Response status_code text body =>
      _ <- look_at_body body ;;
      if Z.eqb status_code 401 then
        Ok (error_dict "Authentication failed: Invalid API key (status 401)")
      else if Z.eqb status_code 403 then
        Ok (error_dict ("Access denied: " ++ text ++ " (status 403)"))
      else if Z.eqb status_code 429 then
        Ok (error_dict "Rate limit exceeded (status 429)")
      else if negb (Z.eqb status_code 200) then
        Ok (error_dict ("HTTP " ++ of_Z status_code ++ ": " ++ text))
      else return_body body
  | Timeout => Ok (error_dict "Request timeout")
  | ConnectionError msg => Ok (error_dict ("Connection error: " ++ msg))
  | RequestException msg => Ok (error_dict ("Request failed: " ++ msg))
  end.

(** ["errors" in response and isinstance(response["errors"], str)] *)
Definition internal_error (response : json) : result bool :=
  b <- has "errors" response ;;
  if b then e <- item response "errors" ;; Ok (is_str e) else Ok false.

(** [response.get("errors") and len(response["errors"]) > 0] *)
Definition upstream_error (response : json) : result bool :=
  e <- get response "errors" JNull ;;
  if truthy e
  then e' <- item response "errors" ;; n <- len e' ;; Ok (Z.gtb n 0)
  else Ok false.

(** The test of the loop of [find_fixture], on lowered names. *)
Definition teams_match (team1_lower team2_lower home_team away_team : string)
  : bool :=
  (contains team1_lower home_team && contains team2_lower away_team)
  || (contains team1_lower away_team && contains team2_lower home_team).

(** The [for fixture in fixtures] loop of [find_fixture]. *)
Fixpoint scan_fixtures (team1 team2 : string) (fixtures : list json)
  : result (option json) :=
  match fixtures with
  | [] => Ok None
  | fixture :: rest =>
      t <- get fixture "teams" JNull ;;
      if negb (truthy t) then scan_fixtures team1 team2 rest
      else
        teams <- item fixture "teams" ;;
        home <- item teams "home" ;;
        home_name <- item home "name" ;;
        home_team <- lower_of home_name ;;
        teams' <- item fixture "teams" ;;
        away <- item teams' "away" ;;
        away_name <- item away "name" ;;
        away_team <- lower_of away_name ;;
        let team1_lower := lower team1 in
        let team2_lower := lower team2 in
        if teams_match team1_lower team2_lower home_team away_team
        then Ok (Some fixture)
        else scan_fixtures team1 team2 rest
  end.

Definition find_fixture (requests_get : http) (team1 team2 date : string)
  : result (option json) :=
  response <- _make_request requests_get "fixtures" [("date", JStr date)] ;;
  ie <- internal_error response ;;
  if ie then Ok None
  else
    ue <- upstream_error response ;;
    if ue then Ok None
    else
      fixtures <- get response "response" (JArr []) ;;
      items <- iter fixtures ;;
      scan_fixtures team1 team2 items.

Definition get_player_stats (requests_get : http) (fixture_id : Z)
  : result json :=
  response <-
    _make_request requests_get "fixtures/players"
                  [("fixture", JNum fixture_id)] ;;
  ie <- internal_error response ;;
  if ie then Ok (JArr [])
  else
    ue <- upstream_error response ;;
    if ue then Ok (JArr [])
    else
      stats <- get response "response" (JArr []) ;;
      if negb (truthy stats) then Ok (JArr [])
      else
        (* the closing log record shows [len(stats)] *)
        _ <- len stats ;;
        Ok stats.

End ApiClient.

(* ================================================================= *)
(** ** tools/football_tools.py *)

Module Tools.
Import PyStr Py ApiClient.

(** The language model: [llm.invoke(prompt).content], or an exception. *)
Definition model := string -> result string.

(** What a tool returns: a text, or, from its [except Exception as e]
    branch, a fixed prefix followed by [str(e)]; the wording of an
    exception's message is not modelled. *)
Inductive answer : Type :=
| Text (s : string)
| ErrorText (prefix : string) (e : exn).

(** *** [_create_player_summary] *)

(** The paragraph of one player, appended to [summary]. *)
Definition player_paragraph (summary : string) (player : json)
  : result string :=
  player_info <- item player "player" ;;
  has_stats <- get player "statistics" JNull ;;
  stats <- (if truthy has_stats
            then l <- item player "statistics" ;; item0 l
            else Ok (JObj [])) ;;
  games <- get stats "games" (JObj []) ;;
  goals_stats <- get stats "goals" (JObj []) ;;
  passes_stats <- get stats "passes" (JObj []) ;;
  tackles_stats <- get stats "tackles" (JObj []) ;;
  duels_stats <- get stats "duels" (JObj []) ;;
  shots_stats <- get stats "shots" (JObj []) ;;
  cards_stats <- get stats "cards" (JObj []) ;;
  minutes0 <- get games "minutes" JNull ;;
  let minutes := por minutes0 (JNum 0) in
  position0 <- get games "position" JNull ;;
  let position := por position0 (JStr "Unknown") in
  rating0 <- get games "rating" JNull ;;
  let rating := por rating0 (JStr "N/A") in
  goals0 <- get goals_stats "total" JNull ;;
  let goals := por goals0 (JNum 0) in
  assists0 <- get goals_stats "assists" JNull ;;
  let assists := por assists0 (JNum 0) in
  saves0 <- get goals_stats "saves" JNull ;;
  let saves := por saves0 (JNum 0) in
  shots_total0 <- get shots_stats "total" JNull ;;
  let shots_total := por shots_total0 (JNum 0) in
  shots_on0 <- get shots_stats "on" JNull ;;
  let shots_on_target := por shots_on0 (JNum 0) in
  passes_total0 <- get passes_stats "total" JNull ;;
  let passes_total := por passes_total0 (JNum 0) in
  passes_accuracy <- get passes_stats "accuracy" JNull ;;
  key_passes0 <- get passes_stats "key" JNull ;;
  let key_passes := por key_passes0 (JNum 0) in
  tackles_total0 <- get tackles_stats "total" JNull ;;
  let tackles_total := por tackles_total0 (JNum 0) in
  interceptions0 <- get tackles_stats "interceptions" JNull ;;
  let interceptions := por interceptions0 (JNum 0) in
  duels_total0 <- get duels_stats "total" JNull ;;
  let duels_total := por duels_total0 (JNum 0) in
  duels_won0 <- get duels_stats "won" JNull ;;
  let duels_won := por duels_won0 (JNum 0) in
  yellow0 <- get cards_stats "yellow" JNull ;;
  let yellow_cards := por yellow0 (JNum 0) in
  red0 <- get cards_stats "red" JNull ;;
  let red_cards := por red0 (JNum 0) in
  name <- item player_info "name" ;;
  let summary :=
    summary ++ "• " ++ str name ++ " (" ++ str position ++ ") - "
            ++ str minutes ++ "min" in
  let summary :=
    if ne_str rating "N/A" then summary ++ ", Rating: " ++ str rating
    else summary in
  has_goals <- gt goals 0 ;;
  let summary :=
    if has_goals then summary ++ ", Goals: " ++ str goals else summary in
  has_assists <- gt assists 0 ;;
  let summary :=
    if has_assists then summary ++ ", Assists: " ++ str assists else summary in
  has_saves <- gt saves 0 ;;
  let summary :=
    if has_saves then summary ++ ", Saves: " ++ str saves else summary in
  let summary := summary ++ nl in
  has_shots <- gt shots_total 0 ;;
  has_passes <- (if has_shots then Ok true else gt passes_total 0) ;;
  summary <-
    (if has_passes then
       let summary :=
         summary ++ "  📊 Attack: " ++ str shots_total ++ " shots ("
                 ++ str shots_on_target ++ " on target), "
                 ++ str passes_total ++ " passes" in
       let summary :=
         if negb (is_none passes_accuracy)
         then summary ++ " (" ++ str passes_accuracy ++ "% acc)"
         else summary in
       has_key <- gt key_passes 0 ;;
       let summary :=
         if has_key then summary ++ ", " ++ str key_passes ++ " key passes"
         else summary in
       Ok (summary ++ nl)
     else Ok summary) ;;
  has_tackles <- gt tackles_total 0 ;;
  has_inter <- (if has_tackles then Ok true else gt interceptions 0) ;;
  has_defense <- (if has_inter then Ok true else gt duels_total 0) ;;
  summary <-
    (if has_defense then
       let summary :=
         summary ++ "  🛡️ Defense: " ++ str tackles_total ++ " tackles, "
                 ++ str interceptions ++ " interceptions" in
       has_duels <- gt duels_total 0 ;;
       let summary :=
         if has_duels
         then summary ++ ", " ++ str duels_won ++ "/" ++ str duels_total
                      ++ " duels won"
         else summary in
       Ok (summary ++ nl)
     else Ok summary) ;;
  has_yellow <- gt yellow_cards 0 ;;
  has_cards <- (if has_yellow then Ok true else gt red_cards 0) ;;
  let summary :=
    if has_cards
    then summary ++ "  🟨 Cards: " ++ str yellow_cards ++ " yellow, "
                 ++ str red_cards ++ " red" ++ nl
    else summary in
  Ok (summary ++ nl).

(** [for player in team.get("players", [])] *)
Fixpoint players_paragraphs (summary : string) (players : list json)
  : result string :=
  match players with
  | [] => Ok summary
  | player :: rest =>
      summary' <- player_paragraph summary player ;;
      players_paragraphs summary' rest
  end.

(** [for team in stats_data] *)
Fixpoint teams_paragraphs (summary : string) (teams : list json)
  : result string :=
  match teams with
  | [] => Ok summary
  | team :: rest =>
      t <- item team "team" ;;
      team_name <- item t "name" ;;
      let summary := summary ++ nl ++ "=== " ++ str team_name ++ " ===" ++ nl in
      ps <- get team "players" (JArr []) ;;
      players <- iter ps ;;
      summary' <- players_paragraphs summary players ;;
      teams_paragraphs summary' rest
  end.

Definition _create_player_summary (stats_data : list json) : result string :=
  teams_paragraphs "" stats_data.

(** *** The minutes filter of [determine_mvp] *)

(** [played_minutes], as it stands when the filter tests it. *)
Definition played_minutes (player : json) : result json :=
  s <- get player "statistics" JNull ;;
  has_stats <- (if truthy s
                then l <- item player "statistics" ;; n <- len l ;;
                     Ok (Z.gtb n 0)
                else Ok false) ;;
  if has_stats then
    l <- item player "statistics" ;;
    first <- item0 l ;;
    games <- get first "games" (JObj []) ;;
    minutes <- get games "minutes" JNull ;;
    positive <- (if is_none minutes then Ok false else gt minutes 0) ;;
    Ok (if positive then minutes else JNum 0)
  else Ok (JNum 0).

(** The loop state: the list being built and the two counters. *)
Definition counters := (Z * Z)%type.

(** [for player in team.get("players", [])], on
    [(filtered_players_list, (total_players, filtered_players))]. *)
Fixpoint filter_players (players : list json)
         (st : list json * counters) : result (list json * counters) :=
  match players with
  | [] => Ok st
  | player :: rest =>
      let '(filtered_players_list, (total_players, filtered_players)) := st in
      let total_players := (total_players + 1)%Z in
      pm <- played_minutes player ;;
      keep <- gt pm 5 ;;
      if keep
      then filter_players rest
             ((filtered_players_list ++ [player])%list,
              (total_players, (filtered_players + 1)%Z))
      else filter_players rest
             (filtered_players_list, (total_players, filtered_players))
  end.

(** [for team in stats_data], on
    [(filtered_stats, (total_players, filtered_players))]. *)
Fixpoint filter_teams (teams : list json)
         (st : list json * counters) : result (list json * counters) :=
  match teams with
  | [] => Ok st
  | team :: rest =>
      let '(filtered_stats, cnt) := st in
      team_copy <- copy team ;;
      ps <- get team "players" (JArr []) ;;
      players <- iter ps ;;
      r <- filter_players players ([], cnt) ;;
      let '(filtered_players_list, cnt') := r in
      team_copy' <- setitem team_copy "players" (JArr filtered_players_list) ;;
      filter_teams rest ((filtered_stats ++ [team_copy'])%list, cnt')
  end.

(** *** [determine_mvp] *)

Definition indent : string := "            ".

Definition prompt (summary : string) : string :=
  nl
  ++ indent ++ "Based on the following player statistics summary from a football match, determine who was the Most Valuable Player (MVP) and explain why." ++ nl
  ++ indent ++ nl
  ++ indent ++ "Note: Only players who played more than 5 minutes are included in this analysis." ++ nl
  ++ indent ++ nl
  ++ indent ++ summary ++ nl
  ++ indent ++ nl
  ++ indent ++ "Analyze key metrics such as:" ++ nl
  ++ indent ++ "- Goals and assists (most important)" ++ nl
  ++ indent ++ "- Overall rating" ++ nl
  ++ indent ++ "- Passing accuracy and key passes  " ++ nl
  ++ indent ++ "- Defensive actions (tackles, interceptions, blocks)" ++ nl
  ++ indent ++ "- Goalkeeper saves (if applicable)" ++ nl
  ++ indent ++ "- Minutes played and impact on the game" ++ nl
  ++ indent ++ nl
  ++ indent ++ "Choose ONE player as MVP and provide a detailed explanation focusing on their most impactful contributions." ++ nl
  ++ indent ++ "Format your response as: " ++ dquote ++ "MVP: [Player Name] - [Detailed explanation of why they deserve MVP]" ++ dquote ++ nl
  ++ indent.

(** The closing line of the answer. *)
Definition analysis_line (filtered_players total_players : Z) : string :=
  "📊 Analysis based on " ++ of_Z filtered_players
  ++ " players (filtered out " ++ of_Z (total_players - filtered_players)
  ++ " who played ≤5 minutes)".

(** The body of the [try] block. *)
Definition determine_mvp_body (requests_get : http) (llm : model)
           (fixture_id : Z) : result string :=
  stats_data <- get_player_stats requests_get fixture_id ;;
  if negb (truthy stats_data)
  then Ok ("No player statistics found for fixture " ++ of_Z fixture_id)
  else
    teams <- iter stats_data ;;
    r <- filter_teams teams ([], (0, 0)%Z) ;;
    let '(filtered_stats, (total_players, filtered_players)) := r in
    summary <- _create_player_summary filtered_stats ;;
    response_text <- llm (prompt summary) ;;
    Ok (response_text ++ nl ++ nl
        ++ analysis_line filtered_players total_players).

Definition determine_mvp (requests_get : http) (llm : model)
           (fixture_id : Z) : answer :=
  match determine_mvp_body requests_get llm fixture_id with
  | Ok s => Text s
  | Raise e => ErrorText "Error analyzing MVP: " e
  end.

End Tools.

(* ================================================================= *)
(** ** main.py: the interaction loop *)

Module Main.
Import PyStr Py InputParser.

(** One call of [input()]: a line, or [KeyboardInterrupt].  The console
    is the list of the calls that find something; once it is used up the
    input is at its end and every further [input()] raises [EOFError]. *)
Inductive read : Type :=
| Line (s : string)
| Interrupt.

(** [agent_executor.invoke] followed by the extraction of the content of
    the last message: a text, an exception, or [KeyboardInterrupt]. *)
Inductive agent_outcome : Type :=
| Answer (content : string)
| AgentRaises (e : exn)
| AgentInterrupted.

Definition agent := string -> agent_outcome.

(** What an iteration shows; [LogError p e] is the record [p ++ str(e)]. *)
Inductive shown : Type :=
| Print (s : string)
| LogInfo (s : string)
| LogError (prefix : string) (e : exn).

Inductive control : Type :=
| Continue
| Break.

Definition input_prompt : string :=
  nl ++ "Enter match details (or 'exit' to quit): ".

Definition exit_words : list string := ["exit"; "quit"; "q"].

(** [x in l] on a list of strings *)
Definition among (x : string) (l : list string) : bool :=
  existsb (String.eqb x) l.

Definition indent : string := "            ".

Definition query (team1 team2 date : string) : string :=
  strip
    (nl
     ++ indent ++ "Find the MVP for the football match between " ++ team1
               ++ " and " ++ team2 ++ " on " ++ date ++ ". " ++ nl
     ++ indent ++ nl
     ++ indent ++ "Please follow these steps:" ++ nl
     ++ indent ++ "1. First, validate if this match exists using the validate_match tool" ++ nl
     ++ indent ++ "2. If the match exists, fetch the player statistics using fetch_match_stats tool" ++ nl
     ++ indent ++ "3. Finally, analyze the statistics and determine the MVP using determine_mvp tool" ++ nl
     ++ indent ++ nl
     ++ indent ++ "Provide a detailed analysis of why the chosen player deserves to be the MVP." ++ nl
     ++ indent).

(** The [except Exception as e] handler. *)
Definition on_exception (e : exn) : control * list shown :=
  (Continue, [LogError "An error occurred: " e;
              Print "❌ An error occurred. Please try again."]).

(** The [except KeyboardInterrupt] handler. *)
Definition on_interrupt : control * list shown :=
  (Break, [LogInfo (nl ++ "👋 Goodbye!")]).

(** The body of [while True], given what [input()] does: [None] is the
    end of the input. *)
Definition iteration (run_agent : agent) (r : option read)
  : control * list shown :=
  match r with
  | None => on_exception EOFError
  | Some Interrupt => on_interrupt
  | Some (Line typed) =>
      let user_input := strip typed in
      if among (lower user_input) exit_words
      then (Break, [LogInfo "👋 Goodbye!"])
      else if String.eqb user_input "" then (Continue, [])
      else
        match parse_user_input user_input with
        | None =>
            (Continue,
             [Print "❌ Invalid format. Please use: 'Team1 vs Team2 on YYYY-MM-DD'"])
        | Some (team1, team2, date) =>
            match run_agent (query team1 team2 date) with
            | Answer content =>
                (Continue, [Print (nl ++ "🏆 Result:" ++ nl ++ content)])
            | AgentRaises e => on_exception e
            | AgentInterrupted => on_interrupt
            end
        end
  end.

Inductive run_state : Type :=
| Terminated (out : list shown)
| Running (console : list read) (out : list shown).

(** [n] turns of the loop; every turn starts with the prompt of
    [input()]. *)
Fixpoint main_loop (n : nat) (run_agent : agent) (console : list read)
         (out : list shown) : run_state :=
  match n with
  | O => Running console out
  | S n' =>
      let r := match console with [] => None | x :: _ => Some x end in
      let rest := match console with [] => [] | _ :: l => l end in
      let '(c, shown_now) := iteration run_agent r in
      let out' := (out ++ Print input_prompt :: shown_now)%list in
      match c with
      | Break => Terminated out'
      | Continue => main_loop n' run_agent rest out'
      end
  end.

End Main.

(* ================================================================= *)
(** ** The vocabulary of the statements *)

Module Grammar.
Import PyStr Re.

Fixpoint all_chars (p : ascii -> bool) (s : string) : bool :=
  match s with
  | EmptyString => true
  | String c s' => p c && all_chars p s'
  end.

Definition nonempty (s : string) : bool :=
  match s with EmptyString => false | _ => true end.

(** A run of one or more whitespace characters. *)
Definition blank (w : string) : bool := nonempty w && all_chars isspace w.

(** The separator words the pattern lists. *)
Definition versus_words : list string := ["vs"; "VS"; "v"; "V"].
Definition on_words : list string := ["on"; "ON"].

(** [YYYY-MM-DD], digits only, no calendar. *)
Definition is_date (d : string) : bool :=
  match d with
  | String y1 (String y2 (String y3 (String y4 (String h1
    (String m1 (String m2 (String h2 (String d1 (String d2 EmptyString))))))))) =>
      isdigit y1 && isdigit y2 && isdigit y3 && isdigit y4
      && Ascii.eqb h1 "-"
      && isdigit m1 && isdigit m2
      && Ascii.eqb h2 "-"
      && isdigit d1 && isdigit d2
  | _ => false
  end.

(** The rest of [s] after its prefix [w], if [w] is one. *)
Fixpoint after (w s : string) : option string :=
  match w with
  | EmptyString => Some s
  | String c w' =>
      match s with
      | String c' s' => if Ascii.eqb c' c then after w' s' else None
      | EmptyString => None
      end
  end.

(** A word ends at whitespace or at the end of the text. *)
Definition boundary (s : string) : bool :=
  match s with
  | EmptyString => true
  | String c _ => isspace c
  end.

Definition starts_word (words : list string) (s : string) : bool :=
  existsb (fun w => match after w s with
                    | Some r => boundary r
                    | None => false
                    end) words.

(** [s] holds one of [words] as a word of its own after whitespace. *)
Fixpoint mentions (words : list string) (s : string) : bool :=
  match s with
  | EmptyString => false
  | String c s' => (isspace c && starts_word words s') || mentions words s'
  end.

(** A team name as typed: no line feed, and not only whitespace. *)
Definition team_name (g : string) : bool :=
  all_chars dot g && nonempty (strip g).

(** Where a run of [p] cannot go on: at the end, or before a character
    outside [p]. *)
Definition stops (p : ascii -> bool) (z : string) : bool :=
  match z with
  | EmptyString => true
  | String c _ => negb (p c)
  end.

(** An ordered alternation of literal words, as the matcher runs it. *)
Fixpoint try_words {A : Type} (words : list string) (s : string)
         (k : string -> option A) : option A :=
  match words with
  | [] => None
  | w :: words' =>
      match match after w s with Some r => k r | None => None end with
      | Some x => Some x
      | None => try_words words' s k
      end
  end.

(** A word: one or more characters, none of them whitespace. *)
Definition wordlike (w : string) : bool :=
  nonempty w && all_chars (fun c => negb (isspace c)) w.

Definition first_nonspace (s : string) : bool :=
  match s with
  | EmptyString => false
  | String c _ => negb (isspace c)
  end.

Fixpoint last_nonspace (s : string) : bool :=
  match s with
  | EmptyString => false
  | String c s' =>
      match s' with
      | EmptyString => negb (isspace c)
      | _ => last_nonspace s'
      end
  end.

(** A trimmed team name on one line. *)
Definition tight (t : string) : bool :=
  all_chars dot t && first_nonspace t && last_nonspace t.

(** The sentence the parser is made for. *)
Definition sentence (g1 w1 sep w2 g2 w3 on w4 d rest : string) : string :=
  g1 ++ w1 ++ sep ++ w2 ++ g2 ++ w3 ++ on ++ w4 ++ d ++ rest.

End Grammar.


(* ================================================================= *)
(** ** The words of the statements, spelled out on their own

    The character classes and the operations on text that the statements
    speak of, defined without the functions of the program.  The
    statements are about ASCII text: there the classes of Python
    ([str.isspace], [\s], [\d], [str.lower]) are these. *)

Module Wording.
Import Grammar.

(** A character of ASCII. *)
Definition ascii_char (c : ascii) : bool := Nat.ltb (nat_of_ascii c) 128.

Definition ascii_text (s : string) : bool := all_chars ascii_char s.

(** The whitespace of ASCII: TAB, LF, VT, FF, CR, FS, GS, RS, US and the
    space. *)
Definition whitespace (c : ascii) : bool :=
  existsb (Ascii.eqb c)
    ["009"; "010"; "011"; "012"; "013"; "028"; "029"; "030"; "031"; " "]%char.

Definition digit (c : ascii) : bool :=
  existsb (Ascii.eqb c) ["0"; "1"; "2"; "3"; "4"; "5"; "6"; "7"; "8"; "9"]%char.

Definition line_feed (c : ascii) : bool := Ascii.eqb c "010"%char.

(** One or more whitespace characters. *)
Definition gap (w : string) : bool := nonempty w && all_chars whitespace w.

(** Text without a line feed. *)
Definition one_line (g : string) : bool :=
  all_chars (fun c => negb (line_feed c)) g.

(** A team name as typed: on one line, and not whitespace only. *)
Definition name_text (g : string) : bool :=
  one_line g && negb (all_chars whitespace g).

(** Four digits, a hyphen, two digits, a hyphen, two digits. *)
Definition date_text (d : string) : bool :=
  match list_ascii_of_string d with
  | [y1; y2; y3; y4; h1; m1; m2; h2; d1; d2] =>
      forallb digit [y1; y2; y3; y4; m1; m2; d1; d2]
      && Ascii.eqb h1 "-" && Ascii.eqb h2 "-"
  | _ => false
  end.

Fixpoint skip_whitespace (s : string) : string :=
  match s with
  | String c s' => if whitespace c then skip_whitespace s' else s
  | EmptyString => EmptyString
  end.

Fixpoint reverse (s : string) : string :=
  match s with
  | EmptyString => EmptyString
  | String c s' => reverse s' ++ String c EmptyString
  end.

(** [s] without the whitespace at its two ends. *)
Definition trim (s : string) : string :=
  reverse (skip_whitespace (reverse (skip_whitespace s))).

(** [s] without its first [n] characters. *)
Fixpoint without_first (n : nat) (s : string) : string :=
  match n, s with
  | S n', String _ s' => without_first n' s'
  | _, _ => s
  end.

(** [w] stands at the start of [s] and ends there as a word: at the end
    of [s], or before whitespace. *)
Definition word_at_start (w s : string) : bool :=
  String.prefix w s
  && match without_first (String.length w) s with
     | EmptyString => true
     | String c _ => whitespace c
     end.

(** [s] holds one of [words] as a word of its own, after whitespace. *)
Fixpoint holds_word (words : list string) (s : string) : bool :=
  match s with
  | EmptyString => false
  | String c s' =>
      (whitespace c && existsb (fun w => word_at_start w s') words)
      || holds_word words s'
  end.

Definition capitals : string := "ABCDEFGHIJKLMNOPQRSTUVWXYZ".
Definition small_letters : string := "abcdefghijklmnopqrstuvwxyz".

(** The small letter of a capital of the alphabet; any other character
    is left as it is. *)
Fixpoint small_of (capitals small_letters : string) (c : ascii) : ascii :=
  match capitals, small_letters with
  | String u capitals', String l small_letters' =>
      if Ascii.eqb c u then l else small_of capitals' small_letters' c
  | _, _ => c
  end.

(** The same character, but for the case of a letter. *)
Definition same_letter (a b : ascii) : bool :=
  Ascii.eqb (small_of capitals small_letters a)
            (small_of capitals small_letters b).

(** [a] stands at the start of [s], whatever the case of the letters. *)
Fixpoint starts_with (a s : string) : bool :=
  match a with
  | EmptyString => true
  | String x a' =>
      match s with
      | String y s' => same_letter x y && starts_with a' s'
      | EmptyString => false
      end
  end.

(** [a] is a part of [s], whatever the case of the letters. *)
Fixpoint occurs (a s : string) : bool :=
  starts_with a s
  || match s with
     | EmptyString => false
     | String _ s' => occurs a s'
     end.

(** The same text, whatever the case of the letters. *)
Definition same_word (a b : string) : bool :=
  Nat.eqb (String.length a) (String.length b) && starts_with a b.

End Wording.

(* ================================================================= *)
(** ** The vocabulary of the statements about the client and the tools *)

Module Contract.
Import PyStr Py ApiClient Tools.

(** The failures of a request that the client handles: no response at
    all; a status other than 200, or a 200 whose body is not JSON or
    whose JSON object reports errors in a non-empty array, provided that
    the body can be looked at: decoding it raises nothing but a
    [ValueError], and nothing at all when the status is 200 and the body
    is JSON. *)
Definition failed (o : http_outcome) : bool :=
  match o with
  | Timeout | ConnectionError _ | RequestException _ => true
  | Response status_code _ body =>
      match body with
      | inl (Raises _) => false
      | inl (NotDecoded _) => negb (Z.eqb status_code 200)
      | inl (NotJson _) => true
      | inr j =>
          negb (Z.eqb status_code 200)
          || match j with
             | JObj d =>
                 match lookup "errors" d with
                 | Some (JArr (_ :: _)) => true
                 | _ => false
                 end
             | _ => false
             end
      end
  end.

(** An envelope that reports no error: no ["errors"] entry, or an empty
    one that is not this client's own string. *)
Definition quiet (d : list (string * json)) : bool :=
  match lookup "errors" d with
  | None => true
  | Some e => negb (truthy e) && negb (is_str e)
  end.

(** The home and away names of a fixture that carries them. *)
Definition fixture_teams (f : json) : option (string * string) :=
  match f with
  | JObj d =>
      match lookup "teams" d with
      | Some (JObj t) =>
          match lookup "home" t, lookup "away" t with
          | Some (JObj h), Some (JObj a) =>
              match lookup "name" h, lookup "name" a with
              | Some (JStr hn), Some (JStr an) => Some (hn, an)
              | _, _ => None
              end
          | _, _ => None
          end
      | _ => None
      end
  | _ => None
  end.

(** A fixture without team data, which the search passes over. *)
Definition teamless (f : json) : bool :=
  match f with
  | JObj d =>
      match lookup "teams" d with
      | None => true
      | Some t => negb (truthy t)
      end
  | _ => false
  end.

Definition well_formed (f : json) : bool :=
  teamless f || match fixture_teams f with Some _ => true | None => false end.

(** [team1] and [team2] are case-insensitive substrings of the home and
    away names of [f], one each, in either assignment. *)
Definition matches (team1 team2 : string) (f : json) : bool :=
  match fixture_teams f with
  | Some (hn, an) =>
      (Wording.occurs team1 hn && Wording.occurs team2 an)
      || (Wording.occurs team1 an && Wording.occurs team2 hn)
  | None => false
  end.

(** The two names of [f], if it carries them, are ASCII text. *)
Definition ascii_named (f : json) : bool :=
  match fixture_teams f with
  | Some (hn, an) => Wording.ascii_text hn && Wording.ascii_text an
  | None => true
  end.

(** The players of a team entry, as [team.get("players", [])] is run
    through. *)
Definition roster (team : json) : result (list json) :=
  ps <- get team "players" (JArr []) ;; iter ps.

(** The minutes a player's first statistics entry records as a number. *)
Definition minutes_of (player : json) : option Z :=
  match player with
  | JObj d =>
      match lookup "statistics" d with
      | Some (JArr (JObj s :: _)) =>
          match lookup "games" s with
          | Some (JObj g) =>
              match lookup "minutes" g with
              | Some (JNum m) => Some m
              | _ => None
              end
          | _ => None
          end
      | _ => None
      end
  | _ => None
  end.

(** More than five minutes played. *)
Definition keeps (player : json) : bool :=
  match minutes_of player with
  | Some m => Z.gtb m 5
  | None => false
  end.

(** What the filter makes of one team entry: the same players, less
    those that [keeps] rejects. *)
Definition filtered_from (team team' : json) : Prop :=
  exists players,
    roster team = Ok players /\ roster team' = Ok (filter keeps players).

(** The number of players of a list of team entries. *)
Fixpoint head_count (teams : list json) : Z :=
  match teams with
  | [] => 0
  | team :: rest =>
      (match roster team with
       | Ok ps => Z.of_nat (List.length ps)
       | Raise _ => 0
       end + head_count rest)%Z
  end.

End Contract.

Module LoopContract.
Import PyStr InputParser Main.

(** A typed line that is, between whitespace and in any case of its
    letters, one of the words exit, quit and q. *)
Definition exit_keyword (typed : string) : bool :=
  existsb (Wording.same_word (Wording.trim typed)) ["exit"; "quit"; "q"].

(** A typed line that the parser accepts and whose query is interrupted
    while the agent runs. *)
Definition interrupted_query (run_agent : agent) (typed : string) : bool :=
  match parse_user_input typed with
  | Some (team1, team2, date) =>
      match run_agent (query team1 team2 date) with
      | AgentInterrupted => true
      | _ => false
      end
  | None => false
  end.

(** What ends the loop: an exit keyword, or a keyboard interrupt at the
    prompt or during the query. *)
Definition stop_request (run_agent : agent) (r : read) : bool :=
  match r with
  | Interrupt => true
  | Line typed => exit_keyword typed || interrupted_query run_agent typed
  end.

Definition terminated (s : run_state) : bool :=
  match s with Terminated _ => true | Running _ _ => false end.

(** What is read is ASCII text. *)
Definition ascii_read (r : read) : bool :=
  match r with
  | Line typed => Wording.ascii_text typed
  | Interrupt => true
  end.

End LoopContract.

(* ================================================================= *)
(** ** The digest entry of a player, as the specification words it *)

Module DigestRules.
Import PyStr Py.

(** The statistics of one player in one match.  The rating and the
    passing accuracy may be missing; the other numbers are counts. *)
Record player_stats : Type := {
  name : string;
  position : string;
  minutes : Z;
  rating : option Z;
  goals : Z;
  assists : Z;
  saves : Z;
  shots_total : Z;
  shots_on_target : Z;
  passes_total : Z;
  passes_accuracy : option Z;
  key_passes : Z;
  tackles_total : Z;
  interceptions : Z;
  duels_total : Z;
  duels_won : Z;
  yellow_cards : Z;
  red_cards : Z
}.

Definition optional (v : option Z) : json :=
  match v with Some z => JNum z | None => JNull end.

(** The entry of the statistics payload that carries [p], in the shape
    [_create_player_summary] reads. *)
Definition payload (p : player_stats) : json :=
  JObj
    [("player", JObj [("name", JStr (name p))]);
     ("statistics",
      JArr
        [JObj
           [("games", JObj [("minutes", JNum (minutes p));
                            ("position", JStr (position p));
                            ("rating", optional (rating p))]);
            ("goals", JObj [("total", JNum (goals p));
                            ("assists", JNum (assists p));
                            ("saves", JNum (saves p))]);
            ("shots", JObj [("total", JNum (shots_total p));
                            ("on", JNum (shots_on_target p))]);
            ("passes", JObj [("total", JNum (passes_total p));
                             ("accuracy", optional (passes_accuracy p));
                             ("key", JNum (key_passes p))]);
            ("tackles", JObj [("total", JNum (tackles_total p));
                              ("interceptions", JNum (interceptions p))]);
            ("duels", JObj [("total", JNum (duels_total p));
                            ("won", JNum (duels_won p))]);
            ("cards", JObj [("yellow", JNum (yellow_cards p));
                            ("red", JNum (red_cards p))])]])].

(** A clause that is there only under a condition. *)
Definition clause (present : bool) (text : string) : string :=
  if present then text else "".

Definition positive (z : Z) : bool := Z.gtb z 0.

(** Always the name, the position and the minutes; the rating if there
    is one; goals, assists and saves if positive. *)
Definition head_line (p : player_stats) : string :=
  "• " ++ name p ++ " (" ++ position p ++ ") - " ++ of_Z (minutes p) ++ "min"
  ++ match rating p with
     | Some r => ", Rating: " ++ of_Z r
     | None => ""
     end
  ++ clause (positive (goals p)) (", Goals: " ++ of_Z (goals p))
  ++ clause (positive (assists p)) (", Assists: " ++ of_Z (assists p))
  ++ clause (positive (saves p)) (", Saves: " ++ of_Z (saves p))
  ++ nl.

(** With a shot or a pass: shots, passes, the accuracy if there is one,
    key passes if positive. *)
Definition attack_line (p : player_stats) : string :=
  clause (positive (shots_total p) || positive (passes_total p))
    ("  📊 Attack: " ++ of_Z (shots_total p) ++ " shots ("
     ++ of_Z (shots_on_target p) ++ " on target), "
     ++ of_Z (passes_total p) ++ " passes"
     ++ match passes_accuracy p with
        | Some a => " (" ++ of_Z a ++ "% acc)"
        | None => ""
        end
     ++ clause (positive (key_passes p))
          (", " ++ of_Z (key_passes p) ++ " key passes")
     ++ nl).

(** With a tackle, an interception or a duel: tackles, interceptions,
    and duels won out of the total if there was a duel. *)
Definition defense_line (p : player_stats) : string :=
  clause (positive (tackles_total p) || positive (interceptions p)
          || positive (duels_total p))
    ("  🛡️ Defense: " ++ of_Z (tackles_total p) ++ " tackles, "
     ++ of_Z (interceptions p) ++ " interceptions"
     ++ clause (positive (duels_total p))
          (", " ++ of_Z (duels_won p) ++ "/" ++ of_Z (duels_total p)
           ++ " duels won")
     ++ nl).

(** With a card: the yellow and the red cards. *)
Definition cards_line (p : player_stats) : string :=
  clause (positive (yellow_cards p) || positive (red_cards p))
    ("  🟨 Cards: " ++ of_Z (yellow_cards p) ++ " yellow, "
     ++ of_Z (red_cards p) ++ " red" ++ nl).

Definition entry (p : player_stats) : string :=
  head_line p ++ attack_line p ++ defense_line p ++ cards_line p ++ nl.

(** A rating that is there and is zero. *)
Definition zero_rated (p : player_stats) : bool :=
  match rating p with Some r => Z.eqb r 0 | None => false end.

(** [p] with its rating taken away. *)
Definition unrated (p : player_stats) : player_stats :=
  {| name := name p; position := position p; minutes := minutes p;
     rating := None;
     goals := goals p; assists := assists p; saves := saves p;
     shots_total := shots_total p; shots_on_target := shots_on_target p;
     passes_total := passes_total p; passes_accuracy := passes_accuracy p;
     key_passes := key_passes p;
     tackles_total := tackles_total p; interceptions := interceptions p;
     duels_total := duels_total p; duels_won := duels_won p;
     yellow_cards := yellow_cards p; red_cards := red_cards p |}.

(** What the paragraph of [p] shows: [p], less a rating of zero. *)
Definition shown (p : player_stats) : player_stats :=
  if zero_rated p then unrated p else p.

(** One team of a fixture: its name and its players, in the order
    received. *)
Record team_stats : Type := {
  club : string;
  squad : list player_stats
}.

(** The entry of the statistics payload that carries [t]. *)
Definition team_payload (t : team_stats) : json :=
  JObj [("team", JObj [("name", JStr (club t))]);
        ("players", JArr (map payload (squad t)))].

(** More than five minutes on the pitch. *)
Definition played (p : player_stats) : bool := Z.gtb (minutes p) 5.

(** The team, less the players that did not play. *)
Definition retained (t : team_stats) : team_stats :=
  {| club := club t; squad := filter played (squad t) |}.

Fixpoint entries (ps : list player_stats) : string :=
  match ps with
  | [] => ""
  | p :: rest => entry (shown p) ++ entries rest
  end.

(** The digest: team by team, a heading and one paragraph per player,
    in the order received. *)
Fixpoint digest (teams : list team_stats) : string :=
  match teams with
  | [] => ""
  | t :: rest =>
      nl ++ "=== " ++ club t ++ " ===" ++ nl ++ entries (squad t) ++ digest rest
  end.

Fixpoint players_in (teams : list team_stats) : Z :=
  match teams with
  | [] => 0
  | t :: rest => (Z.of_nat (List.length (squad t)) + players_in rest)%Z
  end.

(** Every player has a position. *)
Definition positioned (t : team_stats) : bool :=
  forallb (fun p => negb (String.eqb (position p) "")) (squad t).

End DigestRules.

(* ================================================================= *)
(** ** Sample data *)

Module Sample.
Import PyStr Py ApiClient Tools.

Definition fixture (id : Z) (home away : string) : json :=
  JObj [("fixture", JObj [("id", JNum id); ("date", JStr "2023-10-28T14:15:00+00:00")]);
        ("teams", JObj [("home", JObj [("name", JStr home)]);
                        ("away", JObj [("name", JStr away)])])].

Definition clasico : json := fixture 12345 "Real Madrid" "Barcelona".

(** A network that answers every request with status 200 and [body]. *)
Definition serving (body : json) : http :=
  fun _ _ => Response 200 "" (inr body).

(** A network that answers every request with [o]. *)
Definition answering (o : http_outcome) : http := fun _ _ => o.

Definition envelope (items : list json) : json :=
  JObj [("errors", JArr []); ("response", JArr items)].

(** A player entry with the given [games] and [goals] blocks. *)
Definition player (name : string) (games goals : list (string * json)) : json :=
  JObj [("player", JObj [("name", JStr name)]);
        ("statistics", JArr [JObj [("games", JObj games); ("goals", JObj goals)]])].

Definition bench (name : string) : json :=
  JObj [("player", JObj [("name", JStr name)]); ("statistics", JArr [])].

Definition team (name : string) (players : list json) : json :=
  JObj [("team", JObj [("name", JStr name)]); ("players", JArr players)].

(** The statistics of the end-to-end scenario: two teams, one player
    each, ninety minutes and a goal. *)
Definition derby_stats : list json :=
  [team "Real Madrid"
     [player "Bellingham" [("minutes", JNum 90)] [("total", JNum 1)]];
   team "Barcelona"
     [player "Gundogan" [("minutes", JNum 90)] [("total", JNum 1)]]].

(** A midfielder who scored twice, with no assist and no card. *)
Definition scorer : DigestRules.player_stats :=
  {| DigestRules.name := "Bellingham";
     DigestRules.position := "M";
     DigestRules.minutes := 90;
     DigestRules.rating := Some 9%Z;
     DigestRules.goals := 2;
     DigestRules.assists := 0;
     DigestRules.saves := 0;
     DigestRules.shots_total := 4;
     DigestRules.shots_on_target := 3;
     DigestRules.passes_total := 41;
     DigestRules.passes_accuracy := Some 0%Z;
     DigestRules.key_passes := 0;
     DigestRules.tackles_total := 0;
     DigestRules.interceptions := 0;
     DigestRules.duels_total := 7;
     DigestRules.duels_won := 5;
     DigestRules.yellow_cards := 0;
     DigestRules.red_cards := 0 |}%Z.

(** A substitute who came on for the last three minutes. *)
Definition late_substitute : DigestRules.player_stats :=
  {| DigestRules.name := "Ceballos";
     DigestRules.position := "M";
     DigestRules.minutes := 3;
     DigestRules.rating := None;
     DigestRules.goals := 0;
     DigestRules.assists := 0;
     DigestRules.saves := 0;
     DigestRules.shots_total := 0;
     DigestRules.shots_on_target := 0;
     DigestRules.passes_total := 2;
     DigestRules.passes_accuracy := None;
     DigestRules.key_passes := 0;
     DigestRules.tackles_total := 0;
     DigestRules.interceptions := 0;
     DigestRules.duels_total := 0;
     DigestRules.duels_won := 0;
     DigestRules.yellow_cards := 0;
     DigestRules.red_cards := 0 |}%Z.

Definition visitors : list DigestRules.team_stats :=
  [{| DigestRules.club := "Real Madrid";
      DigestRules.squad := [scorer; late_substitute] |}].

(** A language model that answers every prompt with [text]. *)
Definition oracle (text : string) : model := fun _ => Ok text.

(** An agent that fails every query with [e]. *)
Definition failing_agent (e : exn) : Main.agent := fun _ => Main.AgentRaises e.

End Sample.

(* ================================================================= *)
(** ** tools/football_tools.py: [validate_match] and [fetch_match_stats] *)

Module MatchTools.
Import PyStr Py ApiClient Tools.

(** The [else] branch of [validate_match]. *)
Definition no_match (team1 team2 date : string) : string :=
  "No match found between " ++ team1 ++ " and " ++ team2 ++ " on " ++ date
  ++ ". Please check team names and date.".

(** The sentence built from the [result] dictionary. *)
Definition match_found (fixture : json) : result string :=
  fx <- item fixture "fixture" ;;
  fixture_id <- item fx "id" ;;
  teams <- item fixture "teams" ;;
  home <- item teams "home" ;;
  home_team <- item home "name" ;;
  teams' <- item fixture "teams" ;;
  away <- item teams' "away" ;;
  away_team <- item away "name" ;;
  fx' <- item fixture "fixture" ;;
  date <- item fx' "date" ;;
  Ok ("Match found! Fixture ID: " ++ str fixture_id ++ ", " ++ str home_team
      ++ " vs " ++ str away_team ++ " on " ++ str date).

(** The body of the [try] block of [validate_match]; [if fixture] is the
    truth value of what [find_fixture] returned, [None] or a fixture. *)
Definition validate_match_body (requests_get : http)
           (team1 team2 date : string) : result string :=
  fixture <- find_fixture requests_get team1 team2 date ;;
  match fixture with
  | Some f =>
      if truthy f then match_found f else Ok (no_match team1 team2 date)
  | None => Ok (no_match team1 team2 date)
  end.

Definition validate_match (requests_get : http) (team1 team2 date : string)
  : answer :=
  match validate_match_body requests_get team1 team2 date with
  | Ok s => Text s
  | Raise e => ErrorText "Error validating match: " e
  end.

(** [sum(len(team.get("players", [])) for team in stats)] *)
Fixpoint sum_players (teams : list json) (total : Z) : result Z :=
  match teams with
  | [] => Ok total
  | team :: rest =>
      ps <- get team "players" (JArr []) ;;
      n <- len ps ;;
      sum_players rest (total + n)%Z
  end.

(** [[team["team"]["name"] for team in stats]] *)
Fixpoint team_names (teams : list json) : result (list json) :=
  match teams with
  | [] => Ok []
  | team :: rest =>
      t <- item team "team" ;;
      name <- item t "name" ;;
      names <- team_names rest ;;
      Ok (name :: names)
  end.

(** [sep.join(l)]; an item that is not a string raises [TypeError]. *)
Fixpoint join (sep : string) (l : list json) : result string :=
  match l with
  | [] => Ok ""
  | JStr s :: rest =>
      match rest with
      | [] => Ok s
      | _ => tail <- join sep rest ;; Ok (s ++ sep ++ tail)
      end
  | _ :: _ => Raise TypeError
  end.

(** The body of the [try] block of [fetch_match_stats]. *)
Definition fetch_match_stats_body (requests_get : http) (fixture_id : Z)
  : result string :=
  stats <- get_player_stats requests_get fixture_id ;;
  if negb (truthy stats)
  then Ok ("Error: No player statistics found for fixture " ++ of_Z fixture_id)
  else
    items <- iter stats ;;
    total_players <- sum_players items 0 ;;
    items' <- iter stats ;;
    teams <- team_names items' ;;
    n <- len stats ;;
    joined <- join ", " teams ;;
    Ok ("✅ Successfully fetched statistics for " ++ of_Z n ++ " teams ("
        ++ joined ++ ") with " ++ of_Z total_players
        ++ " total players. Ready for MVP analysis.").

Definition fetch_match_stats (requests_get : http) (fixture_id : Z) : answer :=
  match fetch_match_stats_body requests_get fixture_id with
  | Ok s => Text s
  | Raise e => ErrorText "Error fetching match stats: " e
  end.

End MatchTools.

(* ================================================================= *)
(** ** The vocabulary of the statements about the tools *)

Module MatchContract.
Import PyStr Py ApiClient Tools Contract.

(** [team] is, whatever the case of its letters, part of the home or of
    the away name of [f]. *)
Definition plays (team : string) (f : json) : bool :=
  match fixture_teams f with
  | Some (hn, an) => Wording.occurs team hn || Wording.occurs team an
  | None => false
  end.

(** [a] is part of [b], whatever the case of the letters. *)
Definition within (a b : string) : bool := Wording.occurs a b.

(** The id and the date of a fixture that carries them. *)
Definition fixture_ref (f : json) : option (json * json) :=
  match f with
  | JObj d =>
      match lookup "fixture" d with
      | Some (JObj fx) =>
          match lookup "id" fx, lookup "date" fx with
          | Some i, Some dt => Some (i, dt)
          | _, _ => None
          end
      | _ => None
      end
  | _ => None
  end.

Definition is_object (v : json) : bool :=
  match v with JObj _ => true | _ => false end.

(** The fixtures that a response hands to the loop of [find_fixture]. *)
Definition day_fixtures (response : json) : option (list json) :=
  match response with
  | JObj d =>
      match lookup "response" d with
      | Some v => match iter v with Ok l => Some l | Raise _ => None end
      | None => Some []
      end
  | _ => None
  end.

(** Names, separated by a comma and a blank. *)
Fixpoint comma_list (names : list string) : string :=
  match names with
  | [] => ""
  | n :: rest =>
      match rest with
      | [] => n
      | _ => n ++ ", " ++ comma_list rest
      end
  end.

End MatchContract.

Module ToolContract.
Import PyStr Py ApiClient Tools Contract MatchContract.

(** What [validate_match] says of a fixture that carries its names, its
    id and its date. *)
Definition announcement (f : json) : option string :=
  match fixture_teams f, fixture_ref f with
  | Some (hn, an), Some (i, dt) =>
      Some ("Match found! Fixture ID: " ++ str i ++ ", " ++ hn ++ " vs " ++ an
            ++ " on " ++ str dt)
  | _, _ => None
  end.

End ToolContract.

(* ================================================================= *)
(** ** A player entry with missing values *)

Module RawStats.
Import PyStr Py DigestRules.

(** The statistics of a player as the API delivers them: any value but
    the name may be null. *)
Record raw_stats : Type := {
  r_name : string;
  r_position : option string;
  r_minutes : option Z;
  r_rating : option Z;
  r_goals : option Z;
  r_assists : option Z;
  r_saves : option Z;
  r_shots_total : option Z;
  r_shots_on_target : option Z;
  r_passes_total : option Z;
  r_passes_accuracy : option Z;
  r_key_passes : option Z;
  r_tackles_total : option Z;
  r_interceptions : option Z;
  r_duels_total : option Z;
  r_duels_won : option Z;
  r_yellow_cards : option Z;
  r_red_cards : option Z
}.

Definition optional_text (v : option string) : json :=
  match v with Some s => JStr s | None => JNull end.

(** The entry of the statistics payload that carries [r]. *)
Definition raw_payload (r : raw_stats) : json :=
  JObj
    [("player", JObj [("name", JStr (r_name r))]);
     ("statistics",
      JArr
        [JObj
           [("games", JObj [("minutes", optional (r_minutes r));
                            ("position", optional_text (r_position r));
                            ("rating", optional (r_rating r))]);
            ("goals", JObj [("total", optional (r_goals r));
                            ("assists", optional (r_assists r));
                            ("saves", optional (r_saves r))]);
            ("shots", JObj [("total", optional (r_shots_total r));
                            ("on", optional (r_shots_on_target r))]);
            ("passes", JObj [("total", optional (r_passes_total r));
                             ("accuracy", optional (r_passes_accuracy r));
                             ("key", optional (r_key_passes r))]);
            ("tackles", JObj [("total", optional (r_tackles_total r));
                              ("interceptions", optional (r_interceptions r))]);
            ("duels", JObj [("total", optional (r_duels_total r));
                            ("won", optional (r_duels_won r))]);
            ("cards", JObj [("yellow", optional (r_yellow_cards r));
                            ("red", optional (r_red_cards r))])]])].

Definition or_zero (v : option Z) : Z :=
  match v with Some z => z | None => 0%Z end.

Definition or_unknown (v : option string) : string :=
  match v with
  | Some s => if String.eqb s "" then "Unknown" else s
  | None => "Unknown"
  end.

(** [r] with zero for a missing count and Unknown for a missing or
    empty position; the rating and the passing accuracy stay optional. *)
Definition fill (r : raw_stats) : player_stats :=
  {| name := r_name r;
     position := or_unknown (r_position r);
     minutes := or_zero (r_minutes r);
     rating := r_rating r;
     goals := or_zero (r_goals r);
     assists := or_zero (r_assists r);
     saves := or_zero (r_saves r);
     shots_total := or_zero (r_shots_total r);
     shots_on_target := or_zero (r_shots_on_target r);
     passes_total := or_zero (r_passes_total r);
     passes_accuracy := r_passes_accuracy r;
     key_passes := or_zero (r_key_passes r);
     tackles_total := or_zero (r_tackles_total r);
     interceptions := or_zero (r_interceptions r);
     duels_total := or_zero (r_duels_total r);
     duels_won := or_zero (r_duels_won r);
     yellow_cards := or_zero (r_yellow_cards r);
     red_cards := or_zero (r_red_cards r) |}.

(** A player of whom the payload has the name only. *)
Definition nameless_stats (name : string) : raw_stats :=
  {| r_name := name; r_position := None; r_minutes := None; r_rating := None;
     r_goals := None; r_assists := None; r_saves := None;
     r_shots_total := None; r_shots_on_target := None;
     r_passes_total := None; r_passes_accuracy := None; r_key_passes := None;
     r_tackles_total := None; r_interceptions := None;
     r_duels_total := None; r_duels_won := None;
     r_yellow_cards := None; r_red_cards := None |}.

End RawStats.

(* ================================================================= *)
(** ** utils/api_client.py: the constructor of the client *)

Module ClientSetup.
Import PyStr Py.

Inductive level : Type := DEBUG | INFO | WARNING | ERROR.

(** A call of [logger.debug], [logger.info], [logger.warning] or
    [logger.error] with its message. *)
Definition log_record := (level * string)%type.

(** What [os.getenv] gives, which is what the callers pass for the key
    and the host: a string, or [None]. *)
Definition value (v : option string) : json :=
  match v with Some s => JStr s | None => JNull end.

(** [s[:n]] *)
Fixpoint first_chars (n : nat) (s : string) : string :=
  match n, s with
  | S n', String c s' => String c (first_chars n' s')
  | _, _ => EmptyString
  end.

(** [s[-n:]] for a positive [n] *)
Definition last_chars (n : nat) (s : string) : string :=
  String.substring (String.length s - n) n s.

(** The fields of the client. *)
Record client : Type := {
  api_key : option string;
  api_host : option string;
  headers : list (string * json)
}.

(** [len(api_key) > 14], which raises on [None]. *)
Definition longer_than_14 (api_key : option string) : result bool :=
  n <- len (value api_key) ;; Ok (Z.gtb n 14).

(** [__init__]: the records handed to the logger, in order, and the
    client or the exception raised.  The key is taken to be ASCII text,
    so that [len] counts its characters. *)
Definition __init__ (api_key api_host : option string)
  : list log_record * result client :=
  let headers :=
    [("X-RapidAPI-Key", value api_key);
     ("X-RapidAPI-Host", value api_host);
     ("Content-Type", JStr "application/json")] in
  let log1 := (INFO, "Initialized API client for " ++ str (value api_host)) in
  let log2 :=
    match api_key with
    | Some k =>
        if truthy (JStr k) then
          let truncated_key :=
            if Z.gtb (Z.of_nat (String.length k)) 14
            then first_chars 10 k ++ "..." ++ last_chars 4 k
            else first_chars 5 k ++ "..." in
          (INFO, "API key provided: " ++ truncated_key)
        else (WARNING, "No API key provided!")
    | None => (WARNING, "No API key provided!")
    end in
  match longer_than_14 api_key with
  | Raise e => ([log1; log2], Raise e)
  | Ok long =>
      let shown_key :=
        match api_key with
        | Some k =>
            if long then first_chars 10 k ++ "..." ++ last_chars 4 k else "***"
        | None => "***"
        end in
      let safe_headers := store "X-RapidAPI-Key" (JStr shown_key) headers in
      ([log1; log2; (DEBUG, "Request headers: " ++ str (JObj safe_headers))],
       Ok {| api_key := api_key; api_host := api_host; headers := headers |})
  end.


End ClientSetup.

(* ================================================================= *)
(** ** main.py: the start of [main], and demo/demo.py *)

Module Startup.
Import PyStr Py InputParser Main ClientSetup.

(** The environment after [load_dotenv()]: [os.getenv]. *)
Definition env := string -> option string.

(** The arguments that [ChatGoogleGenerativeAI] is constructed with; the
    object itself belongs to the library. *)
Record llm_settings : Type := {
  model_name : string;
  temperature : Z;
  google_api_key : option string
}.

(** [create_react_agent(llm, tools)], the tools being those that
    [create_football_tools] makes for the client and the model. *)
Definition agent_factory := llm_settings -> client -> agent.

(** [create_llm]: the records logged, and the message of the
    [ValueError] raised or the settings of the model. *)
Definition create_llm (getenv : env)
  : list log_record * (string + llm_settings) :=
  let google_api_key := getenv "GOOGLE_API_KEY" in
  if negb (truthy (value google_api_key))
     || match google_api_key with
        | Some k => String.eqb k "your_google_api_key_here"
        | None => false
        end
  then
    ([], inl "GOOGLE_API_KEY not found in environment variables or is placeholder")
  else
    ([(INFO, "🚀 Using Google Gemini 1.5 Flash (1M context window, FREE)")],
     inr {| model_name := "gemini-1.5-flash";
            temperature := 0;
            google_api_key := google_api_key |}).

(** What the program shows before the loop: a printed line or a record
    logged. *)
Inductive event : Type :=
| Printed (s : string)
| Logged (r : log_record).

(** How [main] ends: it returns before the loop, an exception leaves
    it, or it is in the loop, in the state given. *)
Inductive main_end : Type :=
| Returned
| Failed (e : exn)
| Looped (s : run_state).

(** [main], with [n] turns of the loop. *)
Definition main (getenv : env) (create_react_agent : agent_factory)
           (console : list read) (n : nat) : list event * main_end :=
  let rapid_api_key := getenv "RAPID_API_KEY" in
  let rapid_api_host := getenv "RAPID_API_HOST" in
  if negb (truthy (value rapid_api_key)) || negb (truthy (value rapid_api_host))
  then
    ([Logged (ERROR, "RAPID_API_KEY and RAPID_API_HOST not found in environment variables")],
     Returned)
  else
    let banner :=
      [Printed "🤖 Football MVP Selector Agent - Powered by Google Gemini 1.5 Flash";
       Printed "🆓 FREE model with 1M context window for handling large datasets"] in
    let '(logs, made) := __init__ rapid_api_key rapid_api_host in
    match made with
    | Raise e => ((banner ++ map Logged logs)%list, Failed e)
    | Ok api_client =>
        let '(logs', llm_or_error) := create_llm getenv in
        match llm_or_error with
        | inl message =>
            ((banner ++ map Logged logs ++ map Logged logs'
              ++ [Logged (ERROR, message)])%list,
             Returned)
        | inr llm =>
            let agent_executor := create_react_agent llm api_client in
            ((banner ++ map Logged logs ++ map Logged logs'
              ++ [Logged (INFO, "⚽ Football MVP Selector Agent initialized successfully!");
                  Logged (INFO, "💡 Enter match details in format: 'Team1 vs Team2 on YYYY-MM-DD'");
                  Logged (INFO, "📊 Example: 'Barcelona vs Real Madrid on 2024-03-17'")])%list,
             Looped (main_loop n agent_executor console []))
        end
    end.

(** [s * n] *)
Fixpoint repeat_string (s : string) (n : nat) : string :=
  match n with
  | O => ""
  | S n' => s ++ repeat_string s n'
  end.

Definition demo_query : string :=
  "Find the MVP for the football match between Real Madrid and Barcelona on 2023-10-28." ++ nl
  ++ "    " ++ nl
  ++ "    Please follow these steps:" ++ nl
  ++ "    1. Validate if this match exists using the validate_match tool" ++ nl
  ++ "    2. Fetch the player statistics using fetch_match_stats tool" ++ nl
  ++ "    3. Analyze the statistics and determine the MVP using determine_mvp tool" ++ nl
  ++ "    " ++ nl
  ++ "    Provide a detailed analysis of why the chosen player deserves to be the MVP.".

(** The names of the three tools, as [tool.name] gives them. *)
Definition tool_names : list json :=
  [JStr "validate_match"; JStr "fetch_match_stats"; JStr "determine_mvp"].

(** How [run_demo] ends. *)
Inductive demo_end : Type :=
| Completed
| Aborted (e : exn)
| Interrupted.

(** [ChatGoogleGenerativeAI(...)] as [run_demo] calls it, with whatever
    the environment holds: the exception that the construction raises,
    if it raises one. *)
Definition constructor := llm_settings -> option exn.

(** [run_demo] *)
Definition run_demo (getenv : env) (ChatGoogleGenerativeAI : constructor)
           (create_react_agent : agent_factory)
  : list event * demo_end :=
  let banner :=
    [Printed "🚀 Football MVP Selector Agent - LangGraph + Gemini Demo";
     Printed "🆓 Using FREE Google Gemini 1.5 Flash with 1M context window";
     Printed (repeat_string "=" 60)] in
  let '(logs, made) :=
    __init__ (getenv "RAPID_API_KEY") (getenv "RAPID_API_HOST") in
  match made with
  | Raise e => ((banner ++ map Logged logs)%list, Aborted e)
  | Ok api_client =>
      let llm := {| model_name := "gemini-1.5-flash";
                    temperature := 0;
                    google_api_key := getenv "GOOGLE_API_KEY" |} in
      match ChatGoogleGenerativeAI llm with
      | Some e => ((banner ++ map Logged logs)%list, Aborted e)
      | None =>
      let agent_executor := create_react_agent llm api_client in
      let before :=
        (banner ++ map Logged logs
         ++ [Printed "✅ Agent initialized with LangGraph and Gemini 1.5 Flash";
             Printed ("🔧 Available tools:" ++ " " ++ str (JArr tool_names));
             Printed (nl ++ "📝 Demo Query:");
             Printed "   Real Madrid vs Barcelona on 2023-10-28";
             Printed (nl ++ "🤖 Gemini agent thinking and using tools...");
             Printed (repeat_string "-" 50)])%list in
      match agent_executor demo_query with
      | Answer content =>
          ((before
            ++ [Printed (nl ++ "🏆 Final Result:");
                Printed content;
                Printed (nl ++ "✨ Demo completed successfully!");
                Printed "📊 Tools used: validate_match → fetch_match_stats → determine_mvp";
                Printed "🆓 Cost: $0.00 (Gemini 1.5 Flash is FREE)"])%list,
           Completed)
      | AgentRaises e => (before, Aborted e)
      | AgentInterrupted => (before, Interrupted)
      end
      end
  end.

(** The three variables are set, and the Google key is not the
    placeholder of the example file. *)
Definition configured (getenv : env) : bool :=
  truthy (value (getenv "RAPID_API_KEY"))
  && truthy (value (getenv "RAPID_API_HOST"))
  && truthy (value (getenv "GOOGLE_API_KEY"))
  && negb (match getenv "GOOGLE_API_KEY" with
           | Some k => String.eqb k "your_google_api_key_here"
           | None => false
           end).

End Startup.

Module DigestContract.
Import PyStr Py DigestRules.

(** The digest of teams without players: the headings alone. *)
Fixpoint headings (teams : list team_stats) : string :=
  match teams with
  | [] => ""
  | t :: rest => nl ++ "=== " ++ club t ++ " ===" ++ nl ++ headings rest
  end.

(** Nobody of the team played more than five minutes. *)
Definition idle (t : team_stats) : bool :=
  forallb (fun p => negb (played p)) (squad t).

End DigestContract.

(* ================================================================= *)
(** ** Sample environments *)

Module Settings.
Import Startup.

(** No variable is set. *)
Definition nothing_set : env := fun _ => None.

(** The three variables are set. *)
Definition all_set : env :=
  fun name =>
    if String.eqb name "RAPID_API_KEY" then Some "0123456789-secret-wxyz"
    else if String.eqb name "RAPID_API_HOST"
         then Some "api-football-v1.p.rapidapi.com"
    else if String.eqb name "GOOGLE_API_KEY" then Some "g-key"
    else None.

(** The Google key is still the placeholder of the example file. *)
Definition placeholder_left : env :=
  fun name =>
    if String.eqb name "GOOGLE_API_KEY" then Some "your_google_api_key_here"
    else all_set name.

(** A constructor that accepts every key. *)
Definition lenient : constructor := fun _ => None.

(** A constructor that raises when it is given no key. *)
Definition key_required : constructor :=
  fun llm =>
    match google_api_key llm with
    | Some _ => None
    | None => Some (Py.Exception "API key required for Gemini Developer API")
    end.

(** The key of the statistics service is set, and nothing else. *)
Definition rapid_key_only : env :=
  fun name =>
    if String.eqb name "RAPID_API_KEY" then Some "0123456789-secret-wxyz"
    else None.

(** An agent factory whose agents answer with the key they were made
    for. *)
Definition echo_factory : agent_factory :=
  fun llm _ _ =>
    Main.Answer (match google_api_key llm with Some k => k | None => "" end).

End Settings.
(* ================================================================= *)
(** ** Strings *)

Import PyStr Re InputParser Grammar.

Lemma app_assoc_s (a b c : string) : (a ++ b) ++ c = a ++ (b ++ c).
Proof. induction a as [|x a IH]; simpl; [reflexivity | now rewrite IH]. Qed.

Lemma app_empty_r (a : string) : a ++ "" = a.
Proof. induction a as [|x a IH]; simpl; [reflexivity | now rewrite IH]. Qed.

Lemma length_app_s (a b : string) :
  String.length (a ++ b) = String.length a + String.length b.
Proof. induction a as [|x a IH]; simpl; [reflexivity | now rewrite IH]. Qed.

Lemma substring_zero (s : string) : String.substring 0 0 s = "".
Proof. destruct s; reflexivity. Qed.

Lemma substring_prefix (g z : string) :
  String.substring 0 (String.length g) (g ++ z) = g.
Proof.
  induction g as [|x g IH]; simpl.
  - apply substring_zero.
  - now rewrite IH.
Qed.

Lemma consumed_app (g z : string) : consumed (g ++ z) z = g.
Proof.
  unfold consumed. rewrite length_app_s.
  replace (String.length g + String.length z - String.length z)
    with (String.length g) by lia.
  apply substring_prefix.
Qed.

Lemma all_chars_app (p : ascii -> bool) (a b : string) :
  all_chars p (a ++ b) = all_chars p a && all_chars p b.
Proof.
  induction a as [|x a IH]; simpl; [reflexivity|].
  rewrite IH. now rewrite andb_assoc.
Qed.

(* ================================================================= *)
(** ** The backtracking combinators *)

Section Combinators.
Context {A : Type}.
Implicit Types (k : string -> option A) (p : ascii -> bool).


Lemma plus_greedy_stops p z k :
  stops p z = true -> plus_greedy p z k = None.
Proof.
  destruct z as [|c z]; simpl; [reflexivity|].
  destruct (p c); [discriminate | reflexivity].
Qed.

(** A greedy run that can take all of [w] and no more hands over exactly
    there when the rest of the pattern succeeds there. *)
Lemma plus_greedy_found p w z k r :
  nonempty w = true -> all_chars p w = true -> stops p z = true ->
  k z = Some r ->
  plus_greedy p (w ++ z) k = Some r.
Proof.
  intros Hne Hall Hz Hk. induction w as [|c w IH]; [discriminate|].
  simpl in *. apply andb_prop in Hall as [Hc Hw]. rewrite Hc.
  destruct w as [|c' w].
  - simpl. now rewrite (plus_greedy_stops p z k Hz).
  - now rewrite IH.
Qed.

(** A greedy run fails when the rest of the pattern fails after each of
    its possible lengths. *)
Lemma plus_greedy_none p s k :
  (forall w y, s = w ++ y -> nonempty w = true -> all_chars p w = true ->
               k y = None) ->
  plus_greedy p s k = None.
Proof.
  induction s as [|c s IH]; intros H; simpl; [reflexivity|].
  destruct (p c) eqn:Hc; [|reflexivity].
  rewrite IH.
  - apply (H (String c "") s); simpl; [reflexivity | reflexivity |].
    now rewrite Hc.
  - intros w y -> Hne Hall. apply (H (String c w) y); simpl; auto.
    now rewrite Hc, Hall.
Qed.

(** A lazy run stops at the first length after which the rest of the
    pattern succeeds. *)
Lemma plus_lazy_found p g z k r :
  nonempty g = true -> all_chars p g = true ->
  (forall a b, g = a ++ b -> nonempty a = true -> nonempty b = true ->
               k (b ++ z) = None) ->
  k z = Some r ->
  plus_lazy p (g ++ z) k = Some r.
Proof.
  intros Hne Hall Hearly Hk. induction g as [|c g IH]; [discriminate|].
  simpl in *. apply andb_prop in Hall as [Hc Hg]. rewrite Hc.
  destruct g as [|c' g].
  - simpl. now rewrite Hk.
  - rewrite (Hearly (String c "") (String c' g)); try reflexivity.
    apply IH; auto.
    intros a b E Ha Hb. apply (Hearly (String c a) b); auto.
    simpl. now rewrite E.
Qed.

(** Success of a run, read backwards. *)
Lemma plus_lazy_inv p s k r :
  plus_lazy p s k = Some r ->
  exists g z, s = g ++ z /\ nonempty g = true /\ all_chars p g = true
              /\ k z = Some r.
Proof.
  revert r. induction s as [|c s IH]; intros r; simpl; [discriminate|].
  destruct (p c) eqn:Hc; [|discriminate].
  destruct (k s) eqn:Hk.
  - intros [= <-]. exists (String c ""), s. simpl. now rewrite Hc.
  - intros H. destruct (IH _ H) as (g & z & -> & Hne & Hall & Hz).
    exists (String c g), z. simpl. now rewrite Hc, Hall.
Qed.

Lemma plus_greedy_inv p s k r :
  plus_greedy p s k = Some r ->
  exists g z, s = g ++ z /\ nonempty g = true /\ all_chars p g = true
              /\ k z = Some r.
Proof.
  revert r. induction s as [|c s IH]; intros r; simpl; [discriminate|].
  destruct (p c) eqn:Hc; [|discriminate].
  destruct (plus_greedy p s k) eqn:Hg.
  - intros [= <-]. destruct (IH _ eq_refl) as (g & z & -> & Hne & Hall & Hz).
    exists (String c g), z. simpl. now rewrite Hc, Hall.
  - intros H. exists (String c ""), s. simpl. now rewrite Hc.
Qed.

(** A run finds a success whenever there is one. *)
Lemma plus_lazy_complete p g z k :
  nonempty g = true -> all_chars p g = true -> k z <> None ->
  plus_lazy p (g ++ z) k <> None.
Proof.
  intros Hne Hall Hk. induction g as [|c g IH]; [discriminate|].
  simpl in *. apply andb_prop in Hall as [Hc Hg]. rewrite Hc.
  destruct g as [|c' g]; simpl in *.
  - destruct (k z); [discriminate | contradiction].
  - destruct (k (String c' (g ++ z))); [discriminate|]. now apply IH.
Qed.

Lemma plus_greedy_complete p g z k :
  nonempty g = true -> all_chars p g = true -> k z <> None ->
  plus_greedy p (g ++ z) k <> None.
Proof.
  intros Hne Hall Hk. induction g as [|c g IH]; [discriminate|].
  simpl in *. apply andb_prop in Hall as [Hc Hg]. rewrite Hc.
  destruct g as [|c' g].
  - simpl. destruct (plus_greedy p z k); [discriminate | exact Hk].
  - destruct (plus_greedy p (String c' g ++ z) k) eqn:E; [discriminate|].
    exfalso. now apply IH.
Qed.

End Combinators.

(* ================================================================= *)
(** ** The pattern of [parse_user_input], piece by piece *)

Lemma exec_word {A : Type} (w s : string) (caps : list string)
      (k : string -> list string -> option A) :
  nonempty w = true ->
  exec (word w) s caps k
  = match after w s with Some r => k r caps | None => None end.
Proof.
  revert s. induction w as [|c w IH]; intros s Hne; [discriminate|].
  destruct w as [|c2 w].
  - destruct s as [|c' s]; simpl; [reflexivity|].
    destruct (Ascii.eqb c' c); reflexivity.
  - change (word (String c (String c2 w)))
      with (Cat (Chr c) (word (String c2 w))).
    cbn [exec]. destruct s as [|c' s]; [reflexivity|].
    cbn [after]. destruct (Ascii.eqb c' c); [|reflexivity].
    now apply IH.
Qed.

Lemma after_app_same (w z : string) : after w (w ++ z) = Some z.
Proof.
  induction w as [|c w IH]; simpl; [reflexivity|].
  now rewrite Ascii.eqb_refl.
Qed.

Lemma after_self (w : string) : after w w = Some "".
Proof.
  induction w as [|c w IH]; simpl; [reflexivity|].
  now rewrite Ascii.eqb_refl.
Qed.

Lemma after_inv (w s r : string) : after w s = Some r -> s = w ++ r.
Proof.
  revert s. induction w as [|c w IH]; intros s; simpl.
  - now intros [= ->].
  - destruct s as [|c' s]; [discriminate|].
    destruct (Ascii.eqb_spec c' c) as [->|]; [|discriminate].
    intros H. now rewrite (IH _ H).
Qed.

(** No whitespace character is a letter of a separator, a digit or a
    hyphen. *)
Lemma isspace_differs (c x : ascii) :
  isspace c = true -> isspace x = false -> Ascii.eqb c x = false.
Proof.
  intros Hc Hx. destruct (Ascii.eqb_spec c x) as [->|]; [congruence | reflexivity].
Qed.

Lemma isdigit_not_space (c : ascii) : isdigit c = true -> isspace c = false.
Proof.
  unfold isdigit, isspace, nat_in. intros H.
  apply andb_prop in H as [H1 H2].
  apply Nat.leb_le in H1. apply Nat.leb_le in H2.
  apply orb_false_iff. split; apply andb_false_iff; right; apply Nat.leb_gt; lia.
Qed.

Local Abbreviation run r s caps :=
  (exec r s caps (fun s' caps' => Some (caps', s'))).
Local Abbreviation space_then r := (Cat (PlusGreedy isspace) r).

Lemma is_date_stops (d rest : string) :
  is_date d = true -> stops isspace (d ++ rest) = true.
Proof.
  destruct d as [|c d]; [discriminate|]. intros H. simpl.
  assert (Hc : isdigit c = true).
  { unfold is_date in H.
    do 9 (destruct d as [|? d]; [discriminate|]).
    destruct d; [|discriminate].
    do 9 (apply andb_prop in H as [H ?]). assumption. }
  now rewrite (isdigit_not_space c Hc).
Qed.

(** [(\d{4}-\d{2}-\d{2})] on a date *)
Lemma run_date (d rest : string) (caps : list string) :
  is_date d = true ->
  run date_group (d ++ rest) caps = Some ((caps ++ [d])%list, rest).
Proof.
  intros H. unfold date_group. cbn [exec].
  pose proof (consumed_app d rest) as Hcons.
  unfold is_date in H.
  do 10 (destruct d as [|? d]; [discriminate|]).
  destruct d; [|discriminate].
  do 9 (apply andb_prop in H as [H ?]).
  cbn [append times] in *.
  repeat match goal with
         | E : ?b = true |- context [if ?b then _ else _] => rewrite E
         end.
  now rewrite Hcons.
Qed.

Lemma exec_versus {A : Type} (s : string) (caps : list string)
      (k : string -> list string -> option A) :
  exec versus s caps k = try_words versus_words s (fun r => k r caps).
Proof.
  unfold versus, versus_words. cbn [exec try_words].
  rewrite !exec_word by reflexivity.
  repeat match goal with
         | |- context [after ?w s] => destruct (after w s)
         | |- context [k ?r caps] => destruct (k r caps)
         end; reflexivity.
Qed.

Lemma exec_on_word {A : Type} (s : string) (caps : list string)
      (k : string -> list string -> option A) :
  exec on_word s caps k = try_words on_words s (fun r => k r caps).
Proof.
  unfold on_word, on_words. cbn [exec try_words].
  rewrite !exec_word by reflexivity.
  repeat match goal with
         | |- context [after ?w s] => destruct (after w s)
         | |- context [k ?r caps] => destruct (k r caps)
         end; reflexivity.
Qed.

(** A word found at the start of [b ++ t] lies within [b], or runs on
    into [t]. *)
Lemma after_app_cases (w b t r : string) :
  after w (b ++ t) = Some r ->
  (exists r', after w b = Some r' /\ r = r' ++ t)
  \/ (exists w1 w2, w = w1 ++ w2 /\ nonempty w2 = true /\ after w2 t = Some r).
Proof.
  revert b. induction w as [|c w IH]; intros b H.
  - left. exists b. simpl in *. now inversion H.
  - destruct b as [|c' b].
    + right. exists "", (String c w). repeat split. exact H.
    + simpl in H. destruct (Ascii.eqb c' c) eqn:E; [|discriminate].
      destruct (IH _ H) as [(r' & Hr & ->) | (w1 & w2 & -> & Hne & Hw)].
      * left. exists r'. simpl. now rewrite E.
      * right. exists (String c w1), w2. repeat split; assumption.
Qed.

Lemma wordlike_no_space (w w1 w2 t r : string) :
  wordlike w = true -> w = w1 ++ w2 -> nonempty w2 = true ->
  after w2 t = Some r -> stops isspace t = true.
Proof.
  intros Hw -> Hne Ha. unfold wordlike in Hw.
  apply andb_prop in Hw as [_ Hall]. rewrite all_chars_app in Hall.
  apply andb_prop in Hall as [_ Hall].
  destruct w2 as [|c w2]; [discriminate|].
  simpl in *. destruct t as [|c' t]; [reflexivity|].
  destruct (Ascii.eqb_spec c' c) as [->|]; [|discriminate].
  simpl. now apply andb_prop in Hall as [-> _].
Qed.

Section Words.
Context {A : Type} (words : list string) (k : string -> option A).
Hypothesis words_ok : forallb wordlike words = true.
Hypothesis k_needs_space : forall r, stops isspace r = true -> k r = None.

(** No separator starts at [b], which is followed by whitespace: the
    alternation fails there. *)
Lemma try_words_none (b t : string) :
  starts_word words b = false -> stops isspace t = false ->
  try_words words (b ++ t) k = None.
Proof.
  intros Hsw Ht. unfold starts_word in Hsw.
  induction words as [|w ws IH]; [reflexivity|].
  simpl in *. apply andb_prop in words_ok as [Hw Hws].
  apply orb_false_iff in Hsw as [Hb Hsw].
  rewrite (IH Hws Hsw).
  destruct (after w (b ++ t)) as [r|] eqn:E; [|reflexivity].
  rewrite k_needs_space; [reflexivity|].
  destruct (after_app_cases _ _ _ _ E) as [(r' & Hr & ->) | (w1 & w2 & Hw12 & Hne & Ha)].
  - rewrite Hr in Hb. destruct r' as [|c r']; [discriminate|].
    simpl in *. now rewrite Hb.
  - rewrite (wordlike_no_space _ _ _ _ _ Hw Hw12 Hne Ha) in Ht. discriminate.
Qed.

(** The separator [w] stands at the start, whitespace follows, and the
    rest of the pattern succeeds after it. *)
Lemma try_words_found (w z : string) (x : A) :
  In w words -> stops isspace z = false -> k z = Some x ->
  try_words words (w ++ z) k = Some x.
Proof.
  intros Hin Hz Hk.
  induction words as [|w0 ws IH]; [contradiction|].
  simpl in *. apply andb_prop in words_ok as [Hw0 Hws].
  destruct (after w0 (w ++ z)) as [r|] eqn:E.
  - destruct (after_app_cases _ _ _ _ E) as [(r' & Hr & ->) | (w1 & w2 & Hw12 & Hne & Ha)].
    + destruct r' as [|c r'].
      * simpl. now rewrite Hk.
      * assert (Hw : wordlike w = true).
        { destruct Hin as [<-|Hin]; [assumption|].
          rewrite forallb_forall in Hws. now apply Hws. }
        assert (Hne0 : w0 <> w).
        { intros ->. rewrite after_self in Hr. discriminate. }
        apply after_inv in Hr. unfold wordlike in Hw.
        apply andb_prop in Hw as [_ Hall]. rewrite Hr, all_chars_app in Hall.
        apply andb_prop in Hall as [_ Hall]. simpl in Hall.
        apply andb_prop in Hall as [Hc _].
        rewrite k_needs_space by (simpl; exact Hc).
        destruct Hin as [->|Hin]; [contradiction | now apply IH].
    + rewrite (wordlike_no_space _ _ _ _ _ Hw0 Hw12 Hne Ha) in Hz. discriminate.
  - destruct Hin as [->|Hin]; [|now apply IH].
    rewrite after_app_same in E. discriminate.
Qed.

End Words.

Lemma last_nonspace_app (a b : string) :
  nonempty b = true -> last_nonspace (a ++ b) = last_nonspace b.
Proof.
  intros Hb. induction a as [|c a IH]; [reflexivity|].
  simpl. rewrite IH. destruct (a ++ b) eqn:E; [|reflexivity].
  destruct a; destruct b; discriminate.
Qed.

Lemma last_nonspace_nonempty (s : string) :
  last_nonspace s = true -> nonempty s = true.
Proof. destruct s; [discriminate | reflexivity]. Qed.

(** Whitespace taken from the front of [b ++ t] stays inside [b] when
    [b] ends in a character that is not whitespace. *)
Lemma space_prefix_within (b t w y : string) :
  b ++ t = w ++ y -> all_chars isspace w = true -> last_nonspace b = true ->
  exists b', b = w ++ b' /\ nonempty b' = true /\ y = b' ++ t.
Proof.
  revert b. induction w as [|c w IH]; intros b E Hw Hb.
  - exists b. simpl in *. split; [reflexivity|].
    split; [now apply last_nonspace_nonempty | now rewrite E].
  - destruct b as [|c0 b]; [discriminate|].
    simpl in E, Hw. injection E as -> E. apply andb_prop in Hw as [Hc Hw].
    destruct b as [|c1 b].
    + simpl in Hb. now rewrite Hc in Hb.
    + destruct (IH (String c1 b) E Hw Hb) as (b' & Eb & Hne & Ey).
      exists b'. simpl. rewrite Eb. auto.
Qed.

(** What [mentions] excludes. *)
Lemma mentions_after_space (words : list string) (x w b : string) :
  mentions words (x ++ w ++ b) = false ->
  nonempty w = true -> all_chars isspace w = true ->
  starts_word words b = false.
Proof.
  intros H Hne Hw. induction x as [|c x IH].
  - simpl in H. induction w as [|c w IHw]; [discriminate|].
    simpl in *. apply andb_prop in Hw as [Hc Hw].
    apply orb_false_iff in H as [H1 H2]. rewrite Hc in H1. simpl in H1.
    destruct w as [|c' w]; [exact H1 | now apply IHw].
  - simpl in H. apply orb_false_iff in H as [_ H]. now apply IH.
Qed.

(** The rest of the pattern, [\s+(?:words)...], fails after every proper
    prefix of a trimmed name that mentions none of the words. *)
Lemma early_split_fails {A : Type} (words : list string)
      (k : string -> option A) (t z a b : string) :
  forallb wordlike words = true ->
  (forall r, stops isspace r = true -> k r = None) ->
  mentions words t = false -> last_nonspace t = true ->
  stops isspace z = false ->
  t = a ++ b -> nonempty b = true ->
  plus_greedy isspace (b ++ z) (fun s' => try_words words s' k) = None.
Proof.
  intros Hwords Hk Hm Hlast Hz -> Hb.
  rewrite last_nonspace_app in Hlast by assumption.
  apply plus_greedy_none. intros w y E Hne Hw.
  destruct (space_prefix_within _ _ _ _ E Hw Hlast) as (b' & -> & Hb' & ->).
  apply try_words_none; auto.
  now apply (mentions_after_space words a w b').
Qed.

Lemma plus_greedy_ext {A : Type} (p : ascii -> bool) (s : string)
      (k k' : string -> option A) :
  (forall z, k z = k' z) -> plus_greedy p s k = plus_greedy p s k'.
Proof.
  intros E. induction s as [|c s IH]; simpl; [reflexivity|].
  now rewrite IH, E.
Qed.

Lemma blank_starts (w y : string) :
  blank w = true -> stops isspace (w ++ y) = false.
Proof.
  unfold blank. destruct w as [|c w]; [discriminate|]. simpl.
  intros H. apply andb_prop in H as [H _]. now rewrite H.
Qed.

Lemma blank_parts (w : string) :
  blank w = true -> nonempty w = true /\ all_chars isspace w = true.
Proof. unfold blank. intros H. now apply andb_prop in H. Qed.

Lemma word_starts (words : list string) (w y : string) :
  forallb wordlike words = true -> In w words ->
  stops isspace (w ++ y) = true.
Proof.
  intros Hall Hin. rewrite forallb_forall in Hall.
  specialize (Hall _ Hin). unfold wordlike in Hall.
  destruct w as [|c w]; [discriminate|]. simpl in *.
  now apply andb_prop in Hall as [-> _].
Qed.

Lemma tight_parts (t : string) :
  tight t = true ->
  all_chars dot t = true /\ first_nonspace t = true /\ last_nonspace t = true.
Proof.
  unfold tight. intros H. apply andb_prop in H as [H H3].
  apply andb_prop in H as [H1 H2]. auto.
Qed.

Lemma first_nonspace_stops (t y : string) :
  first_nonspace t = true -> stops isspace (t ++ y) = true.
Proof. destruct t; [discriminate | trivial]. Qed.

Section Pieces.
Variable r : regex.

(** [\s+ r] fails where no whitespace starts. *)
Lemma space_then_needs_space (s : string) (caps : list string) :
  stops isspace s = true -> run (space_then r) s caps = None.
Proof. intros H. cbn [exec]. now apply plus_greedy_stops. Qed.

Lemma run_space_then (w z : string) (caps : list string) x :
  blank w = true -> stops isspace z = true ->
  run r z caps = Some x ->
  run (space_then r) (w ++ z) caps = Some x.
Proof.
  intros Hw Hz Hr. apply blank_parts in Hw as [Hne Hall].
  cbn [exec]. now apply plus_greedy_found.
Qed.

Lemma run_versus (sep z : string) (caps : list string) x :
  In sep versus_words -> stops isspace z = false ->
  run (space_then r) z caps = Some x ->
  run (Cat versus (space_then r)) (sep ++ z) caps = Some x.
Proof.
  intros Hin Hz Hr. cbn [exec]. rewrite exec_versus.
  apply try_words_found; auto.
  intros s Hs. now apply plus_greedy_stops.
Qed.

Lemma run_on_word (on z : string) (caps : list string) x :
  In on on_words -> stops isspace z = false ->
  run (space_then r) z caps = Some x ->
  run (Cat on_word (space_then r)) (on ++ z) caps = Some x.
Proof.
  intros Hin Hz Hr. cbn [exec]. rewrite exec_on_word.
  apply try_words_found; auto.
  intros s Hs. now apply plus_greedy_stops.
Qed.

(** After a proper prefix of a name that mentions no separator, the
    separator part of the pattern fails. *)
Lemma early_versus (t z a b : string) (caps : list string) :
  mentions versus_words t = false -> last_nonspace t = true ->
  stops isspace z = false -> t = a ++ b -> nonempty b = true ->
  run (space_then (Cat versus (space_then r))) (b ++ z) caps = None.
Proof.
  intros Hm Hl Hz E Hb. cbn [exec].
  erewrite plus_greedy_ext by (intros; apply exec_versus).
  apply (early_split_fails versus_words _ t z a b); auto.
  intros s Hs. now apply plus_greedy_stops.
Qed.

Lemma early_on_word (t z a b : string) (caps : list string) :
  mentions on_words t = false -> last_nonspace t = true ->
  stops isspace z = false -> t = a ++ b -> nonempty b = true ->
  run (space_then (Cat on_word (space_then r))) (b ++ z) caps = None.
Proof.
  intros Hm Hl Hz E Hb. cbn [exec].
  erewrite plus_greedy_ext by (intros; apply exec_on_word).
  apply (early_split_fails on_words _ t z a b); auto.
  intros s Hs. now apply plus_greedy_stops.
Qed.

(** [(.+?) r] captures the name [t] when [r] fails after each of its
    proper prefixes and succeeds after [t]. *)
Lemma run_name (t z : string) (caps : list string) x :
  tight t = true ->
  (forall a b caps', t = a ++ b -> nonempty a = true -> nonempty b = true ->
                     run r (b ++ z) caps' = None) ->
  run r z (caps ++ [t])%list = Some x ->
  run (Cat (Group (PlusLazy dot)) r) (t ++ z) caps = Some x.
Proof.
  intros Ht Hearly Hr. apply tight_parts in Ht as (Hdot & Hf & Hl).
  cbn [exec]. apply plus_lazy_found; auto.
  - now apply last_nonspace_nonempty.
  - intros a b E Ha Hb. now apply Hearly with (a := a).
  - now rewrite consumed_app.
Qed.

End Pieces.

(** The pattern on a sentence whose names are trimmed and mention no
    separator: the groups are the two names and the date, and what follows
    the date is left over. *)
Lemma rmatch_sentence (t1 w1 sep w2 t2 w3 on w4 d rest : string) :
  tight t1 = true -> tight t2 = true ->
  blank w1 = true -> blank w2 = true -> blank w3 = true -> blank w4 = true ->
  In sep versus_words -> In on on_words -> is_date d = true ->
  mentions versus_words t1 = false -> mentions on_words t2 = false ->
  rmatch pattern (sentence t1 w1 sep w2 t2 w3 on w4 d rest)
  = Some ([t1; t2; d], rest).
Proof.
  intros Ht1 Ht2 Hw1 Hw2 Hw3 Hw4 Hsep Hon Hd Hm1 Hm2.
  pose proof (tight_parts _ Ht1) as (_ & _ & Hl1).
  pose proof (tight_parts _ Ht2) as (_ & Hf2 & Hl2).
  unfold rmatch, pattern, sentence.
  apply run_name; [assumption | |].
  - intros a b caps' E Ha Hb.
    apply (early_versus _ t1 _ a b); auto. now apply blank_starts.
  - apply run_space_then; [assumption | now apply (word_starts versus_words) |].
    apply run_versus; [assumption | now apply blank_starts |].
    apply run_space_then; [assumption | now apply first_nonspace_stops |].
    apply run_name; [assumption | |].
    + intros a b caps' E Ha Hb.
      apply (early_on_word _ t2 _ a b); auto. now apply blank_starts.
    + apply run_space_then; [assumption | now apply (word_starts on_words) |].
      apply run_on_word; [assumption | now apply blank_starts |].
      apply run_space_then; [assumption | now apply is_date_stops |].
      now apply run_date.
Qed.

(* ================================================================= *)
(** ** [str.strip] *)

Lemma lstrip_spec (s : string) :
  exists l, s = l ++ lstrip s /\ all_chars isspace l = true
            /\ stops isspace (lstrip s) = true.
Proof.
  induction s as [|c s (l & E & Hl & Hs)].
  - exists "". auto.
  - simpl. destruct (isspace c) eqn:Hc.
    + exists (String c l). simpl. rewrite Hc, Hl. repeat split; auto.
      now rewrite <- E.
    + exists "". simpl. now rewrite Hc.
Qed.

Lemma rstrip_spec (s : string) :
  exists r, s = rstrip s ++ r /\ all_chars isspace r = true
            /\ (rstrip s = "" \/ last_nonspace (rstrip s) = true).
Proof.
  induction s as [|c s (r & E & Hr & Hs)].
  - exists "". auto.
  - simpl. destruct (rstrip s) as [|c' s'] eqn:Es.
    + destruct (isspace c) eqn:Hc.
      * exists (String c r). simpl in *. subst r. rewrite Hc, Hr. auto.
      * exists r. simpl in *. subst r. rewrite Hc. auto.
    + exists r. simpl in *. rewrite <- E. repeat split; auto.
      right. destruct Hs as [Hs|Hs]; [discriminate | exact Hs].
Qed.

Lemma rstrip_app (x y : string) :
  last_nonspace x = true -> rstrip (x ++ y) = x ++ rstrip y.
Proof.
  induction x as [|c x IH]; [discriminate|].
  intros H. destruct x as [|c' x].
  - simpl in *. destruct (rstrip y); [|reflexivity].
    now destruct (isspace c).
  - change (rstrip (String c (String c' x ++ y))
            = String c (String c' x ++ rstrip y)).
    cbn [rstrip]. rewrite IH by exact H. reflexivity.
Qed.

Lemma lstrip_app (l t : string) :
  all_chars isspace l = true -> stops isspace t = true ->
  lstrip (l ++ t) = t.
Proof.
  intros Hl Ht. induction l as [|c l IH]; simpl in *.
  - destruct t as [|c t]; [reflexivity|]. simpl in *.
    now destruct (isspace c).
  - apply andb_prop in Hl as [Hc Hl]. rewrite Hc. now apply IH.
Qed.

Lemma strip_fixed (t : string) :
  first_nonspace t = true -> last_nonspace t = true -> strip t = t.
Proof.
  intros Hf Hl. unfold strip.
  assert (E : lstrip t = t).
  { apply (lstrip_app "" t); [reflexivity|].
    destruct t; [discriminate | exact Hf]. }
  rewrite E. pose proof (rstrip_app t "" Hl) as R.
  rewrite app_empty_r in R. rewrite R. apply app_empty_r.
Qed.

(** A text with something in it besides whitespace is its trimmed form
    between two runs of whitespace. *)
Lemma strip_spec (g : string) :
  nonempty (strip g) = true ->
  exists l r, g = l ++ strip g ++ r
              /\ all_chars isspace l = true /\ all_chars isspace r = true
              /\ first_nonspace (strip g) = true
              /\ last_nonspace (strip g) = true.
Proof.
  intros Hne. unfold strip in *.
  destruct (lstrip_spec g) as (l & El & Hl & Hs).
  destruct (rstrip_spec (lstrip g)) as (r & Er & Hr & Hlast).
  exists l, r. repeat split; auto.
  - now rewrite <- Er.
  - destruct (rstrip (lstrip g)) as [|c t] eqn:E; [discriminate|].
    rewrite Er in Hs. exact Hs.
  - destruct Hlast as [E|H]; [now rewrite E in Hne | exact H].
Qed.

Lemma is_date_last (d : string) : is_date d = true -> last_nonspace d = true.
Proof.
  intros H. unfold is_date in H.
  do 10 (destruct d as [|? d]; [discriminate|]).
  destruct d; [|discriminate].
  do 9 (apply andb_prop in H as [H ?]).
  simpl. now rewrite isdigit_not_space.
Qed.

Lemma strip_date (d : string) : is_date d = true -> strip d = d.
Proof.
  intros H. apply strip_fixed; [|now apply is_date_last].
  pose proof (is_date_stops d "" H) as Hs. rewrite app_empty_r in Hs.
  destruct d; [discriminate | exact Hs].
Qed.

Lemma after_app_left (w b t r : string) :
  after w b = Some r -> after w (b ++ t) = Some (r ++ t).
Proof.
  revert b. induction w as [|c w IH]; intros b; simpl.
  - now intros [= ->].
  - destruct b as [|c' b]; [discriminate|]. simpl.
    destruct (Ascii.eqb c' c); [apply IH | discriminate].
Qed.

Lemma starts_word_app (words : list string) (b r : string) :
  all_chars isspace r = true ->
  starts_word words b = true -> starts_word words (b ++ r) = true.
Proof.
  intros Hr. unfold starts_word. rewrite !existsb_exists.
  intros (w & Hin & Hw). exists w. split; [assumption|].
  destruct (after w b) as [r'|] eqn:E; [|discriminate].
  rewrite (after_app_left _ _ r _ E).
  destruct r' as [|c r']; [|exact Hw].
  destruct r as [|c r]; [reflexivity|]. simpl in *.
  now apply andb_prop in Hr as [-> _].
Qed.

Lemma mentions_inside (words : list string) (l t r : string) :
  all_chars isspace r = true ->
  mentions words (l ++ t ++ r) = false -> mentions words t = false.
Proof.
  intros Hr H. induction l as [|c l IH].
  - simpl in H. induction t as [|c t IH]; [reflexivity|].
    simpl in *. apply orb_false_iff in H as [H1 H2].
    rewrite (IH H2), orb_false_r.
    destruct (isspace c); [|reflexivity]. simpl in *.
    destruct (starts_word words t) eqn:E; [|reflexivity].
    now rewrite (starts_word_app words t r Hr E) in H1.
  - simpl in H. apply orb_false_iff in H as [_ H]. now apply IH.
Qed.

Lemma all_chars_inside (p : ascii -> bool) (l t r : string) :
  all_chars p (l ++ t ++ r) = true -> all_chars p t = true.
Proof.
  rewrite !all_chars_app. intros H.
  apply andb_prop in H as [_ H]. now apply andb_prop in H as [H _].
Qed.

Lemma blank_app_l (a w : string) :
  all_chars isspace a = true -> blank w = true -> blank (a ++ w) = true.
Proof.
  unfold blank. intros Ha Hw0. pose proof Hw0 as Hw1.
  apply andb_prop in Hw1 as [Hne Hw].
  rewrite all_chars_app, Ha, Hw. destruct a; simpl; [|reflexivity].
  now rewrite Hne.
Qed.

Lemma blank_app_r (w a : string) :
  blank w = true -> all_chars isspace a = true -> blank (w ++ a) = true.
Proof.
  unfold blank. intros Hw Ha. apply andb_prop in Hw as [Hne Hw].
  rewrite all_chars_app, Ha, Hw. destruct w; [discriminate | reflexivity].
Qed.

(** ** [parse_user_input] on a sentence *)

Lemma parse_sentence (g1 w1 sep w2 g2 w3 on w4 d rest : string) :
  team_name g1 = true -> team_name g2 = true ->
  blank w1 = true -> blank w2 = true -> blank w3 = true -> blank w4 = true ->
  In sep versus_words -> In on on_words -> is_date d = true ->
  mentions versus_words g1 = false -> mentions on_words g2 = false ->
  parse_user_input (sentence g1 w1 sep w2 g2 w3 on w4 d rest)
  = Some (strip g1, strip g2, d).
Proof.
  intros Hg1 Hg2 Hw1 Hw2 Hw3 Hw4 Hsep Hon Hd Hm1 Hm2.
  unfold team_name in Hg1, Hg2.
  apply andb_prop in Hg1 as [Hdot1 Hne1]. apply andb_prop in Hg2 as [Hdot2 Hne2].
  destruct (strip_spec g1 Hne1) as (l1 & r1 & E1 & Hl1 & Hr1 & Hf1 & Hla1).
  destruct (strip_spec g2 Hne2) as (l2 & r2 & E2 & Hl2 & Hr2 & Hf2 & Hla2).
  set (t1 := strip g1) in *. set (t2 := strip g2) in *.
  assert (Ht1 : tight t1 = true).
  { unfold tight. rewrite Hf1, Hla1, andb_true_r, andb_true_r.
    rewrite E1 in Hdot1. now apply all_chars_inside in Hdot1. }
  assert (Ht2 : tight t2 = true).
  { unfold tight. rewrite Hf2, Hla2, andb_true_r, andb_true_r.
    rewrite E2 in Hdot2. now apply all_chars_inside in Hdot2. }
  assert (Hm1' : mentions versus_words t1 = false).
  { rewrite E1 in Hm1. now apply mentions_inside in Hm1. }
  assert (Hm2' : mentions on_words t2 = false).
  { rewrite E2 in Hm2. now apply mentions_inside in Hm2. }
  assert (Estrip :
    strip (sentence g1 w1 sep w2 g2 w3 on w4 d rest)
    = sentence t1 (r1 ++ w1) sep (w2 ++ l2) t2 (r2 ++ w3) on w4 d (rstrip rest)).
  { unfold sentence, strip. rewrite E1, E2.
    rewrite !app_assoc_s. rewrite lstrip_app;
      [| assumption | now apply first_nonspace_stops].
    rewrite <- !app_assoc_s.
    rewrite rstrip_app; [reflexivity|].
    rewrite last_nonspace_app; [now apply is_date_last|].
    destruct d; [discriminate | reflexivity]. }
  unfold parse_user_input. rewrite Estrip.
  rewrite rmatch_sentence; auto using blank_app_l, blank_app_r.
  - replace (sentence t1 (r1 ++ w1) sep (w2 ++ l2) t2 (r2 ++ w3) on w4 d
               (rstrip rest) =? "") with false.
    + rewrite (strip_fixed t1 Hf1 Hla1), (strip_fixed t2 Hf2 Hla2).
      now rewrite strip_date.
    + unfold sentence. destruct t1; [discriminate | reflexivity].
Qed.

(* ================================================================= *)
(** ** What parses, and what does not *)

Lemma try_words_inv {A : Type} (words : list string) (s : string)
      (k : string -> option A) (x : A) :
  try_words words s k = Some x ->
  exists w z, In w words /\ s = w ++ z /\ k z = Some x.
Proof.
  induction words as [|w0 ws IH]; [discriminate|]. cbn [try_words].
  destruct (after w0 s) as [r|] eqn:E.
  - destruct (k r) as [y|] eqn:Ek.
    + intros [= <-]. exists w0, r. split; [now left|].
      split; [now apply after_inv | exact Ek].
    + intros H. destruct (IH H) as (w & z & Hin & Hs & Hk).
      exists w, z. split; [now right | auto].
  - intros H. destruct (IH H) as (w & z & Hin & Hs & Hk).
    exists w, z. split; [now right | auto].
Qed.

Lemma try_words_complete {A : Type} (words : list string) (w z : string)
      (k : string -> option A) :
  In w words -> k z <> None -> try_words words (w ++ z) k <> None.
Proof.
  intros Hin Hk. induction words as [|w0 ws IH]; [contradiction|].
  cbn [try_words]. destruct Hin as [->|Hin].
  - rewrite after_app_same. destruct (k z); [discriminate | contradiction].
  - destruct (after w0 (w ++ z)) as [r|]; [|now apply IH].
    destruct (k r); [discriminate | now apply IH].
Qed.

Lemma run_date_inv (s rest : string) (caps caps' : list string) :
  run date_group s caps = Some (caps', rest) ->
  exists d, s = d ++ rest /\ is_date d = true /\ caps' = (caps ++ [d])%list.
Proof.
  unfold date_group. cbn [exec times]. intros H.
  destruct s as [|y1 s]; [discriminate|].
  destruct (isdigit y1) eqn:Ey1; [|discriminate].
  destruct s as [|y2 s]; [discriminate|].
  destruct (isdigit y2) eqn:Ey2; [|discriminate].
  destruct s as [|y3 s]; [discriminate|].
  destruct (isdigit y3) eqn:Ey3; [|discriminate].
  destruct s as [|y4 s]; [discriminate|].
  destruct (isdigit y4) eqn:Ey4; [|discriminate].
  destruct s as [|h1 s]; [discriminate|].
  destruct (Ascii.eqb h1 "-") eqn:Eh1; [|discriminate].
  destruct s as [|m1 s]; [discriminate|].
  destruct (isdigit m1) eqn:Em1; [|discriminate].
  destruct s as [|m2 s]; [discriminate|].
  destruct (isdigit m2) eqn:Em2; [|discriminate].
  destruct s as [|h2 s]; [discriminate|].
  destruct (Ascii.eqb h2 "-") eqn:Eh2; [|discriminate].
  destruct s as [|d1 s]; [discriminate|].
  destruct (isdigit d1) eqn:Ed1; [|discriminate].
  destruct s as [|d2 s]; [discriminate|].
  destruct (isdigit d2) eqn:Ed2; [|discriminate].
  injection H as <- <-.
  set (d := String y1 (String y2 (String y3 (String y4 (String h1
            (String m1 (String m2 (String h2 (String d1 (String d2 "")))))))))).
  exists d. split; [reflexivity|]. split.
  - unfold d, is_date.
    now rewrite Ey1, Ey2, Ey3, Ey4, Eh1, Em1, Em2, Eh2, Ed1, Ed2.
  - f_equal. f_equal. apply (consumed_app d s).
Qed.

(** Every match of the pattern is a sentence: a name, a listed
    separator, a name, [on], a date, with whitespace between them, then
    anything.  The groups are the two names and the date. *)
Lemma rmatch_sound (s rest : string) (caps : list string) :
  rmatch pattern s = Some (caps, rest) ->
  exists g1 w1 sep w2 g2 w3 on w4 d,
    s = sentence g1 w1 sep w2 g2 w3 on w4 d rest
    /\ caps = [g1; g2; d]
    /\ nonempty g1 = true /\ all_chars dot g1 = true
    /\ nonempty g2 = true /\ all_chars dot g2 = true
    /\ blank w1 = true /\ blank w2 = true /\ blank w3 = true /\ blank w4 = true
    /\ In sep versus_words /\ In on on_words /\ is_date d = true.
Proof.
  unfold rmatch, pattern. cbn [exec]. intros H.
  apply plus_lazy_inv in H as (g1 & z1 & -> & Hg1 & Hd1 & H).
  apply plus_greedy_inv in H as (w1 & z2 & -> & Hw1 & Hs1 & H).
  rewrite exec_versus in H.
  apply try_words_inv in H as (sep & z3 & Hsep & -> & H).
  apply plus_greedy_inv in H as (w2 & z4 & -> & Hw2 & Hs2 & H).
  apply plus_lazy_inv in H as (g2 & z5 & -> & Hg2 & Hd2 & H).
  apply plus_greedy_inv in H as (w3 & z6 & -> & Hw3 & Hs3 & H).
  rewrite exec_on_word in H.
  apply try_words_inv in H as (on & z7 & Hon & -> & H).
  apply plus_greedy_inv in H as (w4 & z8 & -> & Hw4 & Hs4 & H).
  apply run_date_inv in H as (d & -> & Hd & ->).
  exists g1, w1, sep, w2, g2, w3, on, w4, d.
  rewrite !consumed_app. unfold blank.
  rewrite Hw1, Hs1, Hw2, Hs2, Hw3, Hs3, Hw4, Hs4. cbn [andb app].
  repeat (split; [first [reflexivity | assumption]|]). assumption.
Qed.

(** Every sentence is matched, whatever its names hold. *)
Lemma rmatch_complete (g1 w1 sep w2 g2 w3 on w4 d rest : string) :
  nonempty g1 = true -> all_chars dot g1 = true ->
  nonempty g2 = true -> all_chars dot g2 = true ->
  blank w1 = true -> blank w2 = true -> blank w3 = true -> blank w4 = true ->
  In sep versus_words -> In on on_words -> is_date d = true ->
  rmatch pattern (sentence g1 w1 sep w2 g2 w3 on w4 d rest) <> None.
Proof.
  intros Hg1 Hd1 Hg2 Hd2 Hw1 Hw2 Hw3 Hw4 Hsep Hon Hd.
  apply blank_parts in Hw1 as [? ?]. apply blank_parts in Hw2 as [? ?].
  apply blank_parts in Hw3 as [? ?]. apply blank_parts in Hw4 as [? ?].
  unfold rmatch, pattern, sentence. cbn [exec].
  apply plus_lazy_complete; auto.
  apply plus_greedy_complete; auto.
  rewrite exec_versus. apply try_words_complete; auto.
  apply plus_greedy_complete; auto.
  apply plus_lazy_complete; auto.
  apply plus_greedy_complete; auto.
  rewrite exec_on_word. apply try_words_complete; auto.
  apply plus_greedy_complete; auto.
  rewrite run_date by assumption. discriminate.
Qed.

(** The trimmed input starts with a character that is not whitespace. *)
Lemma strip_starts (s : string) :
  nonempty (strip s) = true -> first_nonspace (strip s) = true.
Proof. intros H. now destruct (strip_spec s H) as (_ & _ & _ & _ & _ & Hf & _). Qed.

Lemma strip_blank (s : string) : all_chars isspace s = true -> strip s = "".
Proof.
  intros H. unfold strip.
  assert (E : lstrip s = "").
  { induction s as [|c s IH]; [reflexivity|]. simpl in *.
    apply andb_prop in H as [Hc Hs]. rewrite Hc. now apply IH. }
  now rewrite E.
Qed.

Lemma first_nonspace_strip (g z : string) :
  first_nonspace (g ++ z) = true -> nonempty g = true ->
  nonempty (strip g) = true.
Proof.
  destruct g as [|c g]; [discriminate|]. cbn [append first_nonspace].
  intros Hc _. unfold strip. cbn [lstrip].
  apply negb_true_iff in Hc. rewrite Hc. cbn [rstrip].
  destruct (rstrip g); [now rewrite Hc | reflexivity].
Qed.

(** Whatever [parse_user_input] accepts is, once trimmed, a sentence
    followed by anything, and the triple holds its two names, trimmed,
    and its date; the first name is never empty. *)
Lemma parse_sound (s t1 t2 d : string) :
  parse_user_input s = Some (t1, t2, d) ->
  exists g1 w1 sep w2 g2 w3 on w4 rest,
    strip s = sentence g1 w1 sep w2 g2 w3 on w4 d rest
    /\ t1 = strip g1 /\ t2 = strip g2
    /\ nonempty g1 = true /\ all_chars dot g1 = true
    /\ nonempty g2 = true /\ all_chars dot g2 = true
    /\ blank w1 = true /\ blank w2 = true /\ blank w3 = true /\ blank w4 = true
    /\ In sep versus_words /\ In on on_words /\ is_date d = true
    /\ nonempty t1 = true.
Proof.
  unfold parse_user_input.
  destruct (String.eqb_spec (strip s) "") as [|Hne]; [discriminate|].
  destruct (rmatch pattern (strip s)) as [[caps rest]|] eqn:E; [|discriminate].
  apply rmatch_sound in E
    as (g1 & w1 & sep & w2 & g2 & w3 & on & w4 & d' & Es & -> & Hrest).
  intros [= <- <- <-].
  destruct Hrest as (Hg1 & Hd1 & Hg2 & Hd2 & Hw1 & Hw2 & Hw3 & Hw4 & Hsep & Hon & Hd).
  exists g1, w1, sep, w2, g2, w3, on, w4, rest.
  rewrite (strip_date d' Hd).
  repeat (split; [first [reflexivity | assumption]|]).
  apply (first_nonspace_strip g1 (w1 ++ sep ++ w2 ++ g2 ++ w3 ++ on ++ w4 ++ d' ++ rest));
    [|assumption].
  fold (sentence g1 w1 sep w2 g2 w3 on w4 d' rest). rewrite <- Es.
  apply strip_starts. destruct (strip s); [contradiction | reflexivity].
Qed.

(** Every sentence is accepted, with or without text after its date. *)
Lemma parse_complete (g1 w1 sep w2 g2 w3 on w4 d rest : string) :
  team_name g1 = true -> nonempty g2 = true -> all_chars dot g2 = true ->
  blank w1 = true -> blank w2 = true -> blank w3 = true -> blank w4 = true ->
  In sep versus_words -> In on on_words -> is_date d = true ->
  parse_user_input (sentence g1 w1 sep w2 g2 w3 on w4 d rest) <> None.
Proof.
  intros Hg1 Hg2 Hd2 Hw1 Hw2 Hw3 Hw4 Hsep Hon Hd.
  unfold team_name in Hg1. apply andb_prop in Hg1 as [Hdot1 Hne1].
  destruct (strip_spec g1 Hne1) as (l1 & r1 & E1 & Hl1 & Hr1 & Hf1 & Hla1).
  set (t1 := strip g1) in *.
  assert (Estrip :
    strip (sentence g1 w1 sep w2 g2 w3 on w4 d rest)
    = sentence t1 (r1 ++ w1) sep w2 g2 w3 on w4 d (rstrip rest)).
  { unfold sentence, strip. rewrite E1.
    rewrite !app_assoc_s. rewrite lstrip_app;
      [| assumption | now apply first_nonspace_stops].
    rewrite <- !app_assoc_s.
    rewrite rstrip_app; [reflexivity|].
    rewrite last_nonspace_app; [now apply is_date_last|].
    destruct d; [discriminate | reflexivity]. }
  unfold parse_user_input. rewrite Estrip.
  replace (sentence t1 (r1 ++ w1) sep w2 g2 w3 on w4 d (rstrip rest) =? "")
    with false by (unfold sentence; destruct t1; [discriminate | reflexivity]).
  destruct (rmatch pattern _) as [[caps rest']|] eqn:E.
  - apply rmatch_sound in E as (? & ? & ? & ? & ? & ? & ? & ? & ? & _ & -> & _).
    discriminate.
  - exfalso. revert E. apply rmatch_complete; auto using blank_app_l.
    rewrite E1 in Hdot1. now apply all_chars_inside in Hdot1.
Qed.

(** An empty or blank input is not parsed. *)
Lemma parse_blank (s : string) :
  all_chars isspace s = true -> parse_user_input s = None.
Proof.
  intros H. unfold parse_user_input. now rewrite (strip_blank s H).
Qed.

(* ================================================================= *)
(** ** Text after the date does not change a match *)

Section FirstMatch.
Context {A : Type}.
Implicit Types (k : string -> option A) (p : ascii -> bool).




End FirstMatch.




Local Abbreviation tail_pattern :=
  (space_then (Cat on_word (space_then date_group))).











Local Abbreviation name_then r := (Cat (Group (PlusLazy dot)) r).
Local Abbreviation middle_pattern :=
  (space_then (Cat versus (space_then (name_then tail_pattern)))).








Lemma lstrip_lead (l x : string) :
  all_chars isspace l = true -> lstrip (l ++ x) = lstrip x.
Proof.
  induction l as [|c l IH]; [reflexivity|]. simpl.
  intros H. apply andb_prop in H as [Hc Hl]. rewrite Hc. now apply IH.
Qed.



Lemma strip_idem (s : string) : strip (strip s) = strip s.
Proof.
  destruct (nonempty (strip s)) eqn:Hne.
  - destruct (strip_spec s Hne) as (_ & _ & _ & _ & _ & Hf & Hl).
    now apply strip_fixed.
  - destruct (strip s); [reflexivity | discriminate].
Qed.

Lemma parse_strip (s : string) :
  parse_user_input (strip s) = parse_user_input s.
Proof. unfold parse_user_input. now rewrite strip_idem. Qed.

(* ================================================================= *)
(** ** The words of the statements are those of the program *)

Import Wording.

Lemma whitespace_isspace (c : ascii) : whitespace c = isspace c.
Proof. destruct c as [[|] [|] [|] [|] [|] [|] [|] [|]]; reflexivity. Qed.

Lemma digit_isdigit (c : ascii) : digit c = isdigit c.
Proof. destruct c as [[|] [|] [|] [|] [|] [|] [|] [|]]; reflexivity. Qed.

Lemma small_of_lower (c : ascii) :
  small_of capitals small_letters c = lower_char c.
Proof. destruct c as [[|] [|] [|] [|] [|] [|] [|] [|]]; reflexivity. Qed.

Lemma line_feed_dot (c : ascii) : negb (line_feed c) = dot c.
Proof. reflexivity. Qed.

Lemma all_chars_ext (p q : ascii -> bool) (s : string) :
  (forall c, p c = q c) -> all_chars p s = all_chars q s.
Proof.
  intros H. induction s as [|c s IH]; [reflexivity|].
  simpl. now rewrite H, IH.
Qed.

Lemma gap_blank (w : string) : gap w = blank w.
Proof.
  unfold gap, blank. f_equal. apply all_chars_ext, whitespace_isspace.
Qed.

Lemma date_text_is_date (d : string) : date_text d = is_date d.
Proof.
  unfold date_text, is_date.
  do 10 (destruct d as [|? d]; [reflexivity|]).
  destruct d; [|reflexivity].
  cbn [list_ascii_of_string forallb]. rewrite !digit_isdigit.
  repeat match goal with
         | |- context [isdigit ?x] => destruct (isdigit x)
         end; cbn [andb]; try reflexivity;
    repeat match goal with
           | |- context [Ascii.eqb ?x ?y] => destruct (Ascii.eqb x y)
           end; reflexivity.
Qed.

Lemma skip_whitespace_lstrip (s : string) : skip_whitespace s = lstrip s.
Proof.
  induction s as [|c s IH]; [reflexivity|].
  simpl. rewrite whitespace_isspace, IH. reflexivity.
Qed.

Lemma reverse_app (a b : string) : reverse (a ++ b) = reverse b ++ reverse a.
Proof.
  induction a as [|c a IH]; simpl.
  - now rewrite app_empty_r.
  - now rewrite IH, app_assoc_s.
Qed.

Lemma reverse_reverse (s : string) : reverse (reverse s) = s.
Proof.
  induction s as [|c s IH]; [reflexivity|].
  simpl. rewrite reverse_app, IH. reflexivity.
Qed.

Lemma all_chars_reverse (p : ascii -> bool) (s : string) :
  all_chars p (reverse s) = all_chars p s.
Proof.
  induction s as [|c s IH]; [reflexivity|].
  simpl. rewrite all_chars_app, IH. simpl.
  rewrite andb_true_r. apply andb_comm.
Qed.

Lemma reverse_last (s : string) :
  last_nonspace s = true -> stops isspace (reverse s) = true.
Proof.
  induction s as [|c s IH]; [discriminate|]. intros H.
  destruct s as [|c' s].
  - simpl in *. exact H.
  - change (reverse (String c (String c' s)))
      with (reverse (String c' s) ++ String c "").
    specialize (IH H). destruct (reverse (String c' s)) as [|x r] eqn:E.
    + apply (f_equal reverse) in E. rewrite reverse_reverse in E.
      discriminate.
    + exact IH.
Qed.

Lemma rstrip_reverse (s : string) : rstrip s = reverse (lstrip (reverse s)).
Proof.
  destruct (rstrip_spec s) as (r & E & Hr & Hlast).
  rewrite E at 2. rewrite reverse_app.
  rewrite lstrip_lead by now rewrite all_chars_reverse.
  destruct Hlast as [Hl | Hl].
  - now rewrite Hl.
  - assert (E' : lstrip (reverse (rstrip s)) = reverse (rstrip s)).
    { apply (lstrip_app "" _); [reflexivity | now apply reverse_last]. }
    rewrite E'. symmetry. apply reverse_reverse.
Qed.

Lemma trim_strip (s : string) : trim s = strip s.
Proof.
  unfold trim, strip. rewrite !skip_whitespace_lstrip.
  symmetry. apply rstrip_reverse.
Qed.

Lemma strip_nonblank (g : string) :
  nonempty (strip g) = negb (all_chars isspace g).
Proof.
  destruct (all_chars isspace g) eqn:E.
  - now rewrite (strip_blank g E).
  - unfold strip. induction g as [|c g IH]; [discriminate|].
    simpl in *. destruct (isspace c) eqn:Hc; simpl in E.
    + now apply IH.
    + simpl. destruct (rstrip g); [now rewrite Hc | reflexivity].
Qed.

Lemma name_text_team_name (g : string) : name_text g = team_name g.
Proof.
  unfold name_text, team_name. rewrite strip_nonblank.
  rewrite (all_chars_ext whitespace isspace g whitespace_isspace).
  reflexivity.
Qed.

Lemma after_prefix (w s : string) :
  after w s
  = if String.prefix w s then Some (without_first (String.length w) s)
    else None.
Proof.
  revert s. induction w as [|c w IH]; intros s.
  - now destruct s.
  - destruct s as [|c' s]; [reflexivity|]. simpl.
    rewrite Ascii.eqb_sym.
    destruct (Ascii.ascii_dec c c') as [->|Hne].
    + rewrite Ascii.eqb_refl. apply IH.
    + apply Ascii.eqb_neq in Hne. now rewrite Hne.
Qed.

Lemma word_at_start_after (w s : string) :
  word_at_start w s
  = match after w s with Some r => boundary r | None => false end.
Proof.
  unfold word_at_start. rewrite after_prefix.
  destruct (String.prefix w s); [|reflexivity]. cbn [andb]. unfold boundary.
  destruct (without_first (String.length w) s); [reflexivity|].
  apply whitespace_isspace.
Qed.

Lemma word_at_start_starts_word (words : list string) (s : string) :
  existsb (fun w => word_at_start w s) words = starts_word words s.
Proof.
  unfold starts_word. induction words as [|w words IHw]; [reflexivity|].
  cbn [existsb]. now rewrite word_at_start_after, IHw.
Qed.

Lemma holds_word_mentions (words : list string) (s : string) :
  holds_word words s = mentions words s.
Proof.
  induction s as [|c s IH]; [reflexivity|].
  cbn [holds_word mentions].
  now rewrite IH, whitespace_isspace, word_at_start_starts_word.
Qed.

Lemma same_letter_lower (a b : ascii) :
  same_letter a b = true <-> lower_char a = lower_char b.
Proof.
  unfold same_letter. rewrite !small_of_lower. apply Ascii.eqb_eq.
Qed.

Lemma starts_with_prefix (a s : string) :
  starts_with a s = String.prefix (lower a) (lower s).
Proof.
  revert s. induction a as [|x a IH]; intros s.
  - now destruct s.
  - destruct s as [|y s]; [reflexivity|].
    cbn [starts_with lower String.prefix].
    destruct (Ascii.ascii_dec (lower_char x) (lower_char y)) as [E|E].
    + apply same_letter_lower in E. rewrite E. apply IH.
    + destruct (same_letter x y) eqn:H; [|reflexivity].
      apply same_letter_lower in H. contradiction.
Qed.

Lemma occurs_contains (a s : string) :
  occurs a s = contains (lower a) (lower s).
Proof.
  induction s as [|y s IH].
  - cbn [occurs contains lower]. now rewrite starts_with_prefix.
  - cbn [occurs contains lower]. rewrite starts_with_prefix, IH.
    reflexivity.
Qed.

Lemma length_lower (s : string) : String.length (lower s) = String.length s.
Proof. induction s as [|c s IH]; simpl; [reflexivity | now rewrite IH]. Qed.

Lemma prefix_same_length (a b : string) :
  String.length a = String.length b ->
  String.prefix a b = String.eqb a b.
Proof.
  revert b. induction a as [|x a IH]; intros b H.
  - destruct b; [reflexivity | discriminate].
  - destruct b as [|y b]; [discriminate|]. simpl in *.
    destruct (Ascii.ascii_dec x y) as [->|Hne].
    + rewrite Ascii.eqb_refl. apply IH. lia.
    + apply Ascii.eqb_neq in Hne. now rewrite Hne.
Qed.

Lemma same_word_lower (a b : string) :
  same_word a b = String.eqb (lower a) (lower b).
Proof.
  unfold same_word. rewrite starts_with_prefix.
  destruct (Nat.eqb_spec (String.length a) (String.length b)) as [E|E].
  - cbn [andb]. apply prefix_same_length. now rewrite !length_lower.
  - cbn [andb]. symmetry. apply String.eqb_neq. intros H.
    apply E. rewrite <- (length_lower a), <- (length_lower b). now rewrite H.
Qed.

Lemma blank_all_whitespace (s : string) :
  all_chars whitespace s = all_chars isspace s.
Proof. apply all_chars_ext, whitespace_isspace. Qed.

(** What [parse_user_input] accepts of ASCII text.  A triple it returns
    is read off the trimmed input: a first name, a separator between
    whitespace, a second name, a date word between whitespace and a
    date, then anything; both names come back trimmed and the first is
    never empty.  Every input of that form is accepted, and an input of
    whitespace only is not. *)
Theorem parse_accepts_sentences (s : string) :
  ascii_text s = true ->
  (forall t1 t2 d,
     parse_user_input s = Some (t1, t2, d) ->
     exists g1 w1 sep w2 g2 w3 on w4 rest,
       trim s = sentence g1 w1 sep w2 g2 w3 on w4 d rest
       /\ t1 = trim g1 /\ t2 = trim g2 /\ nonempty t1 = true
       /\ one_line g1 = true
       /\ nonempty g2 = true /\ one_line g2 = true
       /\ gap w1 = true /\ gap w2 = true
       /\ gap w3 = true /\ gap w4 = true
       /\ In sep versus_words /\ In on on_words /\ date_text d = true)
  /\ ((exists g1 w1 sep w2 g2 w3 on w4 d rest,
         trim s = sentence g1 w1 sep w2 g2 w3 on w4 d rest
         /\ nonempty g1 = true /\ one_line g1 = true
         /\ nonempty g2 = true /\ one_line g2 = true
         /\ gap w1 = true /\ gap w2 = true
         /\ gap w3 = true /\ gap w4 = true
         /\ In sep versus_words /\ In on on_words /\ date_text d = true) ->
      parse_user_input s <> None)
  /\ (all_chars whitespace s = true -> parse_user_input s = None).
Proof.
  intros _. split; [| split].
  - intros t1 t2 d H.
    destruct (parse_sound s t1 t2 d H)
      as (g1 & w1 & sep & w2 & g2 & w3 & on & w4 & rest & Es & E1 & E2 & _
          & Hd1 & Hg2 & Hd2 & Hw1 & Hw2 & Hw3 & Hw4 & Hsep & Hon & Hd & Ht1).
    exists g1, w1, sep, w2, g2, w3, on, w4, rest.
    rewrite !trim_strip, !gap_blank, date_text_is_date.
    repeat (split; [assumption|]). assumption.
  - intros (g1 & w1 & sep & w2 & g2 & w3 & on & w4 & d & rest & Es & Hg1 & Hd1
            & Hg2 & Hd2 & Hw1 & Hw2 & Hw3 & Hw4 & Hsep & Hon & Hd).
    rewrite trim_strip in Es. rewrite gap_blank in Hw1, Hw2, Hw3, Hw4.
    rewrite date_text_is_date in Hd.
    change (all_chars dot g1 = true) in Hd1.
    change (all_chars dot g2 = true) in Hd2.
    rewrite <- parse_strip, Es. apply parse_complete; auto.
    unfold team_name. rewrite Hd1. simpl.
    apply (first_nonspace_strip g1
             (w1 ++ sep ++ w2 ++ g2 ++ w3 ++ on ++ w4 ++ d ++ rest));
      [| assumption].
    change (first_nonspace (sentence g1 w1 sep w2 g2 w3 on w4 d rest) = true).
    rewrite <- Es. apply strip_starts. rewrite Es.
    unfold sentence. now destruct g1.
  - rewrite blank_all_whitespace. apply parse_blank.
Qed.

Lemma parse_accepts_sentences_witness :
  parse_user_input "Real Madrid v Barcelona on 2023-10-28, please" <> None
  /\ parse_user_input "   " = None.
Proof.
  destruct (parse_accepts_sentences
              "Real Madrid v Barcelona on 2023-10-28, please" eq_refl)
    as (_ & H2 & _).
  destruct (parse_accepts_sentences "   " eq_refl) as (_ & _ & H3).
  split; [|exact (H3 eq_refl)].
  apply H2.
  exists "Real Madrid", " ", "v", " ", "Barcelona", " ", "on", " ",
    "2023-10-28", ", please".
  repeat (split; [reflexivity || (simpl; auto) |]). reflexivity.
Defined.

(** An ASCII sentence whose first name holds no separator word and whose
    second holds no date word is parsed to its two names, trimmed, and
    its date; the date is ten characters of the right shape and no more
    is asked of it. *)
Theorem parse_names_of_sentence
        (g1 w1 sep w2 g2 w3 on w4 d rest : string) :
  ascii_text (sentence g1 w1 sep w2 g2 w3 on w4 d rest) = true ->
  name_text g1 = true -> name_text g2 = true ->
  gap w1 = true -> gap w2 = true -> gap w3 = true -> gap w4 = true ->
  In sep versus_words -> In on on_words -> date_text d = true ->
  holds_word versus_words g1 = false -> holds_word on_words g2 = false ->
  parse_user_input (sentence g1 w1 sep w2 g2 w3 on w4 d rest)
  = Some (trim g1, trim g2, d).
Proof.
  rewrite !name_text_team_name, !gap_blank, date_text_is_date,
    !holds_word_mentions, !trim_strip.
  intros. now apply parse_sentence.
Qed.

Lemma parse_names_of_sentence_witness :
  parse_user_input "  Real Madrid  v Barcelona on  2024-13-99 "
  = Some ("Real Madrid", "Barcelona", "2024-13-99").
Proof.
  apply (parse_names_of_sentence "  Real Madrid" "  " "v" " " "Barcelona" " "
           "on" "  " "2024-13-99" " "
           eq_refl eq_refl eq_refl eq_refl eq_refl eq_refl eq_refl
           (or_intror (or_intror (or_introl eq_refl))) (or_introl eq_refl)
           eq_refl eq_refl eq_refl).
Defined.

(** When the second name comes back empty, text after the date can
    change the answer. *)
Theorem blank_second_name_not_kept :
  parse_user_input "A vs   on 2024-01-01" = Some ("A", "", "2024-01-01")
  /\ parse_user_input ("A vs   on 2024-01-01" ++ " on 2024-02-02")
     = Some ("A", "on 2024-01-01", "2024-02-02").
Proof. split; reflexivity. Qed.

(* ================================================================= *)
(** ** The statistics client *)

Import Py ApiClient Contract.

(** A failed request is reported by one of the two error tests that
    both operations run on the result of [_make_request]. *)
Lemma failed_request_detected (requests_get : http) (endpoint : string)
      (ps : params) :
  failed (requests_get (BASE_URL ++ "/" ++ endpoint) ps) = true ->
  exists response,
    _make_request requests_get endpoint ps = Ok response
    /\ (internal_error response = Ok true
        \/ (internal_error response = Ok false
            /\ upstream_error response = Ok true)).
Proof.
  unfold _make_request. intros H.
  destruct (requests_get _ ps) as [| | |st text body];
    try (eexists; split; [reflexivity | now left]).
  cbn [failed] in H.
  assert (Hlook : look_at_body body = Ok tt).
  { destruct body as [[msg|msg|e]|j]; try reflexivity. discriminate. }
  rewrite Hlook. cbn [bind].
  destruct (Z.eqb st 401); [eexists; split; [reflexivity | now left]|].
  destruct (Z.eqb st 403); [eexists; split; [reflexivity | now left]|].
  destruct (Z.eqb st 429); [eexists; split; [reflexivity | now left]|].
  destruct (Z.eqb st 200); cbn [negb];
    [|eexists; split; [reflexivity | now left]].
  destruct body as [[msg|msg|e]|j]; try discriminate.
  - eexists. split; [reflexivity | now left].
  - cbn [negb orb] in H. destruct j as [| | | | |d]; try discriminate.
    destruct (lookup "errors" d) as [e|] eqn:El; [|discriminate].
    destruct e as [| | | |l|]; try discriminate.
    destruct l as [|x l]; [discriminate|].
    exists (JObj d). split; [reflexivity|].
    right. unfold internal_error, upstream_error. simpl.
    repeat (rewrite El; simpl). split; reflexivity.
Qed.

Lemma find_fixture_failed (requests_get : http) (team1 team2 date : string) :
  failed (requests_get (BASE_URL ++ "/" ++ "fixtures") [("date", JStr date)])
  = true ->
  find_fixture requests_get team1 team2 date = Ok None.
Proof.
  intros H. apply failed_request_detected in H as (response & Hr & H).
  unfold find_fixture. rewrite Hr. cbn [bind].
  destruct H as [-> | [-> ->]]; reflexivity.
Qed.

Lemma get_player_stats_failed (requests_get : http) (fixture_id : Z) :
  failed (requests_get (BASE_URL ++ "/" ++ "fixtures/players")
            [("fixture", JNum fixture_id)]) = true ->
  get_player_stats requests_get fixture_id = Ok (JArr []).
Proof.
  intros H. apply failed_request_detected in H as (response & Hr & H).
  unfold get_player_stats. rewrite Hr. cbn [bind].
  destruct H as [-> | [-> ->]]; reflexivity.
Qed.

(** C1, at the failing inputs.  A response, of any status, whose body
    is nested too deeply to be decoded (some 200000 opening brackets,
    say): the look that [_make_request] takes at the body for its debug
    record raises [RecursionError], which no handler catches, and both
    operations raise instead of returning [None] and the empty list.  A
    200 whose body holds an integer of more than 4300 digits, whatever
    its errors field lists: the [ValueError] of the last
    [response.json()] meets no handler either.  A body that is simply
    not JSON is handled, whatever the status. *)
Theorem C1_decoding_failures_escape (status_code : Z) (text msg : string)
        (team1 team2 date : string) (fixture_id : Z) :
  find_fixture
    (Sample.answering (Response status_code text (inl (Raises RecursionError))))
    team1 team2 date
  = Raise RecursionError
  /\ get_player_stats
       (Sample.answering
          (Response status_code text (inl (Raises RecursionError))))
       fixture_id
     = Raise RecursionError
  /\ find_fixture
       (Sample.answering (Response 200 text (inl (NotDecoded msg))))
       team1 team2 date
     = Raise (ValueError msg)
  /\ get_player_stats
       (Sample.answering (Response 200 text (inl (NotDecoded msg))))
       fixture_id
     = Raise (ValueError msg)
  /\ find_fixture
       (Sample.answering (Response status_code text (inl (NotJson msg))))
       team1 team2 date
     = Ok None
  /\ get_player_stats
       (Sample.answering (Response status_code text (inl (NotJson msg))))
       fixture_id
     = Ok (JArr []).
Proof.
  split; [reflexivity|]. split; [reflexivity|].
  split; [reflexivity|]. split; [reflexivity|].
  split; [now apply find_fixture_failed | now apply get_player_stats_failed].
Qed.

(** Whatever way a request fails that the client handles (no response,
    a status other than 200, a body that is not JSON, or a 200 whose
    envelope lists errors, the body being one that can be looked at),
    [find_fixture] returns [None] and [get_player_stats] returns the empty
    list, and neither raises. *)
Theorem handled_failures_degrade (requests_get : http)
        (team1 team2 date : string) (fixture_id : Z) :
  (failed (requests_get (BASE_URL ++ "/" ++ "fixtures") [("date", JStr date)])
   = true ->
   find_fixture requests_get team1 team2 date = Ok None)
  /\ (failed (requests_get (BASE_URL ++ "/" ++ "fixtures/players")
                [("fixture", JNum fixture_id)]) = true ->
      get_player_stats requests_get fixture_id = Ok (JArr [])).
Proof.
  split; [apply find_fixture_failed | apply get_player_stats_failed].
Qed.

Lemma handled_failures_degrade_witness :
  find_fixture
    (Sample.answering (Response 429 "slow down" (inl (NotJson "no JSON"))))
    "Real Madrid" "Barcelona" "2023-10-28" = Ok None
  /\ get_player_stats (Sample.answering Timeout) 12345 = Ok (JArr []).
Proof.
  destruct (handled_failures_degrade
              (Sample.answering
                 (Response 429 "slow down" (inl (NotJson "no JSON"))))
              "Real Madrid" "Barcelona" "2023-10-28" 12345) as [H1 _].
  destruct (handled_failures_degrade (Sample.answering Timeout)
              "Real Madrid" "Barcelona" "2023-10-28" 12345) as [_ H2].
  split; [apply H1 | apply H2]; reflexivity.
Defined.

Lemma teams_match_swap (a b h w : string) :
  teams_match a b h w = teams_match b a h w.
Proof.
  unfold teams_match.
  destruct (contains a h), (contains b w), (contains a w), (contains b h);
    reflexivity.
Qed.

Lemma matches_swap (team1 team2 : string) (f : json) :
  matches team1 team2 f = matches team2 team1 f.
Proof.
  unfold matches. destruct (fixture_teams f) as [[hn an]|]; [|reflexivity].
  destruct (occurs team1 hn), (occurs team2 an), (occurs team1 an),
    (occurs team2 hn); reflexivity.
Qed.

(** One step of a monadic equation: both sides run the same computation
    first, and agree after it. *)
Ltac step_bind :=
  match goal with
  | |- bind ?m _ = bind ?m _ =>
      let x := fresh "x" in destruct m as [x|]; [cbn [bind] | reflexivity]
  end.

Lemma scan_fixtures_swap (team1 team2 : string) (fixtures : list json) :
  scan_fixtures team1 team2 fixtures = scan_fixtures team2 team1 fixtures.
Proof.
  induction fixtures as [|f fixtures IH]; [reflexivity|].
  cbn [scan_fixtures]. step_bind.
  destruct (negb (truthy x)); [exact IH|].
  repeat step_bind.
  rewrite teams_match_swap, IH. reflexivity.
Qed.

Lemma find_fixture_swap (requests_get : http) (team1 team2 date : string) :
  find_fixture requests_get team1 team2 date
  = find_fixture requests_get team2 team1 date.
Proof.
  unfold find_fixture. step_bind. step_bind.
  match goal with |- (if ?b then _ else _) = _ => destruct b end;
    [reflexivity|].
  step_bind.
  match goal with |- (if ?b then _ else _) = _ => destruct b end;
    [reflexivity|].
  repeat step_bind. apply scan_fixtures_swap.
Qed.

(** A fixture without team data is passed over, and matches nothing. *)
Lemma scan_fixtures_teamless (team1 team2 : string) (f : json)
      (fixtures : list json) :
  teamless f = true ->
  scan_fixtures team1 team2 (f :: fixtures) = scan_fixtures team1 team2 fixtures
  /\ matches team1 team2 f = false.
Proof.
  unfold teamless, matches, fixture_teams. cbn [scan_fixtures].
  destruct f as [| | | | |d]; try discriminate. cbn [get bind].
  destruct (lookup "teams" d) as [t|]; [|split; reflexivity].
  intros H. apply negb_true_iff in H. rewrite H. cbn [negb]. split; [reflexivity|].
  destruct t as [| | | | |t]; try reflexivity.
  destruct t; [reflexivity | discriminate].
Qed.

(** On a fixture that carries both names the loop runs the test that
    [matches] states. *)
Lemma scan_fixtures_named (team1 team2 hn an : string) (f : json)
      (fixtures : list json) :
  fixture_teams f = Some (hn, an) ->
  scan_fixtures team1 team2 (f :: fixtures)
  = if matches team1 team2 f then Ok (Some f)
    else scan_fixtures team1 team2 fixtures.
Proof.
  unfold matches. intros H. rewrite H. revert H.
  unfold fixture_teams. cbn [scan_fixtures].
  destruct f as [| | | | |d]; try discriminate. cbn [get item bind].
  destruct (lookup "teams" d) as [t|]; [|discriminate].
  destruct t as [| | | | |t]; try discriminate.
  destruct (lookup "home" t) as [[| | | | |h]|] eqn:Eh; try discriminate.
  destruct (lookup "away" t) as [[| | | | |a]|] eqn:Ea; try discriminate.
  destruct (lookup "name" h) as [[| | |hn'| |]|] eqn:Ehn; try discriminate.
  destruct (lookup "name" a) as [[| | |an'| |]|] eqn:Ean; try discriminate.
  intros [= -> ->].
  assert (Ht : truthy (JObj t) = true) by (destruct t; [discriminate | reflexivity]).
  rewrite Ht. cbn [negb item bind]. rewrite Eh, Ea. cbn [item bind].
  rewrite Ehn, Ean. cbn [lower_of bind].
  unfold teams_match. rewrite !occurs_contains. reflexivity.
Qed.

Lemma scan_fixtures_find (team1 team2 : string) (fixtures : list json) :
  forallb well_formed fixtures = true ->
  scan_fixtures team1 team2 fixtures = Ok (find (matches team1 team2) fixtures).
Proof.
  induction fixtures as [|f fixtures IH]; [reflexivity|].
  intros H. cbn [forallb] in H. apply andb_prop in H as [Hf Hrest].
  specialize (IH Hrest). cbn [find].
  unfold well_formed in Hf. apply orb_prop in Hf as [Hf|Hf].
  - destruct (scan_fixtures_teamless team1 team2 f fixtures Hf) as [-> ->].
    exact IH.
  - destruct (fixture_teams f) as [[hn an]|] eqn:E; [|discriminate].
    rewrite (scan_fixtures_named team1 team2 hn an f fixtures E).
    destruct (matches team1 team2 f); [reflexivity | exact IH].
Qed.

(** The loop goes past the fixtures that do not match and stops at the
    first that does, whatever follows it. *)
Lemma scan_fixtures_reaches (team1 team2 : string) (before after : list json)
      (f : json) :
  forallb well_formed before = true ->
  forallb (fun g => negb (matches team1 team2 g)) before = true ->
  matches team1 team2 f = true ->
  scan_fixtures team1 team2 (before ++ f :: after)%list = Ok (Some f).
Proof.
  intros Hwf Hno Hf. induction before as [|g before IH].
  - cbn [app]. unfold matches in Hf.
    destruct (fixture_teams f) as [[hn an]|] eqn:E; [|discriminate].
    rewrite (scan_fixtures_named team1 team2 hn an f after E).
    unfold matches. now rewrite E, Hf.
  - cbn [forallb] in Hwf, Hno.
    apply andb_prop in Hwf as [Hg Hwf]. apply andb_prop in Hno as [Hng Hno].
    apply negb_true_iff in Hng. specialize (IH Hwf Hno).
    change ((g :: before) ++ f :: after)%list
      with (g :: (before ++ f :: after))%list.
    unfold well_formed in Hg. apply orb_prop in Hg as [Hg|Hg].
    + now destruct (scan_fixtures_teamless team1 team2 g
                      (before ++ f :: after)%list Hg) as [-> _].
    + destruct (fixture_teams g) as [[hn an]|] eqn:E; [|discriminate].
      rewrite (scan_fixtures_named team1 team2 hn an g _ E).
      now rewrite Hng.
Qed.

(** After a 200 with an envelope that reports no error, [find_fixture]
    is its loop over the fixtures of the response. *)
Lemma find_fixture_quiet (requests_get : http) (team1 team2 date text : string)
      (d : list (string * json)) (fixtures : list json) :
  requests_get (BASE_URL ++ "/" ++ "fixtures") [("date", JStr date)]
  = Response 200 text (inr (JObj d)) ->
  quiet d = true ->
  lookup "response" d = Some (JArr fixtures) ->
  find_fixture requests_get team1 team2 date
  = scan_fixtures team1 team2 fixtures.
Proof.
  intros Hget Hq Hresp.
  assert (Hreq : _make_request requests_get "fixtures" [("date", JStr date)]
                 = Ok (JObj d)).
  { unfold _make_request. now rewrite Hget. }
  unfold find_fixture. rewrite Hreq. cbn [bind].
  unfold internal_error, upstream_error, quiet in *. cbn [has get item bind].
  destruct (lookup "errors" d) as [e|].
  - apply andb_prop in Hq as [He Hs]. apply negb_true_iff in He, Hs.
    cbn [bind]. rewrite Hs. cbn [bind]. rewrite He. cbn [bind].
    rewrite Hresp. reflexivity.
  - cbn [bind]. rewrite Hresp. reflexivity.
Qed.

Lemma find_fixture_listed (requests_get : http) (team1 team2 date text : string)
      (d : list (string * json)) (fixtures : list json) :
  requests_get (BASE_URL ++ "/" ++ "fixtures") [("date", JStr date)]
  = Response 200 text (inr (JObj d)) ->
  quiet d = true ->
  lookup "response" d = Some (JArr fixtures) ->
  forallb well_formed fixtures = true ->
  find_fixture requests_get team1 team2 date
  = Ok (find (matches team1 team2) fixtures).
Proof.
  intros Hget Hq Hresp Hwf.
  rewrite (find_fixture_quiet _ team1 team2 _ _ _ _ Hget Hq Hresp).
  now apply scan_fixtures_find.
Qed.

(** C5. [find_fixture] does not depend on the order of its two team
    names (whether it returns a fixture, [None], or raises).  In a list
    that holds the fixture Real Madrid v Barcelona, after fixtures with
    ASCII names that do not match the two names and before any others,
    both orders return that fixture. *)
Theorem C5_find_fixture_order (requests_get : http)
        (team1 team2 date : string) (before after : list json) :
  find_fixture requests_get team1 team2 date
  = find_fixture requests_get team2 team1 date
  /\ (forallb well_formed before = true ->
      forallb ascii_named before = true ->
      forallb (fun g => negb (matches "Real Madrid" "Barcelona" g)) before
      = true ->
      find_fixture
        (Sample.serving
           (Sample.envelope (before ++ Sample.clasico :: after)%list))
        "Real Madrid" "Barcelona" date = Ok (Some Sample.clasico)
      /\ find_fixture
           (Sample.serving
              (Sample.envelope (before ++ Sample.clasico :: after)%list))
           "Barcelona" "Real Madrid" date = Ok (Some Sample.clasico)).
Proof.
  split; [apply find_fixture_swap|].
  intros Hwf _ Hno.
  assert (H : find_fixture
                (Sample.serving
                   (Sample.envelope (before ++ Sample.clasico :: after)%list))
                "Real Madrid" "Barcelona" date = Ok (Some Sample.clasico)).
  { rewrite (find_fixture_quiet _ "Real Madrid" "Barcelona" date ""
               [("errors", JArr []);
                ("response", JArr (before ++ Sample.clasico :: after)%list)]
               (before ++ Sample.clasico :: after)%list
               eq_refl eq_refl eq_refl).
    now apply scan_fixtures_reaches. }
  split; [exact H|]. now rewrite find_fixture_swap.
Qed.

Lemma C5_witness :
  find_fixture
    (Sample.serving
       (Sample.envelope
          [Sample.fixture 1 "Arsenal" "Chelsea";
           JObj [("fixture", JObj [("id", JNum 2)])];
           Sample.fixture 3 "Real Sociedad" "Barcelona";
           Sample.clasico;
           Sample.fixture 5 "Real Madrid" "Barcelona"]))
    "Real Madrid" "Barcelona" "2023-10-28" = Ok (Some Sample.clasico)
  /\ find_fixture
       (Sample.serving
          (Sample.envelope
             [Sample.fixture 1 "Arsenal" "Chelsea";
              JObj [("fixture", JObj [("id", JNum 2)])];
              Sample.fixture 3 "Real Sociedad" "Barcelona";
              Sample.clasico;
              Sample.fixture 5 "Real Madrid" "Barcelona"]))
       "Barcelona" "Real Madrid" "2023-10-28" = Ok (Some Sample.clasico).
Proof.
  destruct (C5_find_fixture_order
              (Sample.serving (Sample.envelope []))
              "Real Madrid" "Barcelona" "2023-10-28"
              [Sample.fixture 1 "Arsenal" "Chelsea";
               JObj [("fixture", JObj [("id", JNum 2)])];
               Sample.fixture 3 "Real Sociedad" "Barcelona"]
              [Sample.fixture 5 "Real Madrid" "Barcelona"]) as [_ H].
  exact (H eq_refl eq_refl eq_refl).
Defined.



(* ================================================================= *)
(** ** The minutes filter *)

Import Tools.

Lemma lookup_store (k : string) (v : json) (d : list (string * json)) :
  lookup k (store k v d) = Some v.
Proof.
  induction d as [|[k' v'] d IH]; simpl.
  - now rewrite String.eqb_refl.
  - destruct (String.eqb k' k) eqn:E; simpl; now rewrite E.
Qed.

(** The test of the filter is [keeps]. *)
Lemma played_minutes_keeps (player pm : json) (b : bool) :
  played_minutes player = Ok pm -> gt pm 5 = Ok b -> b = keeps player.
Proof.
  unfold played_minutes, keeps, minutes_of.
  destruct player as [| | | | |d]; try discriminate. cbn [get item bind].
  destruct (lookup "statistics" d) as [s|]; cbn [bind truthy];
    [|now intros [= <-] [= <-]].
  destruct s as [|[|]|z|s|[|first l]|[|kv s]]; cbn;
    try discriminate; try (now intros [= <-] [= <-]).
  - destruct (Z.eqb z 0); cbn; [now intros [= <-] [= <-] | discriminate].
  - destruct s as [|c s]; cbn; [now intros [= <-] [= <-] | discriminate].
  - destruct first as [| | | | |st]; try discriminate. cbn.
    destruct (lookup "games" st) as [[| | | | |g]|]; cbn;
      try discriminate; try (now intros [= <-] [= <-]).
    destruct (lookup "minutes" g) as [[|[|]|m| | |]|]; cbn;
      try discriminate; try (now intros [= <-] [= <-]).
    destruct (Z.gtb m 0) eqn:E; intros [= <-]; cbn; intros [= <-];
      [reflexivity|].
    symmetry. rewrite Z.gtb_ltb in *. apply Z.ltb_ge. apply Z.ltb_ge in E. lia.
Qed.

(** The inner loop appends the players that [keeps] accepts, in order,
    and counts all players and the accepted ones. *)
Lemma filter_players_spec (players : list json) :
  forall acc t k acc' t' k',
    filter_players players (acc, (t, k)) = Ok (acc', (t', k')) ->
    acc' = (acc ++ filter keeps players)%list
    /\ t' = (t + Z.of_nat (List.length players))%Z
    /\ k' = (k + Z.of_nat (List.length (filter keeps players)))%Z.
Proof.
  induction players as [|p players IH]; intros acc t k acc' t' k' H.
  - cbn in H. injection H as <- <- <-. rewrite app_nil_r. cbn.
    split; [reflexivity | split; lia].
  - cbn [filter_players] in H.
    destruct (played_minutes p) as [pm|] eqn:Epm; [|discriminate].
    cbn [bind] in H. destruct (gt pm 5) as [b|] eqn:Egt; [|discriminate].
    cbn [bind] in H. rewrite (played_minutes_keeps p pm b Epm Egt) in H.
    cbn [filter List.length]. destruct (keeps p).
    + apply IH in H as (-> & -> & ->). rewrite <- app_assoc.
      split; [reflexivity | split; cbn [List.length]; lia].
    + apply IH in H as (-> & -> & ->).
      split; [reflexivity | split; cbn [List.length]; lia].
Qed.

Lemma filter_teams_spec (teams : list json) :
  forall acc t k acc' t' k',
    filter_teams teams (acc, (t, k)) = Ok (acc', (t', k')) ->
    exists copies,
      acc' = (acc ++ copies)%list
      /\ Forall2 filtered_from teams copies
      /\ t' = (t + head_count teams)%Z
      /\ k' = (k + head_count copies)%Z.
Proof.
  induction teams as [|team teams IH]; intros acc t k acc' t' k' H.
  - cbn in H. injection H as <- <- <-. exists []. rewrite app_nil_r. cbn.
    split; [reflexivity | split; [constructor | split; lia]].
  - cbn [filter_teams] in H.
    destruct team as [| | | | |d]; cbn [copy get bind] in H; try discriminate.
    destruct (iter _) as [players|] eqn:Eit; cbn [bind] in H; [|discriminate].
    destruct (filter_players players _) as [[kept [t1 k1]]|] eqn:Ef;
      cbn [bind setitem] in H; [|discriminate].
    apply filter_players_spec in Ef as (-> & -> & ->). cbn [app] in H.
    apply IH in H as (copies & -> & HF & -> & ->).
    set (team' := JObj (store "players" (JArr (filter keeps players)) d)).
    assert (R : roster (JObj d) = Ok players).
    { unfold roster. cbn [get bind]. exact Eit. }
    assert (R' : roster team' = Ok (filter keeps players)).
    { unfold roster, team'. cbn [get bind]. now rewrite lookup_store. }
    exists (team' :: copies). rewrite <- app_assoc. cbn [app head_count].
    rewrite R, R'. split; [reflexivity | split; [| split; lia]].
    constructor; [|exact HF]. now exists players.
Qed.

(** C3. Every player of the roster that the filter of [determine_mvp]
    hands to the summary has more than five minutes recorded; each
    filtered team holds exactly the players of the fetched team that have,
    in their order, so players with five minutes or fewer, with no minutes
    (null) or with no statistics entry are left out. *)
Theorem C3_filtered_roster (teams filtered : list json) (total kept : Z) :
  filter_teams teams ([], (0, 0)%Z) = Ok (filtered, (total, kept)) ->
  Forall2 filtered_from teams filtered
  /\ (forall team' players' player,
        In team' filtered -> roster team' = Ok players' -> In player players' ->
        exists m, minutes_of player = Some m /\ (5 < m)%Z).
Proof.
  intros H. apply filter_teams_spec in H as (copies & -> & HF & _ & _).
  cbn [app]. split; [exact HF|].
  intros team' players' player Hin Hr Hp.
  assert (Hk : exists team players, roster team = Ok players
                 /\ players' = filter keeps players).
  { clear Hp. induction HF as [|team c teams copies [ps [R R']] HF IH];
      [contradiction|].
    destruct Hin as [<-|Hin]; [|now apply IH].
    exists team, ps. rewrite R' in Hr. injection Hr as <-. auto. }
  destruct Hk as (team & players & _ & ->).
  apply filter_In in Hp as [_ Hp]. unfold keeps in Hp.
  destruct (minutes_of player) as [m|]; [|discriminate].
  exists m. split; [reflexivity|]. apply Z.gtb_lt in Hp. lia.
Qed.

Lemma C3_witness :
  Forall2 filtered_from
    [Sample.team "Real Madrid"
       [Sample.player "Late" [("minutes", JNum 3)] [];
        Sample.player "Sub" [("minutes", JNum 6)] [];
        Sample.player "Unused" [("minutes", JNull)] [];
        Sample.bench "Bench"]]
    [Sample.team "Real Madrid" [Sample.player "Sub" [("minutes", JNum 6)] []]]
  /\ (forall team' players' player,
        In team' [Sample.team "Real Madrid"
                    [Sample.player "Sub" [("minutes", JNum 6)] []]] ->
        roster team' = Ok players' -> In player players' ->
        exists m, minutes_of player = Some m /\ (5 < m)%Z).
Proof.
  exact (C3_filtered_roster
           [Sample.team "Real Madrid"
              [Sample.player "Late" [("minutes", JNum 3)] [];
               Sample.player "Sub" [("minutes", JNum 6)] [];
               Sample.player "Unused" [("minutes", JNull)] [];
               Sample.bench "Bench"]]
           [Sample.team "Real Madrid"
              [Sample.player "Sub" [("minutes", JNum 6)] []]]
           4%Z 1%Z eq_refl).
Defined.

(* ================================================================= *)
(** ** [determine_mvp] *)

(** C7. When statistics are fetched and nothing raises, [determine_mvp]
    returns the completion of the language model unchanged, two line
    feeds, and the line "Analysis based on N players (filtered out M who
    played ≤5 minutes)", N being the number of players the minutes filter
    keeps and M the number of fetched players less N. *)
Theorem C7_completion_and_count (requests_get : http) (llm : model)
        (fixture_id : Z) (stats : json) (teams filtered : list json)
        (cnt : counters) (summary response_text : string) :
  get_player_stats requests_get fixture_id = Ok stats ->
  truthy stats = true ->
  iter stats = Ok teams ->
  filter_teams teams ([], (0, 0)%Z) = Ok (filtered, cnt) ->
  _create_player_summary filtered = Ok summary ->
  llm (prompt summary) = Ok response_text ->
  determine_mvp requests_get llm fixture_id
  = Text (response_text ++ nl ++ nl
          ++ "📊 Analysis based on " ++ of_Z (head_count filtered)
          ++ " players (filtered out "
          ++ of_Z (head_count teams - head_count filtered)
          ++ " who played ≤5 minutes)")
  /\ Forall2 filtered_from teams filtered.
Proof.
  intros Hstats Htruthy Hiter Hfilter Hsummary Hllm.
  destruct cnt as [total kept].
  unfold determine_mvp, determine_mvp_body.
  rewrite Hstats. cbn [bind]. rewrite Htruthy. cbn [negb].
  rewrite Hiter. cbn [bind]. rewrite Hfilter. cbn [bind].
  rewrite Hsummary. cbn [bind]. rewrite Hllm. cbn [bind].
  apply filter_teams_spec in Hfilter as (copies & E & HF & -> & ->).
  cbn [app] in E. subst copies. rewrite !Z.add_0_l.
  split; [reflexivity | exact HF].
Qed.

Lemma C7_witness :
  determine_mvp (Sample.serving (Sample.envelope Sample.derby_stats))
                (Sample.oracle "MVP: Bellingham - scored the winner") 12345
  = Text ("MVP: Bellingham - scored the winner" ++ nl ++ nl
          ++ "📊 Analysis based on 2 players (filtered out 0 who played ≤5 minutes)")
  /\ Forall2 filtered_from Sample.derby_stats Sample.derby_stats.
Proof.
  edestruct (C7_completion_and_count
               (Sample.serving (Sample.envelope Sample.derby_stats))
               (Sample.oracle "MVP: Bellingham - scored the winner") 12345
               (JArr Sample.derby_stats) Sample.derby_stats Sample.derby_stats
               (2, 2)%Z) as [H1 H2]; try reflexivity.
  split; [exact H1 | exact H2].
Defined.

(* ================================================================= *)
(** ** The digest *)

Import DigestRules.

Lemma por_num (z : Z) : por (JNum z) (JNum 0) = JNum z.
Proof.
  unfold por. simpl. destruct (Z.eqb_spec z 0); [subst|]; reflexivity.
Qed.

Lemma por_text (s d : string) : s <> "" -> por (JStr s) (JStr d) = JStr s.
Proof.
  intros H. unfold por. simpl.
  destruct (String.eqb_spec s ""); [contradiction | reflexivity].
Qed.

Lemma clause_app (b : bool) (s x : string) :
  (if b then s ++ x else s) = s ++ clause b x.
Proof. destruct b; simpl; [reflexivity | now rewrite app_empty_r]. Qed.

Lemma clause_ok3 (b : bool) (s a x y : string) :
  (if b then Ok (((s ++ a) ++ x) ++ y) else Ok s)
  = Ok (s ++ clause b (a ++ x ++ y)).
Proof.
  destruct b; simpl; [now rewrite !app_assoc_s | now rewrite app_empty_r].
Qed.

Lemma clause_ok4 (b : bool) (s a x y z : string) :
  (if b then Ok ((((s ++ a) ++ x) ++ y) ++ z) else Ok s)
  = Ok (s ++ clause b (a ++ x ++ y ++ z)).
Proof.
  destruct b; simpl; [now rewrite !app_assoc_s | now rewrite app_empty_r].
Qed.

Lemma ok_or (a b : bool) : (if a then Ok true else Ok b) = Ok (a || b).
Proof. now destruct a. Qed.

(** The paragraph of a player whose rating, if any, is not zero is the
    entry that the composition rules describe. *)
Lemma paragraph_rated (summary : string) (p : player_stats) :
  position p <> "" -> zero_rated p = false ->
  player_paragraph summary (payload p) = Ok (summary ++ entry p).
Proof.
  intros Hpos Hr. unfold player_paragraph, payload.
  cbn -[append of_Z str por gt ne_str nl].
  rewrite !por_num, (por_text _ _ Hpos).
  cbn -[append of_Z por ne_str nl].
  rewrite !ok_or. cbn -[append of_Z por ne_str nl].
  assert (Hrating :
    forall s : string,
      (if ne_str (por (optional (rating p)) (JStr "N/A")) "N/A"
       then s ++ ", Rating: " ++ str (por (optional (rating p)) (JStr "N/A"))
       else s)
      = s ++ match rating p with
             | Some r => ", Rating: " ++ of_Z r
             | None => ""
             end).
  { intros s. unfold zero_rated in Hr. destruct (rating p) as [r|]; simpl.
    - unfold por. simpl. now rewrite Hr.
    - now rewrite app_empty_r. }
  rewrite !Hrating. clear Hrating.
  assert (Hacc :
    forall s : string,
      (if negb (is_none (optional (passes_accuracy p)))
       then s ++ " (" ++ str (optional (passes_accuracy p)) ++ "% acc)"
       else s)
      = s ++ match passes_accuracy p with
             | Some a => " (" ++ of_Z a ++ "% acc)"
             | None => ""
             end).
  { intros s. destruct (passes_accuracy p) as [a|]; simpl;
      [reflexivity | now rewrite app_empty_r]. }
  rewrite !Hacc. clear Hacc.
  rewrite !clause_app.
  rewrite clause_ok4. cbn [bind].
  rewrite ok_or. cbn [bind].
  rewrite clause_app, clause_ok3. cbn [bind].
  rewrite clause_app.
  unfold entry, head_line, attack_line, defense_line, cards_line, positive.
  now rewrite !app_assoc_s.
Qed.

(** A rating of zero is read as no rating. *)
Lemma paragraph_zero_rated (summary : string) (p : player_stats) :
  zero_rated p = true ->
  player_paragraph summary (payload p)
  = player_paragraph summary (payload (unrated p)).
Proof.
  unfold zero_rated. destruct p as [n po m [r|] g a sv st so pt pa kp tt i dt dw y rc];
    simpl; [|discriminate].
  intros H. apply Z.eqb_eq in H. subst r. reflexivity.
Qed.

Lemma paragraph_shown (summary : string) (p : player_stats) :
  position p <> "" ->
  player_paragraph summary (payload p) = Ok (summary ++ entry (shown p)).
Proof.
  intros Hpos. unfold shown. destruct (zero_rated p) eqn:Hz.
  - rewrite paragraph_zero_rated by assumption.
    now apply paragraph_rated.
  - now apply paragraph_rated.
Qed.

(** The digest entry of a player follows the composition rules: always
    the name, the position and the minutes; the rating when there is one
    that is not zero; goals, assists and saves when positive; the attack
    line with a shot or a pass, with the accuracy when there is one and
    the key passes when positive; the defense line with a tackle, an
    interception or a duel, with the duels when there is one; the cards
    line with a card.  A rating of zero is left out, as a missing one. *)
Theorem digest_entry_rules (summary : string) (p : player_stats) :
  position p <> "" ->
  player_paragraph summary (payload p)
  = Ok (summary ++ entry (if zero_rated p then unrated p else p)).
Proof. exact (paragraph_shown summary p). Qed.

Lemma digest_entry_rules_witness :
  player_paragraph "" (payload Sample.scorer)
  = Ok ("• Bellingham (M) - 90min, Rating: 9, Goals: 2" ++ nl
        ++ "  📊 Attack: 4 shots (3 on target), 41 passes (0% acc)" ++ nl
        ++ "  🛡️ Defense: 0 tackles, 0 interceptions, 5/7 duels won" ++ nl
        ++ nl).
Proof.
  rewrite (digest_entry_rules "" Sample.scorer); [reflexivity | discriminate].
Defined.

(** *** A whole match, on a payload of the expected shape *)

Lemma played_minutes_payload (p : player_stats) :
  played_minutes (payload p)
  = Ok (if Z.gtb (minutes p) 0 then JNum (minutes p) else JNum 0).
Proof. reflexivity. Qed.

Lemma filter_players_payload (ps : list player_stats) :
  forall acc t k,
    filter_players (map payload ps) (acc, (t, k))
    = Ok ((acc ++ map payload (filter played ps))%list,
          ((t + Z.of_nat (List.length ps))%Z,
           (k + Z.of_nat (List.length (filter played ps)))%Z)).
Proof.
  induction ps as [|p ps IH]; intros acc t k.
  - cbn. rewrite app_nil_r, !Z.add_0_r. reflexivity.
  - cbn [map filter_players]. rewrite played_minutes_payload. cbn [bind].
    assert (E : gt (if Z.gtb (minutes p) 0 then JNum (minutes p) else JNum 0) 5
                = Ok (played p)).
    { unfold played. destruct (Z.gtb_spec (minutes p) 0); cbn; [reflexivity|].
      f_equal. symmetry. rewrite Z.gtb_ltb. apply Z.ltb_ge. lia. }
    rewrite E. cbn [bind filter]. destruct (played p); rewrite IH.
    + cbn [map List.length]. rewrite <- app_assoc. cbn [app].
      do 2 f_equal. f_equal; lia.
    + cbn [List.length]. do 2 f_equal. f_equal. lia.
Qed.

Lemma filter_teams_payload (ts : list team_stats) :
  forall acc t k,
    filter_teams (map team_payload ts) (acc, (t, k))
    = Ok ((acc ++ map team_payload (map retained ts))%list,
          ((t + players_in ts)%Z, (k + players_in (map retained ts))%Z)).
Proof.
  induction ts as [|x ts IH]; intros acc t k.
  - cbn. rewrite app_nil_r, !Z.add_0_r. reflexivity.
  - cbn [map filter_teams]. unfold team_payload at 1 2.
    cbn [copy get lookup String.eqb Ascii.eqb Bool.eqb bind iter].
    rewrite filter_players_payload. cbn [bind app setitem store String.eqb
      Ascii.eqb Bool.eqb].
    rewrite IH. cbn [players_in retained squad map].
    rewrite <- app_assoc. cbn [app].
    do 2 f_equal. f_equal; lia.
Qed.

Lemma players_paragraphs_payload (ps : list player_stats) :
  forall summary,
    forallb (fun p => negb (String.eqb (position p) "")) ps = true ->
    players_paragraphs summary (map payload ps) = Ok (summary ++ entries ps).
Proof.
  induction ps as [|p ps IH]; intros summary H.
  - cbn. now rewrite app_empty_r.
  - cbn [forallb] in H. apply andb_prop in H as [Hp Hps].
    cbn [map players_paragraphs]. rewrite paragraph_shown.
    + cbn [bind entries]. rewrite IH by assumption. now rewrite app_assoc_s.
    + intros E. rewrite E in Hp. discriminate.
Qed.

Lemma teams_paragraphs_payload (ts : list team_stats) :
  forall summary,
    forallb positioned ts = true ->
    teams_paragraphs summary (map team_payload ts) = Ok (summary ++ digest ts).
Proof.
  induction ts as [|x ts IH]; intros summary H.
  - cbn. now rewrite app_empty_r.
  - cbn [forallb] in H. apply andb_prop in H as [Hx Hts].
    cbn [map teams_paragraphs]. unfold team_payload at 1 2 3.
    cbn [item get lookup String.eqb Ascii.eqb Bool.eqb bind iter str].
    rewrite players_paragraphs_payload by exact Hx. cbn [bind].
    rewrite IH by assumption. cbn [digest]. now rewrite !app_assoc_s.
Qed.

Lemma positioned_retained (ts : list team_stats) :
  forallb positioned ts = true -> forallb positioned (map retained ts) = true.
Proof.
  induction ts as [|x ts IH]; [reflexivity|]. cbn [forallb map].
  intros H. apply andb_prop in H as [Hx Hts]. rewrite (IH Hts), andb_true_r.
  unfold positioned in *. cbn [retained squad].
  rewrite forallb_forall in *. intros p Hp. apply Hx.
  now apply filter_In in Hp.
Qed.

(** A 200 with an envelope that reports no error hands its response
    over, when there is one. *)
Lemma get_player_stats_quiet (requests_get : http) (fixture_id : Z)
      (text : string) (d : list (string * json)) (stats : list json) :
  requests_get (BASE_URL ++ "/" ++ "fixtures/players")
               [("fixture", JNum fixture_id)]
  = Response 200 text (inr (JObj d)) ->
  quiet d = true -> lookup "response" d = Some (JArr stats) -> stats <> [] ->
  get_player_stats requests_get fixture_id = Ok (JArr stats).
Proof.
  intros Hget Hq Hresp Hne.
  assert (Hstats : truthy (JArr stats) = true)
    by (destruct stats; [contradiction | reflexivity]).
  assert (Hreq : _make_request requests_get "fixtures/players"
                   [("fixture", JNum fixture_id)] = Ok (JObj d)).
  { unfold _make_request. now rewrite Hget. }
  unfold get_player_stats. rewrite Hreq. cbn [bind].
  unfold internal_error, upstream_error, quiet in *. cbn [has get item bind].
  destruct (lookup "errors" d) as [e|].
  - apply andb_prop in Hq as [He Hs]. apply negb_true_iff in He, Hs.
    cbn [bind]. rewrite Hs. cbn [bind]. rewrite He. cbn [bind].
    rewrite Hresp, Hstats. reflexivity.
  - cbn [bind]. rewrite Hresp, Hstats. reflexivity.
Qed.

(** On a statistics payload of the expected shape, [determine_mvp] does
    not fail: it returns the completion that the language model gives
    for the digest of the players with more than five minutes, followed
    by the line that counts them and those left out. *)
Theorem determine_mvp_on_match (requests_get : http) (llm : model)
        (fixture_id : Z) (text completion : string)
        (d : list (string * json)) (teams : list team_stats) :
  requests_get (BASE_URL ++ "/" ++ "fixtures/players")
               [("fixture", JNum fixture_id)]
  = Response 200 text (inr (JObj d)) ->
  quiet d = true ->
  lookup "response" d = Some (JArr (map team_payload teams)) ->
  teams <> [] ->
  forallb positioned teams = true ->
  llm (prompt (digest (map retained teams))) = Ok completion ->
  determine_mvp requests_get llm fixture_id
  = Text (completion ++ nl ++ nl
          ++ "📊 Analysis based on " ++ of_Z (players_in (map retained teams))
          ++ " players (filtered out "
          ++ of_Z (players_in teams - players_in (map retained teams))
          ++ " who played ≤5 minutes)").
Proof.
  intros Hget Hq Hresp Hne Hpos Hllm.
  unfold determine_mvp, determine_mvp_body.
  rewrite (get_player_stats_quiet _ _ _ _ _ Hget Hq Hresp)
    by (destruct teams; [contradiction | discriminate]).
  cbn [bind]. replace (truthy (JArr (map team_payload teams))) with true
    by (destruct teams; [contradiction | reflexivity]).
  cbn [negb iter bind]. rewrite filter_teams_payload. cbn [bind app].
  rewrite !Z.add_0_l. unfold _create_player_summary.
  rewrite teams_paragraphs_payload by now apply positioned_retained.
  cbn [bind append]. rewrite Hllm. reflexivity.
Qed.

Lemma determine_mvp_on_match_witness :
  determine_mvp
    (Sample.serving (Sample.envelope (map team_payload Sample.visitors)))
    (Sample.oracle "MVP: Bellingham - two goals") 12345
  = Text ("MVP: Bellingham - two goals" ++ nl ++ nl
          ++ "📊 Analysis based on 1 players (filtered out 1 who played ≤5 minutes)").
Proof.
  exact (determine_mvp_on_match
           (Sample.serving (Sample.envelope (map team_payload Sample.visitors)))
           (Sample.oracle "MVP: Bellingham - two goals") 12345 ""
           "MVP: Bellingham - two goals"
           [("errors", JArr []);
            ("response", JArr (map team_payload Sample.visitors))]
           Sample.visitors eq_refl eq_refl eq_refl
           (fun E => match E with eq_refl => I end)
           eq_refl eq_refl).
Defined.

(** C6, at the failing input: a rating of zero leaves the digest of a
    player exactly as a missing rating does, so the two cannot be told
    apart, whereas a passing accuracy of zero is shown. *)
Theorem C6_zero_rating_lost :
  player_paragraph ""
    (Sample.player "Pedri" [("minutes", JNum 90); ("rating", JNum 0)] [])
  = player_paragraph ""
      (Sample.player "Pedri" [("minutes", JNum 90); ("rating", JNull)] [])
  /\ player_paragraph ""
       (Sample.player "Pedri" [("minutes", JNum 90); ("rating", JNum 0)] [])
     = Ok ("• Pedri (Unknown) - 90min" ++ nl ++ nl)
  /\ player_paragraph ""
       (JObj [("player", JObj [("name", JStr "Pedri")]);
              ("statistics",
               JArr [JObj [("games", JObj [("minutes", JNum 90)]);
                           ("passes", JObj [("total", JNum 3);
                                            ("accuracy", JNum 0)])]])])
     = Ok ("• Pedri (Unknown) - 90min" ++ nl
           ++ "  📊 Attack: 0 shots (0 on target), 3 passes (0% acc)" ++ nl
           ++ nl).
Proof. repeat split; reflexivity. Qed.

(* ================================================================= *)
(** ** [parse_user_input] *)

(** C2, at the failing input: with three blanks between the separator
    and [on], the second name is matched by a blank and comes back
    empty, although the pattern is meant to require a team there. *)
Theorem C2_blank_second_team :
  parse_user_input "A vs   on 2024-01-01" = Some ("A", "", "2024-01-01").
Proof. reflexivity. Qed.

(** C8, as stated, fails: a separator in mixed case is not recognised. *)
Lemma C8_mixed_case_rejected :
  parse_user_input "A Vs B on 2024-01-01" = None
  /\ parse_user_input "A vS B on 2024-01-01" = None
  /\ parse_user_input "A vs B On 2024-01-01" = None
  /\ parse_user_input "A vs B oN 2024-01-01" = None
  /\ parse_user_input "A vs B on 2024-01-01" = Some ("A", "B", "2024-01-01").
Proof. repeat split; reflexivity. Qed.

(** C8, amended. In ASCII input the separators are recognised in
    exactly the spellings the pattern lists, [vs], [VS], [v], [V] and
    [on], [ON]: a sentence whose team names mention none of them parses
    to the same triple, whichever of these spellings it uses, as with
    [vs] and [on]. *)
Theorem C8_listed_spellings (g1 w1 sep w2 g2 w3 on w4 d rest : string) :
  ascii_text (sentence g1 w1 sep w2 g2 w3 on w4 d rest) = true ->
  name_text g1 = true -> name_text g2 = true ->
  gap w1 = true -> gap w2 = true -> gap w3 = true -> gap w4 = true ->
  date_text d = true ->
  holds_word versus_words g1 = false -> holds_word on_words g2 = false ->
  In sep versus_words -> In on on_words ->
  parse_user_input (sentence g1 w1 sep w2 g2 w3 on w4 d rest)
  = Some (trim g1, trim g2, d)
  /\ parse_user_input (sentence g1 w1 sep w2 g2 w3 on w4 d rest)
     = parse_user_input (sentence g1 w1 "vs" w2 g2 w3 "on" w4 d rest).
Proof.
  rewrite !name_text_team_name, !gap_blank, date_text_is_date,
    !holds_word_mentions, !trim_strip.
  intros _ Hg1 Hg2 Hw1 Hw2 Hw3 Hw4 Hd Hm1 Hm2 Hsep Hon.
  rewrite !parse_sentence; auto; simpl; auto.
Qed.

Lemma C8_witness :
  parse_user_input "Real Madrid  V Barcelona ON 2023-10-28"
  = Some ("Real Madrid", "Barcelona", "2023-10-28")
  /\ parse_user_input "Real Madrid  V Barcelona ON 2023-10-28"
     = parse_user_input "Real Madrid  vs Barcelona on 2023-10-28".
Proof.
  exact (C8_listed_spellings "Real Madrid" "  " "V" " " "Barcelona" " " "ON"
           " " "2023-10-28" ""
           eq_refl eq_refl eq_refl eq_refl eq_refl eq_refl eq_refl eq_refl
           eq_refl eq_refl
           (or_intror (or_intror (or_intror (or_introl eq_refl))))
           (or_intror (or_introl eq_refl))).
Defined.



(* ================================================================= *)
(** ** The interaction loop *)

Import Main LoopContract.

Lemma exit_keyword_among (typed : string) :
  exit_keyword typed = among (lower (strip typed)) exit_words.
Proof.
  unfold exit_keyword, among, exit_words. rewrite trim_strip.
  cbn [existsb]. rewrite !same_word_lower. reflexivity.
Qed.

Lemma iteration_control (run_agent : agent) (r : read) :
  fst (iteration run_agent (Some r))
  = if stop_request run_agent r then Break else Continue.
Proof.
  destruct r as [typed|]; [|reflexivity].
  unfold iteration, stop_request, interrupted_query.
  rewrite exit_keyword_among.
  destruct (among (lower (strip typed)) exit_words); [reflexivity|].
  cbn [orb]. rewrite <- (parse_strip typed).
  destruct (String.eqb_spec (strip typed) "") as [E|_];
    [rewrite E; reflexivity|].
  destruct (parse_user_input (strip typed)) as [[[team1 team2] date]|];
    [|reflexivity].
  destruct (run_agent (query team1 team2 date)); reflexivity.
Qed.

(** At the end of the input the loop goes on: [EOFError] is handled as
    any other exception. *)
Lemma main_loop_end_of_input (run_agent : agent) (n : nat) :
  forall out, terminated (main_loop n run_agent [] out) = false.
Proof.
  induction n as [|n IH]; intros out; [reflexivity|].
  cbn [main_loop iteration on_exception]. apply IH.
Qed.

Lemma main_loop_stops (run_agent : agent) (n : nat) :
  forall console out,
    terminated (main_loop n run_agent console out) = true
    <-> exists i r, i < n /\ nth_error console i = Some r
                    /\ stop_request run_agent r = true.
Proof.
  induction n as [|n IH]; intros console out.
  - split; [discriminate | intros (i & r & Hi & _); lia].
  - destruct console as [|r rest].
    + rewrite main_loop_end_of_input. split; [discriminate|].
      intros (i & r & _ & Hnth & _). destruct i; discriminate.
    + cbn [main_loop]. pose proof (iteration_control run_agent r) as Hc.
      destruct (iteration run_agent (Some r)) as [c shown_now].
      cbn [fst] in Hc. subst c.
      destruct (stop_request run_agent r) eqn:Hstop.
      * split; [|reflexivity]. intros _. exists 0, r.
        split; [lia | split; [reflexivity | exact Hstop]].
      * rewrite IH. split.
        -- intros (i & r' & Hi & Hnth & Hr'). exists (S i), r'.
           split; [lia | split; assumption].
        -- intros (i & r' & Hi & Hnth & Hr'). destruct i as [|i].
           ++ cbn in Hnth. injection Hnth as <-. congruence.
           ++ exists i, r'. split; [lia | split; assumption].
Qed.

(** C9, at the failing input. At the end of the input [input()] raises
    [EOFError], the handler of [Exception] takes it for an error of a
    query, and the loop asks again: it never terminates. *)
Lemma C9_end_of_input_spins :
  ~ (exists n, terminated
                 (main_loop n (Sample.failing_agent AttributeError) [] [])
               = true)
  /\ main_loop 2 (Sample.failing_agent AttributeError) [] []
     = Running []
         [Print input_prompt;
          LogError "An error occurred: " EOFError;
          Print "❌ An error occurred. Please try again.";
          Print input_prompt;
          LogError "An error occurred: " EOFError;
          Print "❌ An error occurred. Please try again."].
Proof.
  split; [|reflexivity].
  intros [n H]. rewrite main_loop_end_of_input in H. discriminate.
Qed.

(** On ASCII input, within its first [n] turns the loop terminates
    exactly when one of the first [n] reads is an exit keyword (between
    whitespace, in any case of its letters) or a keyboard interrupt, at
    the prompt or during the query; an exception raised by a query is
    logged, a general message is shown, and the loop continues. *)
Theorem loop_ends_on_request (run_agent : agent) (console : list read)
        (n : nat) (out : list shown) :
  forallb ascii_read console = true ->
  (terminated (main_loop n run_agent console out) = true
   <-> exists i r, i < n /\ nth_error console i = Some r
                   /\ stop_request run_agent r = true)
  /\ (forall typed team1 team2 date e,
        In (Line typed) console ->
        exit_keyword typed = false ->
        parse_user_input typed = Some (team1, team2, date) ->
        run_agent (query team1 team2 date) = AgentRaises e ->
        iteration run_agent (Some (Line typed))
        = (Continue,
           [LogError "An error occurred: " e;
            Print "❌ An error occurred. Please try again."])).
Proof.
  intros _. split; [apply main_loop_stops|].
  intros typed team1 team2 date e _ Hexit Hparse Hagent.
  unfold iteration. rewrite exit_keyword_among in Hexit. rewrite Hexit.
  rewrite <- parse_strip in Hparse.
  destruct (String.eqb_spec (strip typed) "") as [E|_].
  - rewrite E in Hparse. discriminate.
  - rewrite Hparse, Hagent. reflexivity.
Qed.

Lemma loop_ends_on_request_witness :
  terminated
    (main_loop 3 (Sample.failing_agent TypeError)
       [Line "Real Madrid vs Barcelona on 2023-10-28"; Line "  QUIT "] [])
  = true
  /\ iteration (Sample.failing_agent TypeError)
       (Some (Line "Real Madrid vs Barcelona on 2023-10-28"))
     = (Continue,
        [LogError "An error occurred: " TypeError;
         Print "❌ An error occurred. Please try again."]).
Proof.
  destruct (loop_ends_on_request (Sample.failing_agent TypeError)
              [Line "Real Madrid vs Barcelona on 2023-10-28"; Line "  QUIT "]
              3 [] eq_refl) as [[_ Hstop] Hraise].
  split.
  - apply Hstop. exists 1, (Line "  QUIT ").
    split; [lia | split; reflexivity].
  - apply (Hraise _ "Real Madrid" "Barcelona" "2023-10-28");
      [left; reflexivity | reflexivity ..].
Defined.

(* ================================================================= *)
(** ** Substrings *)

Import MatchTools MatchContract.

Lemma prefix_spec (a s : string) :
  String.prefix a s = true <-> exists y, s = a ++ y.
Proof.
  revert s. induction a as [|c a IH]; intros s.
  - split; [intros _; now exists s | intros _; now destruct s].
  - destruct s as [|c' s]; simpl.
    + split; [discriminate | intros [y E]; discriminate].
    + destruct (Ascii.ascii_dec c c') as [->|Hne].
      * rewrite IH. split; intros [y E]; exists y.
        -- now rewrite E.
        -- now injection E.
      * split; [discriminate|]. intros [y E]. injection E as E _.
        now contradiction Hne.
Qed.

Lemma contains_spec (a s : string) :
  contains a s = true <-> exists x y, s = x ++ a ++ y.
Proof.
  induction s as [|c s IH].
  - cbn [contains]. rewrite orb_false_r, prefix_spec. split.
    + intros [y E]. now exists "", y.
    + intros (x & y & E). destruct x; [now exists y | discriminate].
  - cbn [contains]. rewrite orb_true_iff, prefix_spec, IH. split.
    + intros [[y E] | (x & y & E)].
      * now exists "", y.
      * exists (String c x), y. simpl. now rewrite E.
    + intros (x & y & E). destruct x as [|c' x].
      * left. now exists y.
      * right. exists x, y. simpl in E. now injection E.
Qed.

Lemma contains_empty (s : string) : contains "" s = true.
Proof. apply contains_spec. exists "", s. reflexivity. Qed.

Lemma contains_refl (s : string) : contains s s = true.
Proof. apply contains_spec. exists "", "". simpl. now rewrite app_empty_r. Qed.

Lemma contains_trans (a b c : string) :
  contains a b = true -> contains b c = true -> contains a c = true.
Proof.
  rewrite !contains_spec. intros (x & y & ->) (x' & y' & ->).
  exists (x' ++ x), (y ++ y'). now rewrite !app_assoc_s.
Qed.

Lemma occurs_trans (a b c : string) :
  occurs a b = true -> occurs b c = true -> occurs a c = true.
Proof. rewrite !occurs_contains. apply contains_trans. Qed.

Lemma occurs_empty (s : string) : occurs "" s = true.
Proof. now destruct s. Qed.

Lemma within_matches (a a' b b' : string) (f : json) :
  within a' a = true -> within b' b = true ->
  matches a b f = true -> matches a' b' f = true.
Proof.
  unfold within, matches. intros Ha Hb.
  destruct (fixture_teams f) as [[hn an]|]; [|discriminate].
  rewrite !orb_true_iff, !andb_true_iff.
  intros [[H1 H2] | [H1 H2]]; [left | right]; split;
    eauto using occurs_trans.
Qed.

(* ================================================================= *)
(** ** [find_fixture] on any response *)

(** What the loop of [find_fixture] does with one fixture: it passes
    over it, tests its two names, or raises. *)
Lemma scan_fixtures_cases (f : json) :
  teamless f = true
  \/ (exists hn an, fixture_teams f = Some (hn, an) /\ truthy f = true)
  \/ (exists e, forall team1 team2 fixtures,
        scan_fixtures team1 team2 (f :: fixtures) = Raise e).
Proof.
  destruct f as [| | | | |d];
    try (right; right; exists AttributeError; reflexivity).
  unfold teamless, fixture_teams. cbn [scan_fixtures get bind].
  destruct (lookup "teams" d) as [t|] eqn:Et; [|now left].
  destruct (truthy t) eqn:Ht; [|now left].
  right. cbn [negb item]. rewrite Et. cbn [bind].
  assert (Hd : truthy (JObj d) = true) by (destruct d; [discriminate | reflexivity]).
  destruct t as [| | | | |t];
    try (right; exists TypeError; reflexivity).
  cbn [item]. destruct (lookup "home" t) as [h|] eqn:Eh;
    [|right; exists KeyError; reflexivity].
  cbn [bind].
  destruct h as [| | | | |h]; try (right; exists TypeError; reflexivity).
  cbn [item]. destruct (lookup "name" h) as [hn|] eqn:Ehn;
    [|right; exists KeyError; reflexivity].
  cbn [bind].
  destruct hn as [| | |hn| |]; try (right; exists AttributeError; reflexivity).
  cbn [lower_of bind].
  destruct (lookup "away" t) as [a|] eqn:Ea;
    [|right; exists KeyError; reflexivity].
  cbn [bind].
  destruct a as [| | | | |a]; try (right; exists TypeError; reflexivity).
  cbn [item]. destruct (lookup "name" a) as [an|] eqn:Ean;
    [|right; exists KeyError; reflexivity].
  cbn [bind].
  destruct an as [| | |an| |]; try (right; exists AttributeError; reflexivity).
  left. exists hn, an. split; [reflexivity | exact Hd].
Qed.

(** A fixture that the loop returns is in the list, matches, and is the
    first that does. *)
Lemma scan_fixtures_sound (team1 team2 : string) (fixtures : list json)
      (f : json) :
  scan_fixtures team1 team2 fixtures = Ok (Some f) ->
  exists before after,
    fixtures = (before ++ f :: after)%list
    /\ matches team1 team2 f = true /\ truthy f = true
    /\ Forall (fun g => matches team1 team2 g = false) before.
Proof.
  induction fixtures as [|g fixtures IH]; [discriminate|].
  destruct (scan_fixtures_cases g) as [Hg | [(hn & an & Hg & Ht) | [e He]]].
  - destruct (scan_fixtures_teamless team1 team2 g fixtures Hg) as [-> Hm].
    intros H. destruct (IH H) as (before & after & -> & ? & ? & ?).
    exists (g :: before), after. repeat split; auto.
  - rewrite (scan_fixtures_named team1 team2 hn an g fixtures Hg).
    destruct (matches team1 team2 g) eqn:Hm.
    + intros [= <-]. exists [], fixtures. repeat split; auto.
    + intros H. destruct (IH H) as (before & after & -> & ? & ? & ?).
      exists (g :: before), after. repeat split; auto.
  - rewrite He. discriminate.
Qed.

(** Shorter names find a fixture wherever longer ones do, the same or
    an earlier one. *)
Lemma scan_fixtures_within (a a' b b' : string) (fixtures : list json)
      (f : json) :
  within a' a = true -> within b' b = true ->
  scan_fixtures a b fixtures = Ok (Some f) ->
  exists f' before after,
    scan_fixtures a' b' fixtures = Ok (Some f')
    /\ fixtures = (before ++ f :: after)%list
    /\ In f' (before ++ [f])%list.
Proof.
  intros Ha Hb. induction fixtures as [|g fixtures IH]; [discriminate|].
  destruct (scan_fixtures_cases g) as [Hg | [(hn & an & Hg & Ht) | [e He]]].
  - destruct (scan_fixtures_teamless a b g fixtures Hg) as [-> _].
    destruct (scan_fixtures_teamless a' b' g fixtures Hg) as [-> _].
    intros H. destruct (IH H) as (f' & before & after & ? & -> & ?).
    exists f', (g :: before), after. repeat split; auto. now right.
  - rewrite (scan_fixtures_named a b hn an g fixtures Hg).
    rewrite (scan_fixtures_named a' b' hn an g fixtures Hg).
    destruct (matches a b g) eqn:Hm.
    + intros [= <-]. rewrite (within_matches a a' b b' g Ha Hb Hm).
      exists g, [], fixtures. repeat split; auto. now left.
    + intros H. destruct (IH H) as (f' & before & after & E & -> & Hin).
      destruct (matches a' b' g).
      * exists g, (g :: before), after. repeat split; auto. now left.
      * exists f', (g :: before), after. repeat split; auto. now right.
  - rewrite He. discriminate.
Qed.

(** What [find_fixture] does once the request is made. *)
Lemma find_fixture_scan (requests_get : http) (team1 team2 date : string)
      (r : option json) :
  find_fixture requests_get team1 team2 date = Ok r -> r <> None ->
  exists response fixtures,
    _make_request requests_get "fixtures" [("date", JStr date)] = Ok response
    /\ day_fixtures response = Some fixtures
    /\ forall t1 t2,
         find_fixture requests_get t1 t2 date = scan_fixtures t1 t2 fixtures.
Proof.
  unfold find_fixture, day_fixtures.
  destruct (_make_request requests_get "fixtures" [("date", JStr date)])
    as [[| | |s|l|d]|e] eqn:Er; cbn [bind];
    try discriminate.
  - unfold internal_error. cbn. destruct (contains "errors" s); discriminate.
  - unfold internal_error. cbn [has bind].
    destruct (existsb _ l); cbn; discriminate.
  - destruct (internal_error (JObj d)) as [[|]|]; cbn [bind];
      try discriminate; [now intros [= <-] |].
    destruct (upstream_error (JObj d)) as [[|]|]; cbn [bind];
      try discriminate; [now intros [= <-] |].
    cbn [get bind]. destruct (lookup "response" d) as [v|] eqn:Ev.
    + destruct (iter v) as [l|] eqn:El; cbn [bind]; [|discriminate].
      intros _ _. exists (JObj d), l. rewrite Ev, El. now repeat split.
    + cbn [iter bind]. intros _ _. exists (JObj d), []. rewrite Ev.
      now repeat split.
Qed.

Lemma find_fixture_sound (requests_get : http) (team1 team2 date : string)
      (response f : json) (fixtures : list json) :
  _make_request requests_get "fixtures" [("date", JStr date)] = Ok response ->
  day_fixtures response = Some fixtures ->
  find_fixture requests_get team1 team2 date = Ok (Some f) ->
  scan_fixtures team1 team2 fixtures = Ok (Some f)
  /\ forall t1 t2,
       find_fixture requests_get t1 t2 date = scan_fixtures t1 t2 fixtures.
Proof.
  intros Hreq Hday H.
  destruct (find_fixture_scan _ _ _ _ _ H) as (r' & l & Hreq' & Hday' & Hscan);
    [discriminate|].
  rewrite Hreq in Hreq'. injection Hreq' as <-.
  rewrite Hday in Hday'. injection Hday' as <-.
  split; [now rewrite <- Hscan | exact Hscan].
Qed.

(** When the names asked for and the names of the fixtures of the
    response are ASCII text, a fixture that [find_fixture] returns is
    one of the fixtures of the response, its names contain the two given
    names whatever the case of the letters, no fixture before it in the
    response does, and it counts as true. *)
Theorem find_fixture_returns_listed_match (requests_get : http)
        (team1 team2 date : string) (response f : json)
        (fixtures : list json) :
  _make_request requests_get "fixtures" [("date", JStr date)] = Ok response ->
  day_fixtures response = Some fixtures ->
  ascii_text team1 = true -> ascii_text team2 = true ->
  forallb ascii_named fixtures = true ->
  find_fixture requests_get team1 team2 date = Ok (Some f) ->
  exists before after,
    fixtures = (before ++ f :: after)%list
    /\ matches team1 team2 f = true /\ truthy f = true
    /\ Forall (fun g => matches team1 team2 g = false) before.
Proof.
  intros Hreq Hday _ _ _ H.
  destruct (find_fixture_sound _ _ _ _ _ _ _ Hreq Hday H) as [Hs _].
  now apply scan_fixtures_sound.
Qed.

Lemma find_fixture_returns_listed_match_witness :
  exists before after,
    [Sample.fixture 7 "Real Sociedad" "Barcelona"; Sample.clasico]
    = (before ++ Sample.clasico :: after)%list
    /\ matches "Real Madrid" "barcelona" Sample.clasico = true
    /\ Forall (fun g => matches "Real Madrid" "barcelona" g = false) before.
Proof.
  destruct (find_fixture_returns_listed_match
              (Sample.serving
                 (Sample.envelope
                    [Sample.fixture 7 "Real Sociedad" "Barcelona";
                     Sample.clasico]))
              "Real Madrid" "barcelona" "2023-10-28"
              (Sample.envelope
                 [Sample.fixture 7 "Real Sociedad" "Barcelona";
                  Sample.clasico])
              Sample.clasico
              [Sample.fixture 7 "Real Sociedad" "Barcelona"; Sample.clasico]
              eq_refl eq_refl eq_refl eq_refl eq_refl eq_refl)
    as (before & after & E & Hm & _ & Hb).
  exists before, after. auto.
Defined.

(** When all the names are ASCII text, names that are part of longer
    ones, whatever the case of the letters, find a fixture wherever the
    longer ones do: the same fixture, or one before it in the
    response. *)
Theorem shorter_names_find_earlier (requests_get : http)
        (a a' b b' date : string) (response f : json)
        (fixtures : list json) :
  _make_request requests_get "fixtures" [("date", JStr date)] = Ok response ->
  day_fixtures response = Some fixtures ->
  ascii_text a = true -> ascii_text a' = true ->
  ascii_text b = true -> ascii_text b' = true ->
  forallb ascii_named fixtures = true ->
  within a' a = true -> within b' b = true ->
  find_fixture requests_get a b date = Ok (Some f) ->
  exists f' before after,
    find_fixture requests_get a' b' date = Ok (Some f')
    /\ fixtures = (before ++ f :: after)%list
    /\ In f' (before ++ [f])%list.
Proof.
  intros Hreq Hday _ _ _ _ _ Ha Hb H.
  destruct (find_fixture_sound _ _ _ _ _ _ _ Hreq Hday H) as [Hs Hscan].
  destruct (scan_fixtures_within a a' b b' fixtures f Ha Hb Hs)
    as (f' & before & after & E & -> & Hin).
  exists f', before, after. rewrite Hscan. auto.
Qed.

Lemma shorter_names_find_earlier_witness :
  find_fixture
    (Sample.serving
       (Sample.envelope
          [Sample.fixture 7 "Real Sociedad" "Barcelona"; Sample.clasico]))
    "Real Madrid" "Barcelona" "2023-10-28" = Ok (Some Sample.clasico)
  /\ exists f',
       find_fixture
         (Sample.serving
            (Sample.envelope
               [Sample.fixture 7 "Real Sociedad" "Barcelona"; Sample.clasico]))
         "REAL" "barc" "2023-10-28" = Ok (Some f').
Proof.
  split; [reflexivity|].
  destruct (shorter_names_find_earlier
              (Sample.serving
                 (Sample.envelope
                    [Sample.fixture 7 "Real Sociedad" "Barcelona";
                     Sample.clasico]))
              "Real Madrid" "REAL" "Barcelona" "barc" "2023-10-28"
              (Sample.envelope
                 [Sample.fixture 7 "Real Sociedad" "Barcelona";
                  Sample.clasico])
              Sample.clasico
              [Sample.fixture 7 "Real Sociedad" "Barcelona"; Sample.clasico]
              eq_refl eq_refl eq_refl eq_refl eq_refl eq_refl eq_refl
              eq_refl eq_refl eq_refl)
    as (f' & _ & _ & E & _).
  exists f'. exact E.
Defined.

(* ================================================================= *)
(** ** [validate_match] *)

Import ToolContract.

Lemma named_fixture_true (f : json) (hn an : string) :
  fixture_teams f = Some (hn, an) -> truthy f = true.
Proof.
  unfold fixture_teams. destruct f as [| | | | |d]; try discriminate.
  destruct d; [discriminate | reflexivity].
Qed.

(** The sentence for a fixture with both names: built when the fixture
    has its id and its date, an exception otherwise. *)
Lemma match_found_named (f : json) (hn an : string) :
  fixture_teams f = Some (hn, an) ->
  match announcement f with
  | Some s => match_found f = Ok s
  | None => exists e, match_found f = Raise e
  end.
Proof.
  unfold announcement. intros H. rewrite H. revert H.
  unfold fixture_teams, fixture_ref, match_found.
  destruct f as [| | | | |d]; try discriminate. cbn [item].
  destruct (lookup "teams" d) as [t|]; [|discriminate].
  destruct t as [| | | | |t]; try discriminate.
  destruct (lookup "home" t) as [[| | | | |h]|] eqn:Eh; try discriminate.
  destruct (lookup "away" t) as [[| | | | |a]|] eqn:Ea; try discriminate.
  destruct (lookup "name" h) as [[| | |hn'| |]|] eqn:Ehn; try discriminate.
  destruct (lookup "name" a) as [[| | |an'| |]|] eqn:Ean; try discriminate.
  intros [= -> ->].
  destruct (lookup "fixture" d) as [fx|]; [|now exists KeyError].
  cbn [bind].
  destruct fx as [| | | | |fx]; try (now exists TypeError).
  cbn [item]. destruct (lookup "id" fx) as [i|]; [|now exists KeyError].
  cbn [bind item]. rewrite Eh. cbn [bind item]. rewrite Ehn. cbn [bind].
  rewrite Ea. cbn [bind item]. rewrite Ean. cbn [bind].
  destruct (lookup "date" fx) as [dt|]; [reflexivity | now exists KeyError].
Qed.

(** On a list of fixtures, all names being ASCII text, [validate_match]
    speaks of the first fixture whose names contain the two names asked
    for, whatever the case of the letters: its id, its home and away names in the order of the
    fixture (not of the question), and its date; without its id or date
    it answers with the error text, and when no fixture matches it says
    that none was found. *)
Theorem validate_match_names_first_match (requests_get : http)
        (team1 team2 date text : string)
        (d : list (string * json)) (fixtures : list json) :
  requests_get (BASE_URL ++ "/" ++ "fixtures") [("date", JStr date)]
  = Response 200 text (inr (JObj d)) ->
  quiet d = true ->
  lookup "response" d = Some (JArr fixtures) ->
  forallb well_formed fixtures = true ->
  ascii_text team1 = true -> ascii_text team2 = true ->
  forallb ascii_named fixtures = true ->
  match find (matches team1 team2) fixtures with
  | None =>
      validate_match requests_get team1 team2 date
      = Text (no_match team1 team2 date)
  | Some f =>
      match announcement f with
      | Some s => validate_match requests_get team1 team2 date = Text s
      | None =>
          exists e,
            validate_match requests_get team1 team2 date
            = ErrorText "Error validating match: " e
      end
  end.
Proof.
  intros Hget Hq Hresp Hwf _ _ _.
  unfold validate_match, validate_match_body.
  rewrite (find_fixture_listed _ team1 team2 _ _ _ _ Hget Hq Hresp Hwf).
  cbn [bind].
  destruct (find (matches team1 team2) fixtures) as [f|] eqn:Ef;
    [|reflexivity].
  apply find_some in Ef as [_ Hm]. unfold matches in Hm.
  destruct (fixture_teams f) as [[hn an]|] eqn:Et; [|discriminate].
  rewrite (named_fixture_true f hn an Et).
  pose proof (match_found_named f hn an Et) as Hf.
  destruct (announcement f) as [s|].
  - now rewrite Hf.
  - destruct Hf as [e ->]. now exists e.
Qed.

Lemma validate_match_names_first_match_witness :
  validate_match
    (Sample.serving
       (Sample.envelope
          [Sample.fixture 1 "Arsenal" "Chelsea"; Sample.clasico]))
    "barcelona" "madrid" "2023-10-28"
  = Text "Match found! Fixture ID: 12345, Real Madrid vs Barcelona on 2023-10-28T14:15:00+00:00".
Proof.
  exact (validate_match_names_first_match
           (Sample.serving
              (Sample.envelope
                 [Sample.fixture 1 "Arsenal" "Chelsea"; Sample.clasico]))
           "barcelona" "madrid" "2023-10-28" ""
           [("errors", JArr []);
            ("response",
             JArr [Sample.fixture 1 "Arsenal" "Chelsea"; Sample.clasico])]
           [Sample.fixture 1 "Arsenal" "Chelsea"; Sample.clasico]
           eq_refl eq_refl eq_refl eq_refl eq_refl eq_refl eq_refl).
Defined.

(** The answer of [validate_match] does not depend on the order of the
    two names, unless no fixture is found: then the two names are
    repeated in the order given. *)
Theorem validate_match_order (requests_get : http)
        (team1 team2 date : string) :
  find_fixture requests_get team1 team2 date <> Ok None ->
  validate_match requests_get team1 team2 date
  = validate_match requests_get team2 team1 date.
Proof.
  intros Hne. unfold validate_match, validate_match_body.
  rewrite <- (find_fixture_swap requests_get team1 team2 date).
  destruct (find_fixture requests_get team1 team2 date) as [[f|]|e] eqn:E;
    cbn [bind]; [| contradiction | reflexivity].
  destruct (find_fixture_scan _ _ _ _ _ E)
    as (response & fixtures & _ & _ & Hscan); [discriminate|].
  rewrite Hscan in E.
  destruct (scan_fixtures_sound _ _ _ _ E) as (_ & _ & _ & _ & Ht & _).
  now rewrite Ht.
Qed.

Lemma validate_match_order_witness :
  validate_match (Sample.serving (Sample.envelope [Sample.clasico]))
                 "Real Madrid" "Barcelona" "2023-10-28"
  = validate_match (Sample.serving (Sample.envelope [Sample.clasico]))
                   "Barcelona" "Real Madrid" "2023-10-28".
Proof.
  apply (validate_match_order
           (Sample.serving (Sample.envelope [Sample.clasico]))
           "Real Madrid" "Barcelona" "2023-10-28").
  discriminate.
Defined.

(** With an empty second name, as the parser can hand over, every
    fixture in which the first name plays on either side matches:
    [find_fixture] returns the first of them.  The names are ASCII
    text. *)
Theorem empty_name_matches_any_opponent (requests_get : http)
        (team1 date text : string)
        (d : list (string * json)) (fixtures : list json) :
  requests_get (BASE_URL ++ "/" ++ "fixtures") [("date", JStr date)]
  = Response 200 text (inr (JObj d)) ->
  quiet d = true ->
  lookup "response" d = Some (JArr fixtures) ->
  forallb well_formed fixtures = true ->
  ascii_text team1 = true -> forallb ascii_named fixtures = true ->
  find_fixture requests_get team1 "" date = Ok (find (plays team1) fixtures).
Proof.
  intros Hget Hq Hresp Hwf _ _.
  rewrite (find_fixture_listed _ team1 "" _ _ _ _ Hget Hq Hresp Hwf).
  f_equal. clear. induction fixtures as [|f fixtures IH]; [reflexivity|].
  cbn [find]. rewrite IH.
  replace (matches team1 "" f) with (plays team1 f); [reflexivity|].
  unfold matches, plays. destruct (fixture_teams f) as [[hn an]|];
    [|reflexivity].
  rewrite !occurs_empty, !andb_true_r. reflexivity.
Qed.

Lemma empty_name_matches_any_opponent_witness :
  parse_user_input "Chelsea vs   on 2023-10-28"
  = Some ("Chelsea", "", "2023-10-28")
  /\ find_fixture
       (Sample.serving
          (Sample.envelope
             [Sample.clasico; Sample.fixture 1 "Arsenal" "Chelsea"]))
       "Chelsea" "" "2023-10-28"
     = Ok (Some (Sample.fixture 1 "Arsenal" "Chelsea")).
Proof.
  split; [reflexivity|].
  exact (empty_name_matches_any_opponent
           (Sample.serving
              (Sample.envelope
                 [Sample.clasico; Sample.fixture 1 "Arsenal" "Chelsea"]))
           "Chelsea" "2023-10-28" ""
           [("errors", JArr []);
            ("response",
             JArr [Sample.clasico; Sample.fixture 1 "Arsenal" "Chelsea"])]
           [Sample.clasico; Sample.fixture 1 "Arsenal" "Chelsea"]
           eq_refl eq_refl eq_refl eq_refl eq_refl eq_refl).
Defined.

(* ================================================================= *)
(** ** The three tools when the request fails *)

(** When the request fails in one of the ways that the client handles
    (no response, a status other than 200, a 200 that is not JSON or
    that lists errors, the body being one that can be looked at), none
    of the three tools says so: each gives the text it gives when there
    is no such match or no statistics, and none takes its error
    branch. *)
Theorem tools_hide_failed_requests (requests_get : http) (llm : model)
        (team1 team2 date : string) (fixture_id : Z) :
  (failed (requests_get (BASE_URL ++ "/" ++ "fixtures") [("date", JStr date)])
   = true ->
   validate_match requests_get team1 team2 date
   = Text ("No match found between " ++ team1 ++ " and " ++ team2 ++ " on "
           ++ date ++ ". Please check team names and date."))
  /\ (failed (requests_get (BASE_URL ++ "/" ++ "fixtures/players")
                [("fixture", JNum fixture_id)]) = true ->
      fetch_match_stats requests_get fixture_id
      = Text ("Error: No player statistics found for fixture "
              ++ of_Z fixture_id)
      /\ determine_mvp requests_get llm fixture_id
         = Text ("No player statistics found for fixture " ++ of_Z fixture_id)).
Proof.
  split; intros H.
  - unfold validate_match, validate_match_body.
    now rewrite (find_fixture_failed _ team1 team2 _ H).
  - unfold fetch_match_stats, fetch_match_stats_body,
      determine_mvp, determine_mvp_body.
    now rewrite (get_player_stats_failed _ _ H).
Qed.

(* ================================================================= *)
(** ** A body that is not an object *)

Lemma non_object_raises (response : json) :
  is_object response = false ->
  exists e,
    (internal_error response = Raise e
     \/ (internal_error response = Ok false
         /\ upstream_error response = Raise e)).
Proof.
  destruct response as [| | |s|l|d]; try discriminate; intros _;
    try (exists TypeError; now left).
  - unfold internal_error, upstream_error. cbn [has bind].
    destruct (contains "errors" s).
    + exists TypeError. now left.
    + exists AttributeError. now right.
  - unfold internal_error, upstream_error. cbn [has bind].
    destruct (existsb _ l).
    + exists TypeError. now left.
    + exists AttributeError. now right.
Qed.

(** A 200 whose JSON body is not an object (an array, a string, a
    number, null) makes both operations of the client raise, and each
    tool answer with its error text. *)
Theorem non_object_body_raises (requests_get : http) (llm : model)
        (team1 team2 date : string) (fixture_id : Z) (text : string)
        (body : json) :
  is_object body = false ->
  (requests_get (BASE_URL ++ "/" ++ "fixtures") [("date", JStr date)]
   = Response 200 text (inr body) ->
   exists e,
     find_fixture requests_get team1 team2 date = Raise e
     /\ validate_match requests_get team1 team2 date
        = ErrorText "Error validating match: " e)
  /\ (requests_get (BASE_URL ++ "/" ++ "fixtures/players")
        [("fixture", JNum fixture_id)]
      = Response 200 text (inr body) ->
      exists e,
        get_player_stats requests_get fixture_id = Raise e
        /\ fetch_match_stats requests_get fixture_id
           = ErrorText "Error fetching match stats: " e
        /\ determine_mvp requests_get llm fixture_id
           = ErrorText "Error analyzing MVP: " e).
Proof.
  intros Hbody.
  destruct (non_object_raises body Hbody) as [e He].
  split; intros Hget; exists e.
  - assert (Hreq : _make_request requests_get "fixtures" [("date", JStr date)]
                   = Ok body).
    { unfold _make_request. now rewrite Hget. }
    assert (Hf : find_fixture requests_get team1 team2 date = Raise e).
    { unfold find_fixture. rewrite Hreq. cbn [bind].
      destruct He as [-> | [-> ->]]; reflexivity. }
    split; [exact Hf|].
    unfold validate_match, validate_match_body. now rewrite Hf.
  - assert (Hreq : _make_request requests_get "fixtures/players"
                     [("fixture", JNum fixture_id)] = Ok body).
    { unfold _make_request. now rewrite Hget. }
    assert (Hf : get_player_stats requests_get fixture_id = Raise e).
    { unfold get_player_stats. rewrite Hreq. cbn [bind].
      destruct He as [-> | [-> ->]]; reflexivity. }
    split; [exact Hf|].
    unfold fetch_match_stats, fetch_match_stats_body,
      determine_mvp, determine_mvp_body.
    now rewrite Hf.
Qed.

Lemma non_object_body_raises_witness :
  find_fixture (Sample.serving (JArr [Sample.clasico]))
               "Real Madrid" "Barcelona" "2023-10-28"
  = Raise AttributeError
  /\ validate_match (Sample.serving (JArr [Sample.clasico]))
                    "Real Madrid" "Barcelona" "2023-10-28"
     = ErrorText "Error validating match: " AttributeError.
Proof.
  destruct (non_object_body_raises
              (Sample.serving (JArr [Sample.clasico]))
              (Sample.oracle "") "Real Madrid" "Barcelona" "2023-10-28"
              12345 "" (JArr [Sample.clasico]) eq_refl) as [H _].
  destruct (H eq_refl) as (e & Hf & Hv).
  assert (E : e = AttributeError) by (cbv in Hf; congruence).
  subst e. split; assumption.
Defined.

(* ================================================================= *)
(** ** [fetch_match_stats] and [get_player_stats] *)

Lemma sum_players_payload (ts : list team_stats) :
  forall total,
    sum_players (map team_payload ts) total = Ok (total + players_in ts)%Z.
Proof.
  induction ts as [|t ts IH]; intros total.
  - cbn. now rewrite Z.add_0_r.
  - cbn [map sum_players]. unfold team_payload at 1.
    cbn [get lookup String.eqb Ascii.eqb Bool.eqb bind len].
    rewrite IH, length_map. cbn [players_in]. f_equal. lia.
Qed.

Lemma team_names_payload (ts : list team_stats) :
  team_names (map team_payload ts) = Ok (map (fun t => JStr (club t)) ts).
Proof.
  induction ts as [|t ts IH]; [reflexivity|].
  cbn [map team_names]. unfold team_payload at 1.
  cbn [item lookup String.eqb Ascii.eqb Bool.eqb bind].
  now rewrite IH.
Qed.

Lemma join_names (names : list string) :
  join ", " (map JStr names) = Ok (comma_list names).
Proof.
  induction names as [|n names IH]; [reflexivity|].
  cbn [map join comma_list]. destruct names as [|m names]; [reflexivity|].
  cbn [map] in *. now rewrite IH.
Qed.

(** On a statistics response of the expected shape, [fetch_match_stats]
    reports the number of teams, their names in the order received, and
    the number of all players fetched, whatever their minutes. *)
Theorem fetch_match_stats_counts_everyone (requests_get : http)
        (fixture_id : Z) (text : string)
        (d : list (string * json)) (teams : list team_stats) :
  requests_get (BASE_URL ++ "/" ++ "fixtures/players")
               [("fixture", JNum fixture_id)]
  = Response 200 text (inr (JObj d)) ->
  quiet d = true ->
  lookup "response" d = Some (JArr (map team_payload teams)) ->
  teams <> [] ->
  fetch_match_stats requests_get fixture_id
  = Text ("✅ Successfully fetched statistics for "
          ++ of_Z (Z.of_nat (List.length teams)) ++ " teams ("
          ++ comma_list (map club teams) ++ ") with "
          ++ of_Z (players_in teams)
          ++ " total players. Ready for MVP analysis.").
Proof.
  intros Hget Hq Hresp Hne.
  unfold fetch_match_stats, fetch_match_stats_body.
  rewrite (get_player_stats_quiet _ _ _ _ _ Hget Hq Hresp)
    by (destruct teams; [contradiction | discriminate]).
  cbn [bind]. replace (truthy (JArr (map team_payload teams))) with true
    by (destruct teams; [contradiction | reflexivity]).
  cbn [negb iter bind]. rewrite sum_players_payload. cbn [bind].
  rewrite team_names_payload. cbn [bind len].
  rewrite <- (map_map club JStr), join_names. cbn [bind].
  now rewrite length_map, Z.add_0_l.
Qed.

Lemma fetch_match_stats_counts_everyone_witness :
  fetch_match_stats
    (Sample.serving
       (Sample.envelope
          (map team_payload
             (Sample.visitors
              ++ [{| club := "Barcelona"; squad := [Sample.scorer] |}]))))
    12345
  = Text "✅ Successfully fetched statistics for 2 teams (Real Madrid, Barcelona) with 3 total players. Ready for MVP analysis.".
Proof.
  exact (fetch_match_stats_counts_everyone
           (Sample.serving
              (Sample.envelope
                 (map team_payload
                    (Sample.visitors
                     ++ [{| club := "Barcelona";
                            squad := [Sample.scorer] |}]))))
           12345 ""
           [("errors", JArr []);
            ("response",
             JArr (map team_payload
                     (Sample.visitors
                      ++ [{| club := "Barcelona";
                             squad := [Sample.scorer] |}])))]
           (Sample.visitors
            ++ [{| club := "Barcelona"; squad := [Sample.scorer] |}])
           eq_refl eq_refl eq_refl
           (fun E => match E with eq_refl => I end)).
Defined.

(** What [get_player_stats] returns is the empty list or the response
    entry of the body, and that entry only when it counts as true. *)
Theorem get_player_stats_empty_or_response (requests_get : http)
        (fixture_id : Z) (v : json) :
  get_player_stats requests_get fixture_id = Ok v ->
  v = JArr []
  \/ (truthy v = true
      /\ exists d,
           _make_request requests_get "fixtures/players"
                         [("fixture", JNum fixture_id)] = Ok (JObj d)
           /\ lookup "response" d = Some v).
Proof.
  unfold get_player_stats.
  destruct (_make_request requests_get "fixtures/players"
              [("fixture", JNum fixture_id)]) as [[| | |s|l|d]|e];
    cbn [bind]; try discriminate.
  - unfold internal_error. cbn. destruct (contains "errors" s); discriminate.
  - unfold internal_error. cbn [has bind].
    destruct (existsb _ l); cbn; discriminate.
  - destruct (internal_error (JObj d)) as [[|]|]; cbn [bind];
      try discriminate; [intros [= <-]; now left |].
    destruct (upstream_error (JObj d)) as [[|]|]; cbn [bind];
      try discriminate; [intros [= <-]; now left |].
    cbn [get bind]. destruct (lookup "response" d) as [w|] eqn:Ew.
    + destruct (truthy w) eqn:Hw; cbn [negb];
        [|intros [= <-]; now left].
      destruct (len w); cbn [bind]; [|discriminate].
      intros [= <-]. right. split; [exact Hw | now exists d].
    + cbn. intros [= <-]. now left.
Qed.

Lemma get_player_stats_empty_or_response_witness :
  JArr (map team_payload Sample.visitors) = JArr []
  \/ (truthy (JArr (map team_payload Sample.visitors)) = true
      /\ exists d,
           _make_request
             (Sample.serving
                (Sample.envelope (map team_payload Sample.visitors)))
             "fixtures/players" [("fixture", JNum 12345)] = Ok (JObj d)
           /\ lookup "response" d
              = Some (JArr (map team_payload Sample.visitors))).
Proof.
  exact (get_player_stats_empty_or_response
           (Sample.serving
              (Sample.envelope (map team_payload Sample.visitors)))
           12345 (JArr (map team_payload Sample.visitors)) eq_refl).
Defined.

(* ================================================================= *)
(** ** Missing values in the digest *)

Import RawStats.

Lemma por_optional (v : option Z) :
  por (optional v) (JNum 0) = JNum (or_zero v).
Proof. destruct v as [z|]; [apply por_num | reflexivity]. Qed.

Lemma por_position (v : option string) :
  por (optional_text v) (JStr "Unknown") = JStr (or_unknown v).
Proof.
  destruct v as [s|]; [|reflexivity]. unfold por. simpl.
  now destruct (String.eqb s "").
Qed.

Lemma or_unknown_named (v : option string) : or_unknown v <> "".
Proof.
  destruct v as [s|]; simpl; [|discriminate].
  destruct (String.eqb_spec s ""); [discriminate | assumption].
Qed.

Lemma paragraph_filled (summary : string) (r : raw_stats) :
  player_paragraph summary (raw_payload r)
  = player_paragraph summary (payload (fill r)).
Proof.
  unfold player_paragraph, raw_payload, payload, fill.
  cbn -[append of_Z str por gt ne_str nl or_zero or_unknown].
  rewrite !por_optional, !por_num, por_position,
    (por_text _ _ (or_unknown_named _)).
  reflexivity.
Qed.

(** In the digest a missing count is read as zero and a missing or
    empty position as Unknown: the paragraph of a player is the entry of
    the composition rules for the statistics so filled in.  A player
    without any statistics gets the line of a player with nothing to
    show. *)
Theorem missing_values_read_as_zero (summary : string) (r : raw_stats) :
  player_paragraph summary (raw_payload r)
  = Ok (summary ++ entry (DigestRules.shown (fill r)))
  /\ forall name,
       player_paragraph summary (Sample.bench name)
       = Ok (summary ++ "• " ++ name ++ " (Unknown) - 0min" ++ nl ++ nl).
Proof.
  split.
  - rewrite paragraph_filled. apply paragraph_shown.
    apply or_unknown_named.
  - intros name. unfold player_paragraph, Sample.bench.
    cbn -[append nl]. now rewrite !app_assoc_s.
Qed.

(* ================================================================= *)
(** ** The constructor of the client *)

Import ClientSetup Startup.








(* ================================================================= *)
(** ** The start of [main], and the demonstration *)

Lemma init_with_key (k : string) (host : option string) :
  exists logs,
    __init__ (Some k) host
    = (logs,
       Ok {| api_key := Some k; api_host := host;
             headers := [("X-RapidAPI-Key", JStr k);
                         ("X-RapidAPI-Host", value host);
                         ("Content-Type", JStr "application/json")] |}).
Proof. unfold __init__, longer_than_14. cbn. eexists. reflexivity. Qed.

(** [main] reaches its loop exactly when the three variables are set
    and the Google key is not the placeholder; the agent is then made
    for the keys of the environment.  Otherwise it logs one error and
    returns; no exception leaves it before the loop. *)
Theorem main_loops_when_configured (getenv : env)
        (create_react_agent : agent_factory) (console : list read) (n : nat) :
  (configured getenv = true ->
   exists events llm api_client,
     main getenv create_react_agent console n
     = (events,
        Looped (main_loop n (create_react_agent llm api_client) console []))
     /\ google_api_key llm = getenv "GOOGLE_API_KEY"
     /\ api_key api_client = getenv "RAPID_API_KEY"
     /\ api_host api_client = getenv "RAPID_API_HOST")
  /\ (configured getenv = false ->
      exists events message,
        main getenv create_react_agent console n
        = ((events ++ [Logged (ERROR, message)])%list, Returned)).
Proof.
  unfold configured, main, create_llm.
  destruct (getenv "RAPID_API_KEY") as [k|] eqn:Ek; cbn [value truthy andb];
    [|split; [discriminate | intros _; eexists [], _; reflexivity]].
  destruct (negb (k =? "")) eqn:Hk; cbn [andb negb orb];
    [|split; [discriminate | intros _; eexists [], _; reflexivity]].
  destruct (getenv "RAPID_API_HOST") as [h|] eqn:Eh; cbn [value truthy andb];
    [|split; [discriminate | intros _; eexists [], _; reflexivity]].
  destruct (negb (h =? "")) eqn:Hh; cbn [andb negb orb];
    [|split; [discriminate | intros _; eexists [], _; reflexivity]].
  destruct (init_with_key k (Some h)) as [logs ->].
  destruct (getenv "GOOGLE_API_KEY") as [g|] eqn:Eg; cbn [value truthy andb].
  - destruct (negb (g =? "")) eqn:Hg; cbn [andb negb orb].
    + destruct (g =? "your_google_api_key_here"); cbn [negb].
      * split; [discriminate | intros _].
        eexists _, _. rewrite !app_assoc. reflexivity.
      * split; [intros _ | discriminate].
        eexists _, _, _. split; [reflexivity|]. cbn. auto.
    + split; [discriminate | intros _].
      eexists _, _. rewrite !app_assoc. reflexivity.
  - cbn [negb orb]. split; [discriminate | intros _].
    eexists _, _. rewrite !app_assoc. reflexivity.
Qed.

(** The demonstration does not check its configuration.  Without
    RAPID_API_KEY the constructor of the client raises [TypeError] after
    the banner and two log records, before any agent is made, where
    [main] returns after an error record.  With the key set, the
    language model is constructed with whatever GOOGLE_API_KEY holds;
    if that construction raises, the demonstration ends with its
    exception before any agent is made, and otherwise the fixed query is
    put to the agent and the demonstration ends as the agent does. *)
Theorem demo_runs_unconfigured (getenv : env)
        (ChatGoogleGenerativeAI : constructor)
        (create_react_agent : agent_factory) (console : list read) (n : nat) :
  (getenv "RAPID_API_KEY" = None ->
   run_demo getenv ChatGoogleGenerativeAI create_react_agent
   = ([Printed "🚀 Football MVP Selector Agent - LangGraph + Gemini Demo";
       Printed "🆓 Using FREE Google Gemini 1.5 Flash with 1M context window";
       Printed "============================================================";
       Logged (INFO, "Initialized API client for "
                     ++ str (value (getenv "RAPID_API_HOST")));
       Logged (WARNING, "No API key provided!")],
      Aborted TypeError)
   /\ snd (main getenv create_react_agent console n) = Returned)
  /\ (forall k,
        getenv "RAPID_API_KEY" = Some k ->
        exists llm api_client,
          snd (run_demo getenv ChatGoogleGenerativeAI create_react_agent)
          = match ChatGoogleGenerativeAI llm with
            | Some e => Aborted e
            | None =>
                match create_react_agent llm api_client demo_query with
                | Answer _ => Completed
                | AgentRaises e => Aborted e
                | AgentInterrupted => Interrupted
                end
            end
          /\ google_api_key llm = getenv "GOOGLE_API_KEY"
          /\ api_key api_client = Some k).
Proof.
  split.
  - intros Ek. unfold run_demo, main. rewrite Ek. split; reflexivity.
  - intros k Ek. unfold run_demo. rewrite Ek.
    destruct (init_with_key k (getenv "RAPID_API_HOST")) as [logs ->].
    exists {| model_name := "gemini-1.5-flash"; temperature := 0;
              google_api_key := getenv "GOOGLE_API_KEY" |},
           {| api_key := Some k; api_host := getenv "RAPID_API_HOST";
              headers := [("X-RapidAPI-Key", JStr k);
                          ("X-RapidAPI-Host",
                           value (getenv "RAPID_API_HOST"));
                          ("Content-Type", JStr "application/json")] |}.
    split; [|split; reflexivity].
    destruct (ChatGoogleGenerativeAI _); [reflexivity|].
    destruct (create_react_agent _ _ demo_query); reflexivity.
Qed.

(* ================================================================= *)
(** ** More on the interaction loop *)

Lemma iteration_same_answers (a a' : agent) (typed : string) :
  (forall team1 team2 date,
     parse_user_input (strip typed) = Some (team1, team2, date) ->
     a (query team1 team2 date) = a' (query team1 team2 date)) ->
  iteration a (Some (Line typed)) = iteration a' (Some (Line typed)).
Proof.
  intros H. unfold iteration.
  destruct (among (lower (strip typed)) exit_words); [reflexivity|].
  destruct (String.eqb (strip typed) ""); [reflexivity|].
  destruct (parse_user_input (strip typed)) as [[[team1 team2] date]|];
    [|reflexivity].
  now rewrite (H team1 team2 date eq_refl).
Qed.

(** On ASCII input the loop puts to the agent the queries of the lines
    that the parser accepts, and nothing else: two agents that answer
    those queries alike give the same run. *)
Theorem loop_asks_only_parsed_queries (a a' : agent) (console : list read)
        (n : nat) (out : list shown) :
  forallb ascii_read console = true ->
  (forall typed team1 team2 date,
     In (Line typed) console ->
     parse_user_input (strip typed) = Some (team1, team2, date) ->
     a (query team1 team2 date) = a' (query team1 team2 date)) ->
  main_loop n a console out = main_loop n a' console out.
Proof.
  intros _. revert console out.
  induction n as [|n IH]; intros console out H; [reflexivity|].
  cbn [main_loop]. destruct console as [|r rest].
  - cbn [iteration on_exception]. apply IH. intros ? ? ? ? [].
  - assert (E : iteration a (Some r) = iteration a' (Some r)).
    { destruct r as [typed|]; [|reflexivity].
      apply iteration_same_answers. intros t1 t2 d.
      apply H. now left. }
    rewrite E. destruct (iteration a' (Some r)) as [[|] shown_now];
      [|reflexivity].
    apply IH. intros typed t1 t2 d Hin. apply H. now right.
Qed.

Lemma loop_asks_only_parsed_queries_witness :
  main_loop 3 (Sample.failing_agent TypeError)
            [Line "hello"; Line "  "; Line "Quit"] []
  = main_loop 3 (fun _ => Answer "MVP: nobody")
              [Line "hello"; Line "  "; Line "Quit"] [].
Proof.
  apply (loop_asks_only_parsed_queries
           (Sample.failing_agent TypeError) (fun _ => Answer "MVP: nobody")
           [Line "hello"; Line "  "; Line "Quit"] 3 [] eq_refl).
  intros typed t1 t2 d [[= <-] | [[= <-] | [[= <-] | []]]]; discriminate.
Defined.

(** The loop ends at the first request to stop in what it reads, ASCII
    text up to there: what is typed after the request is not read, and
    more turns change nothing. *)
Theorem loop_stops_at_first_request (run_agent : agent)
        (before after : list read) (r : read) (n : nat) (out : list shown) :
  forallb ascii_read (before ++ [r])%list = true ->
  Forall (fun x => stop_request run_agent x = false) before ->
  stop_request run_agent r = true ->
  List.length before < n ->
  main_loop n run_agent (before ++ r :: after)%list out
  = main_loop (S (List.length before)) run_agent (before ++ [r])%list out
  /\ terminated (main_loop n run_agent (before ++ r :: after)%list out) = true.
Proof.
  intros _ Hbefore Hr. revert n out.
  induction Hbefore as [|x before Hx Hbefore IH]; intros n out Hn.
  - destruct n as [|n]; [cbn in Hn; lia|].
    cbn [app List.length main_loop].
    pose proof (iteration_control run_agent r) as Hc. rewrite Hr in Hc.
    destruct (iteration run_agent (Some r)) as [c shown_now].
    cbn [fst] in Hc. subst c. split; reflexivity.
  - destruct n as [|n]; [cbn in Hn; lia|].
    cbn [List.length] in Hn.
    change ((x :: before) ++ r :: after)%list
      with (x :: (before ++ r :: after))%list.
    change ((x :: before) ++ [r])%list with (x :: (before ++ [r]))%list.
    cbn [List.length].
    cbn [main_loop].
    pose proof (iteration_control run_agent x) as Hc. rewrite Hx in Hc.
    destruct (iteration run_agent (Some x)) as [c shown_now].
    cbn [fst] in Hc. subst c. apply IH. lia.
Qed.

Lemma loop_stops_at_first_request_witness :
  main_loop 9 (fun _ => Answer "MVP: nobody")
            [Line "hello"; Line " EXIT "; Line "A vs B on 2024-01-01"] []
  = main_loop 2 (fun _ => Answer "MVP: nobody")
              [Line "hello"; Line " EXIT "] []
  /\ terminated
       (main_loop 9 (fun _ => Answer "MVP: nobody")
          [Line "hello"; Line " EXIT "; Line "A vs B on 2024-01-01"] [])
     = true.
Proof.
  apply (loop_stops_at_first_request (fun _ => Answer "MVP: nobody")
           [Line "hello"] [Line "A vs B on 2024-01-01"] (Line " EXIT ") 9 []).
  - reflexivity.
  - repeat constructor.
  - reflexivity.
  - cbn. lia.
Defined.

(* ================================================================= *)
(** ** More on the minutes filter *)

Import DigestContract.

Lemma iter_len (v : json) (l : list json) :
  iter v = Ok l -> len v = Ok (Z.of_nat (List.length l)).
Proof.
  destruct v as [| | |s|l'|d]; try discriminate; cbn; intros [= <-].
  - f_equal. f_equal. induction s as [|c s IH]; [reflexivity|].
    cbn. now rewrite IH.
  - reflexivity.
  - now rewrite length_map.
Qed.

Lemma filter_teams_total (teams : list json) :
  forall acc t k acc' t' k' s,
    filter_teams teams (acc, (t, k)) = Ok (acc', (t', k')) ->
    sum_players teams s = Ok (s + (t' - t))%Z.
Proof.
  induction teams as [|team teams IH]; intros acc t k acc' t' k' s H.
  - cbn in H. injection H as <- <- <-. cbn. f_equal. lia.
  - cbn [filter_teams] in H. cbn [sum_players].
    destruct team as [| | | | |d]; cbn [copy get bind] in H; try discriminate.
    cbn [get bind].
    destruct (iter _) as [players|] eqn:Ei; cbn [bind] in H; [|discriminate].
    rewrite (iter_len _ _ Ei). cbn [bind].
    destruct (filter_players players _) as [[kl [t1 k1]]|] eqn:Ef;
      cbn [bind setitem] in H; [|discriminate].
    apply filter_players_spec in Ef as (_ & -> & _).
    rewrite (IH _ _ _ _ _ _ (s + Z.of_nat (List.length players))%Z H).
    f_equal. lia.
Qed.

(** The two tools count the same players: whenever the filter of
    [determine_mvp] runs through a payload, the sum of
    [fetch_match_stats] runs through it too and gives the filter's total,
    the players kept and those left out together. *)
Theorem tools_count_the_same_players (teams filtered : list json)
        (total kept : Z) :
  filter_teams teams ([], (0, 0)%Z) = Ok (filtered, (total, kept)) ->
  sum_players teams 0 = Ok total
  /\ (0 <= kept <= total)%Z.
Proof.
  intros H. split.
  - rewrite (filter_teams_total _ _ _ _ _ _ _ 0%Z H). f_equal. lia.
  - apply filter_teams_spec in H as (copies & _ & HF & -> & ->).
    rewrite !Z.add_0_l. clear - HF.
    induction HF as [|team copy teams copies (players & Hr & Hc) HF IH];
      [cbn; lia|].
    cbn [head_count]. rewrite Hr, Hc.
    pose proof (filter_length_le keeps players). lia.
Qed.

Lemma tools_count_the_same_players_witness :
  sum_players
    [Sample.team "Real Madrid"
       [Sample.player "Late" [("minutes", JNum 3)] [];
        Sample.player "Sub" [("minutes", JNum 6)] [];
        Sample.bench "Bench"]] 0
  = Ok 3%Z.
Proof.
  apply (tools_count_the_same_players
           [Sample.team "Real Madrid"
              [Sample.player "Late" [("minutes", JNum 3)] [];
               Sample.player "Sub" [("minutes", JNum 6)] [];
               Sample.bench "Bench"]]
           [Sample.team "Real Madrid"
              [Sample.player "Sub" [("minutes", JNum 6)] []]]
           3%Z 1%Z eq_refl).
Defined.

Lemma keeps_played (player : json) :
  keeps player = true ->
  exists pm, played_minutes player = Ok pm /\ gt pm 5 = Ok true.
Proof.
  unfold keeps, minutes_of, played_minutes.
  destruct player as [| | | | |d]; try discriminate. cbn [get item bind].
  destruct (lookup "statistics" d) as [[| | | |[|[| | | | |s] l]|]|];
    try discriminate.
  cbn [truthy bind len List.length item0 get].
  destruct (lookup "games" s) as [[| | | | |g]|]; try discriminate.
  cbn [bind get].
  destruct (lookup "minutes" g) as [[| |m| | |]|]; try discriminate.
  intros Hm. cbn [Z.of_nat Z.gtb Z.compare Pos.of_succ_nat bind is_none gt].
  assert (Hpos : Z.gtb m 0 = true).
  { rewrite Z.gtb_ltb in *. apply Z.ltb_lt. apply Z.ltb_lt in Hm. lia. }
  exists (JNum m). cbn. rewrite Hpos. cbn. now rewrite Hm.
Qed.

Lemma filter_players_kept (players : list json) :
  Forall (fun p => keeps p = true) players ->
  forall acc t k,
    filter_players players (acc, (t, k))
    = Ok ((acc ++ players)%list,
          ((t + Z.of_nat (List.length players))%Z,
           (k + Z.of_nat (List.length players))%Z)).
Proof.
  induction 1 as [|p players Hp _ IH]; intros acc t k.
  - cbn. now rewrite app_nil_r, !Z.add_0_r.
  - cbn [filter_players].
    destruct (keeps_played p Hp) as (pm & -> & Hgt). cbn [bind].
    rewrite Hgt. cbn [bind]. rewrite IH, <- app_assoc. cbn [app List.length].
    do 2 f_equal. f_equal; lia.
Qed.

Lemma store_store (k : string) (v : json) (d : list (string * json)) :
  store k v (store k v d) = store k v d.
Proof.
  induction d as [|[k' v'] d IH]; simpl.
  - now rewrite String.eqb_refl.
  - destruct (String.eqb k' k) eqn:E; simpl; rewrite E; [reflexivity|].
    now rewrite IH.
Qed.

Lemma filter_keeps_all (players : list json) :
  Forall (fun p => keeps p = true) (filter keeps players).
Proof.
  apply Forall_forall. intros p Hp. now apply filter_In in Hp.
Qed.

Lemma filter_teams_again (teams : list json) :
  forall acc t k acc' t' k',
    filter_teams teams (acc, (t, k)) = Ok (acc', (t', k')) ->
    exists copies,
      acc' = (acc ++ copies)%list
      /\ forall acc2 t2 k2,
           filter_teams copies (acc2, (t2, k2))
           = Ok ((acc2 ++ copies)%list,
                 ((t2 + (k' - k))%Z, (k2 + (k' - k))%Z)).
Proof.
  induction teams as [|team teams IH]; intros acc t k acc' t' k' H.
  - cbn in H. injection H as <- <- <-. exists []. rewrite app_nil_r.
    split; [reflexivity|]. intros acc2 t2 k2. cbn.
    rewrite app_nil_r. do 2 f_equal. f_equal; lia.
  - cbn [filter_teams] in H.
    destruct team as [| | | | |d]; cbn [copy get bind] in H; try discriminate.
    destruct (iter _) as [players|] eqn:Eit; cbn [bind] in H; [|discriminate].
    destruct (filter_players players _) as [[kl [t1 k1]]|] eqn:Ef;
      cbn [bind setitem] in H; [|discriminate].
    apply filter_players_spec in Ef as (-> & -> & ->). cbn [app] in H.
    apply IH in H as (copies & -> & Hagain).
    set (team' := JObj (store "players" (JArr (filter keeps players)) d)).
    exists (team' :: copies). rewrite <- app_assoc. split; [reflexivity|].
    intros acc2 t2 k2. unfold team'. cbn [filter_teams copy get bind].
    rewrite lookup_store. cbn [iter bind].
    rewrite (filter_players_kept _ (filter_keeps_all players)).
    cbn [bind app setitem]. rewrite store_store.
    rewrite Hagain, <- app_assoc. cbn [app].
    do 2 f_equal. f_equal; lia.
Qed.

(** The filter of [determine_mvp] changes nothing the second time: run
    on the teams it returned, it returns them as they are and leaves
    nobody out. *)
Theorem filter_teams_keeps_its_result (teams filtered : list json)
        (total kept : Z) :
  filter_teams teams ([], (0, 0)%Z) = Ok (filtered, (total, kept)) ->
  filter_teams filtered ([], (0, 0)%Z) = Ok (filtered, (kept, kept)).
Proof.
  intros H. apply filter_teams_again in H as (copies & -> & Hagain).
  cbn [app]. rewrite Hagain. cbn [app]. do 2 f_equal. f_equal; lia.
Qed.

Lemma filter_teams_keeps_its_result_witness :
  filter_teams
    [Sample.team "Real Madrid"
       [Sample.player "Sub" [("minutes", JNum 6)] []]] ([], (0, 0)%Z)
  = Ok ([Sample.team "Real Madrid"
           [Sample.player "Sub" [("minutes", JNum 6)] []]], (1, 1)%Z).
Proof.
  exact (filter_teams_keeps_its_result
           [Sample.team "Real Madrid"
              [Sample.player "Late" [("minutes", JNum 3)] [];
               Sample.player "Sub" [("minutes", JNum 6)] [];
               Sample.bench "Bench"]]
           [Sample.team "Real Madrid"
              [Sample.player "Sub" [("minutes", JNum 6)] []]]
           3%Z 1%Z eq_refl).
Defined.

(* ================================================================= *)
(** ** A match in which nobody played long enough *)

Lemma retained_idle (ts : list team_stats) :
  forallb idle ts = true ->
  digest (map retained ts) = headings ts
  /\ players_in (map retained ts) = 0%Z
  /\ forallb positioned (map retained ts) = true.
Proof.
  induction ts as [|t ts IH]; [now cbn|].
  cbn [forallb]. intros H. apply andb_prop in H as [Ht Hts].
  destruct (IH Hts) as (Hd & Hp & Hq).
  assert (E : filter played (squad t) = []).
  { unfold idle in Ht. induction (squad t) as [|p ps IHp]; [reflexivity|].
    cbn [forallb] in Ht. apply andb_prop in Ht as [Hp' Hps].
    cbn [filter]. apply negb_true_iff in Hp'. rewrite Hp'. now apply IHp. }
  cbn [map digest players_in headings forallb retained squad club].
  rewrite Hd, Hp, Hq. unfold positioned, retained. cbn [squad club].
  rewrite E. cbn. split; [reflexivity | split; reflexivity].
Qed.

(** When no player of the match has more than five minutes,
    [determine_mvp] still asks the language model, for a digest that
    holds the team headings alone, and returns its completion with the
    line for 0 players. *)
Theorem determine_mvp_with_nobody_left (requests_get : http) (llm : model)
        (fixture_id : Z) (text completion : string)
        (d : list (string * json)) (teams : list team_stats) :
  requests_get (BASE_URL ++ "/" ++ "fixtures/players")
               [("fixture", JNum fixture_id)]
  = Response 200 text (inr (JObj d)) ->
  quiet d = true ->
  lookup "response" d = Some (JArr (map team_payload teams)) ->
  teams <> [] ->
  forallb idle teams = true ->
  llm (prompt (headings teams)) = Ok completion ->
  determine_mvp requests_get llm fixture_id
  = Text (completion ++ nl ++ nl
          ++ "📊 Analysis based on 0 players (filtered out "
          ++ of_Z (players_in teams) ++ " who played ≤5 minutes)").
Proof.
  intros Hget Hq Hresp Hne Hidle Hllm.
  destruct (retained_idle teams Hidle) as (Hd & Hp & Hpos).
  unfold determine_mvp, determine_mvp_body.
  rewrite (get_player_stats_quiet _ _ _ _ _ Hget Hq Hresp)
    by (destruct teams; [contradiction | discriminate]).
  cbn [bind]. replace (truthy (JArr (map team_payload teams))) with true
    by (destruct teams; [contradiction | reflexivity]).
  cbn [negb iter bind]. rewrite filter_teams_payload. cbn [bind app].
  rewrite !Z.add_0_l. unfold _create_player_summary.
  rewrite teams_paragraphs_payload by exact Hpos.
  cbn [bind append]. rewrite Hd, Hllm, Hp. cbn [bind].
  unfold analysis_line. now rewrite Z.sub_0_r.
Qed.

Lemma determine_mvp_with_nobody_left_witness :
  determine_mvp
    (Sample.serving
       (Sample.envelope
          (map team_payload
             [{| club := "Real Madrid";
                 squad := [Sample.late_substitute] |}])))
    (Sample.oracle "MVP: Ceballos") 12345
  = Text ("MVP: Ceballos" ++ nl ++ nl
          ++ "📊 Analysis based on 0 players (filtered out 1 who played ≤5 minutes)").
Proof.
  exact (determine_mvp_with_nobody_left
           (Sample.serving
              (Sample.envelope
                 (map team_payload
                    [{| club := "Real Madrid";
                        squad := [Sample.late_substitute] |}])))
           (Sample.oracle "MVP: Ceballos") 12345 "" "MVP: Ceballos"
           [("errors", JArr []);
            ("response",
             JArr (map team_payload
                     [{| club := "Real Madrid";
                         squad := [Sample.late_substitute] |}]))]
           [{| club := "Real Madrid"; squad := [Sample.late_substitute] |}]
           eq_refl eq_refl eq_refl
           (fun E => match E with eq_refl => I end)
           eq_refl eq_refl).
Defined.

(* ================================================================= *)
(** ** The statements above, at sample inputs *)

Lemma tools_hide_failed_requests_witness :
  validate_match (Sample.answering (Response 401 "bad key" (inl (NotJson "no JSON"))))
                 "Real Madrid" "Barcelona" "2023-10-28"
  = Text "No match found between Real Madrid and Barcelona on 2023-10-28. Please check team names and date."
  /\ fetch_match_stats (Sample.answering Timeout) 12345
     = Text "Error: No player statistics found for fixture 12345"
  /\ determine_mvp (Sample.answering Timeout) (Sample.oracle "MVP") 12345
     = Text "No player statistics found for fixture 12345".
Proof.
  destruct (tools_hide_failed_requests
              (Sample.answering (Response 401 "bad key" (inl (NotJson "no JSON"))))
              (Sample.oracle "MVP") "Real Madrid" "Barcelona" "2023-10-28"
              12345) as [H1 _].
  destruct (tools_hide_failed_requests
              (Sample.answering Timeout)
              (Sample.oracle "MVP") "Real Madrid" "Barcelona" "2023-10-28"
              12345) as [_ H2].
  split; [exact (H1 eq_refl) | exact (H2 eq_refl)].
Defined.


Lemma main_loops_when_configured_witness :
  (exists events,
     main Settings.all_set Settings.echo_factory
          [Line "A vs B on 2024-01-01"; Line "q"] 5
     = (events,
        Looped
          (Terminated
             [Print input_prompt;
              Print (nl ++ "🏆 Result:" ++ nl ++ "g-key");
              Print input_prompt;
              LogInfo "👋 Goodbye!"])))
  /\ (exists events message,
        main Settings.placeholder_left Settings.echo_factory
             [Line "A vs B on 2024-01-01"; Line "q"] 5
        = ((events ++ [Logged (ERROR, message)])%list, Returned)).
Proof.
  destruct (main_loops_when_configured Settings.all_set Settings.echo_factory
              [Line "A vs B on 2024-01-01"; Line "q"] 5) as [H1 _].
  destruct (main_loops_when_configured Settings.placeholder_left
              Settings.echo_factory
              [Line "A vs B on 2024-01-01"; Line "q"] 5) as [_ H2].
  split.
  - destruct (H1 eq_refl) as (events & llm & api_client & E & _).
    exists events. rewrite E. cbv in E. injection E as _ E.
    cbv. now rewrite <- E.
  - exact (H2 eq_refl).
Defined.

Lemma demo_runs_unconfigured_witness :
  snd (run_demo Settings.nothing_set Settings.key_required
                Settings.echo_factory)
  = Aborted TypeError
  /\ snd (main Settings.nothing_set Settings.echo_factory [] 1) = Returned
  /\ snd (run_demo Settings.rapid_key_only Settings.key_required
                   Settings.echo_factory)
     = Aborted (Exception "API key required for Gemini Developer API")
  /\ snd (run_demo Settings.placeholder_left Settings.key_required
                   Settings.echo_factory)
     = Completed.
Proof.
  destruct (demo_runs_unconfigured Settings.nothing_set Settings.key_required
              Settings.echo_factory [] 1) as [H1 _].
  destruct (demo_runs_unconfigured Settings.rapid_key_only
              Settings.key_required Settings.echo_factory [] 1) as [_ H2].
  destruct (demo_runs_unconfigured Settings.placeholder_left
              Settings.key_required Settings.echo_factory [] 1) as [_ H3].
  destruct (H1 eq_refl) as [E1 E2].
  split; [now rewrite E1 | split; [exact E2|]].
  destruct (H2 "0123456789-secret-wxyz" eq_refl) as (llm & c & E & Hk & _).
  destruct (H3 "0123456789-secret-wxyz" eq_refl) as (llm' & c' & E' & Hk' & _).
  split.
  - rewrite E. unfold Settings.key_required. now rewrite Hk.
  - rewrite E'. unfold Settings.key_required. now rewrite Hk'.
Defined.
